(** * rw2_to_exr: the conversion job engine of [rw2toexr.py]

    A shallow embedding of [ConversionThread] (its [run], [convert_single],
    [batch_convert] and [rw2_to_exr] methods) together with the parts of
    CPython's [pathlib], [posixpath] and [os] and of NumPy's arithmetic that
    the methods call, and of the slots of the window [RW2ToEXRApp] that
    start a job, cancel it and receive its signals.

    Conventions of the model.
    - Integers are [Z]; Python's [str] is [string].
    - Floating point follows IEEE 754 round-to-nearest-even: a value is the
      rational it denotes, and an operation rounds the exact result to the
      format ([binary64] for Python's [float], [binary32] for [np.float32]).
    - Paths follow the POSIX flavour of [pathlib] (CPython 3.8 to 3.13).
    - The file system is a tree of directories and files without symbolic
      links; the order in which a directory lists its entries is the file
      system's own, given by a key on the names.
    - The raw decoder ([rawpy]) and the image encoder ([OpenEXR]) are
      parameters of the model.
    - A widget of the window is the state its slots read and write; a
      message box is recorded when it is shown. *)

From Stdlib Require Import ZArith QArith Qabs Qround Qpower Lia Lqa Bool.
From Stdlib Require Import SpecFloat Ascii String.
From stdpp Require Import base list strings gmap pretty.

Local Open Scope Z_scope.

#[local] Set Warnings "-register-all".

(* ===================================================================== *)
(** * Floating-point arithmetic *)
(* ===================================================================== *)

Module IEEE.

Local Open Scope Q_scope.

(** Round a rational to the nearest integer, ties to the even one. *)
Definition rint (x : Q) : Z :=
  let f := Qfloor x in
  match Qcompare (x - inject_Z f) (1 # 2) with
  | Lt => f
  | Eq => if Z.even f then f else (f + 1)%Z
  | Gt => (f + 1)%Z
  end.

(** The binary magnitude of [x <> 0]: the [k] with [2^(k-1) <= |x| < 2^k]. *)
Definition mag (x : Q) : Z :=
  let d := (Z.log2 (Z.abs (Qnum x)) - Z.log2 (Zpos (Qden x)))%Z in
  if Qle_bool (2 ^ d) (Qabs x) then (d + 1)%Z else d.

(** A binary format: [prec] bits of mantissa, infinities at [2^emax]. *)
Record format := { prec : Z; emax : Z }.

Definition binary32 : format := {| prec := 24; emax := 128 |}.
Definition binary64 : format := {| prec := 53; emax := 1024 |}.

Definition emin (f : format) : Z := 3 - emax f - prec f.

(** The exponent of the unit in the last place of [x] in format [f]. *)
Definition fexp (f : format) (x : Q) : Z := Z.max (mag x - prec f) (emin f).

(** Round to nearest even in format [f] (below the overflow threshold). *)
Definition round (f : format) (x : Q) : Q :=
  let e := fexp f x in
  inject_Z (rint (x / 2 ^ e)) * 2 ^ e.

(** Truncation toward zero: Python's [int(x)] on a float. *)
Definition Qtrunc (x : Q) : Z :=
  if Qle_bool 0 x then Qfloor x else Qceiling x.

(** ** Rounding to an integer *)

Lemma rint_Z (z : Z) : rint (inject_Z z) = z.
Proof.
  unfold rint. rewrite Qfloor_Z.
  assert (E : inject_Z z - inject_Z z == 0) by ring.
  rewrite E. reflexivity.
Qed.

Lemma rint_mono (x y : Q) : x <= y -> (rint x <= rint y)%Z.
Proof.
  intros Hxy. unfold rint.
  pose proof (Qfloor_resp_le _ _ Hxy) as Hf.
  pose proof (Qfloor_le x) as Hx1. pose proof (Qlt_floor x) as Hx2.
  pose proof (Qfloor_le y) as Hy1. pose proof (Qlt_floor y) as Hy2.
  rewrite inject_Z_plus in Hx2, Hy2.
  destruct (Z.eq_dec (Qfloor x) (Qfloor y)) as [E | NE].
  - rewrite <- E in *.
    destruct (Qcompare_spec (x - inject_Z (Qfloor x)) (1 # 2)) as [Cx | Cx | Cx];
      destruct (Qcompare_spec (y - inject_Z (Qfloor x)) (1 # 2)) as [Cy | Cy | Cy];
      try (exfalso; lra); destruct (Z.even (Qfloor x)); lia.
  - assert (Hlt : (Qfloor x + 1 <= Qfloor y)%Z) by lia.
    destruct (Qcompare (x - inject_Z (Qfloor x)) (1 # 2));
      destruct (Qcompare (y - inject_Z (Qfloor y)) (1 # 2));
      destruct (Z.even (Qfloor x)); destruct (Z.even (Qfloor y)); lia.
Qed.

Lemma rint_comp (x y : Q) : x == y -> rint x = rint y.
Proof.
  intros E. apply Z.le_antisymm; apply rint_mono; rewrite E; apply Qle_refl.
Qed.

(** ** Powers of two *)

Lemma pow2_pos (k : Z) : 0 < 2 ^ k.
Proof. apply Qpower_0_lt. reflexivity. Qed.

Lemma pow2_add (a b : Z) : 2 ^ (a + b) == 2 ^ a * 2 ^ b.
Proof. apply Qpower_plus. discriminate. Qed.

Lemma pow2_succ (k : Z) : 2 ^ (k + 1) == 2 * 2 ^ k.
Proof. rewrite pow2_add. change (2 ^ 1) with 2. ring. Qed.

Lemma pow2_Z (k : Z) : (0 <= k)%Z -> 2 ^ k == inject_Z (2 ^ k).
Proof. intros H. rewrite Zpower_Qpower by assumption. reflexivity. Qed.

Lemma pow2_le (a b : Z) : (a <= b)%Z -> 2 ^ a <= 2 ^ b.
Proof. intros H. apply Qpower_le_compat_l; [assumption | discriminate]. Qed.

(** ** The magnitude *)

Lemma mag_spec (x : Q) : 0 < x -> 2 ^ (mag x - 1) <= x /\ x < 2 ^ mag x.
Proof.
  intros Hx. unfold mag.
  rewrite (Qabs_pos x) by (apply Qlt_le_weak; assumption).
  destruct x as [n d]. cbn [Qnum Qden].
  assert (Hn : (0 < n)%Z).
  { unfold Qlt in Hx. cbn in Hx. lia. }
  rewrite (Z.abs_eq n) by lia.
  set (a := Z.log2 n). set (b := Z.log2 (Zpos d)).
  assert (Ha : (0 <= a)%Z) by apply Z.log2_nonneg.
  assert (Hb : (0 <= b)%Z) by apply Z.log2_nonneg.
  destruct (Z.log2_spec n Hn) as [Ha1 Ha2]. fold a in Ha1, Ha2.
  destruct (Z.log2_spec (Zpos d) (Pos2Z.is_pos d)) as [Hb1 Hb2].
  fold b in Hb1, Hb2.
  rewrite <- Z.add_1_r in Ha2, Hb2.
  rewrite Zle_Qle in Ha1, Hb1. rewrite Zlt_Qlt in Ha2, Hb2.
  rewrite <- pow2_Z in Ha1, Ha2, Hb1, Hb2 by lia.
  rewrite pow2_succ in Ha2, Hb2.
  assert (HP : 2 ^ (a - b) * 2 ^ b == 2 ^ a).
  { rewrite <- pow2_add. replace (a - b + b)%Z with a by lia. reflexivity. }
  assert (Hs : 2 ^ (a - b + 1 - 1) == 2 ^ (a - b)).
  { replace (a - b + 1 - 1)%Z with (a - b)%Z by lia. reflexivity. }
  assert (Hp : 2 * 2 ^ (a - b - 1) == 2 ^ (a - b)).
  { rewrite <- pow2_succ. replace (a - b - 1 + 1)%Z with (a - b)%Z by lia.
    reflexivity. }
  pose proof (pow2_succ (a - b)) as Hq.
  pose proof (pow2_pos (a - b)) as HP0. pose proof (pow2_pos b) as HB0.
  pose proof (pow2_pos a) as HA0.
  assert (HD : (n # d) * inject_Z (Zpos d) == inject_Z n).
  { unfold Qeq, Qmult, inject_Z. cbn. lia. }
  assert (HD0 : 0 < inject_Z (Zpos d)).
  { replace 0 with (inject_Z 0) by reflexivity. rewrite <- Zlt_Qlt. lia. }
  set (X := n # d) in *. set (D := inject_Z (Zpos d)) in *.
  set (N := inject_Z n) in *.
  set (P := 2 ^ (a - b)) in *. set (A := 2 ^ a) in *. set (B := 2 ^ b) in *.
  destruct (Qle_bool P X) eqn:T.
  - apply Qle_bool_iff in T. rewrite Hs, Hq. split; [assumption |].
    apply Qnot_le_lt. intros C.
    assert (2 * P * D <= X * D) by nra. nra.
  - assert (T' : X < P).
    { apply Qnot_le_lt. intros C. apply Qle_bool_iff in C. congruence. }
    split; [| assumption].
    set (P' := 2 ^ (a - b - 1)) in *.
    apply Qnot_lt_le. intros C.
    assert (X * D < P' * D) by nra. nra.
Qed.

Lemma mag_mono (x y : Q) : 0 < x -> x <= y -> (mag x <= mag y)%Z.
Proof.
  intros Hx Hxy.
  assert (Hy : 0 < y) by lra.
  destruct (mag_spec x Hx) as [Lx _]. destruct (mag_spec y Hy) as [_ Uy].
  destruct (Z_le_gt_dec (mag x) (mag y)) as [H | H]; [assumption | exfalso].
  pose proof (pow2_le (mag y) (mag x - 1) ltac:(lia)). lra.
Qed.

(** ** Rounding to a format *)

Lemma scaled_le (x : Q) (e k : Z) :
  (0 <= k)%Z -> x <= 2 ^ (e + k) -> (rint (x / 2 ^ e) <= 2 ^ k)%Z.
Proof.
  intros Hk Hx. rewrite <- (rint_Z (2 ^ k)). apply rint_mono.
  rewrite <- pow2_Z by assumption.
  apply Qle_shift_div_r; [apply pow2_pos |].
  rewrite <- pow2_add. rewrite Z.add_comm. assumption.
Qed.

Lemma scaled_ge (x : Q) (e k : Z) :
  (0 <= k)%Z -> 2 ^ (e + k) <= x -> (2 ^ k <= rint (x / 2 ^ e))%Z.
Proof.
  intros Hk Hx. rewrite <- (rint_Z (2 ^ k)) at 1. apply rint_mono.
  rewrite <- pow2_Z by assumption.
  apply Qle_shift_div_l; [apply pow2_pos |].
  rewrite <- pow2_add. rewrite Z.add_comm. assumption.
Qed.

Lemma round_nonneg (f : format) (x : Q) : 0 <= x -> 0 <= round f x.
Proof.
  intros Hx. unfold round.
  apply Qmult_le_0_compat; [| apply Qlt_le_weak, pow2_pos].
  change 0 with (inject_Z 0). rewrite <- Zle_Qle.
  rewrite <- (rint_Z 0). apply rint_mono.
  apply Qle_shift_div_l; [apply pow2_pos |]. rewrite Qmult_0_l. assumption.
Qed.

Lemma round_0 (f : format) (x : Q) : x == 0 -> round f x == 0.
Proof.
  intros E. unfold round.
  assert (R : rint (x / 2 ^ fexp f x) = 0%Z).
  { rewrite <- (rint_Z 0). apply rint_comp.
    generalize (2 ^ fexp f x). intros c. rewrite E. unfold Qdiv. ring. }
  rewrite R. ring.
Qed.

Lemma round_mono (f : format) (x y : Q) :
  (0 < prec f)%Z -> 0 <= x -> x <= y -> round f x <= round f y.
Proof.
  intros Hp Hx Hxy.
  destruct (Qlt_le_dec 0 x) as [Hx0 | Hx0].
  2:{ rewrite (round_0 f x) by lra. apply round_nonneg. lra. }
  assert (Hy0 : 0 < y) by lra.
  pose proof (mag_mono x y Hx0 Hxy) as Hm.
  destruct (mag_spec x Hx0) as [_ Ux]. destruct (mag_spec y Hy0) as [Ly _].
  unfold round.
  destruct (Z.eq_dec (fexp f x) (fexp f y)) as [E | NE].
  - rewrite E. apply Qmult_le_compat_r; [| apply Qlt_le_weak, pow2_pos].
    rewrite <- Zle_Qle. apply rint_mono.
    apply Qmult_le_compat_r; [assumption |].
    apply Qlt_le_weak, Qinv_lt_0_compat, pow2_pos.
  - assert (Hlt : (fexp f x < fexp f y)%Z) by (unfold fexp in *; lia).
    assert (Ey : fexp f y = (mag y - prec f)%Z) by (unfold fexp in *; lia).
    assert (Ex : (mag x <= fexp f x + prec f)%Z) by (unfold fexp; lia).
    set (ex := fexp f x) in *. set (ey := fexp f y) in *.
    assert (Rx : (rint (x / 2 ^ ex) <= 2 ^ prec f)%Z).
    { apply scaled_le; [lia |].
      pose proof (pow2_le (mag x) (ex + prec f) Ex). lra. }
    assert (Ry : (2 ^ (prec f - 1) <= rint (y / 2 ^ ey))%Z).
    { apply scaled_ge; [lia |].
      replace (ey + (prec f - 1))%Z with (mag y - 1)%Z by lia. assumption. }
    rewrite Zle_Qle in Rx, Ry.
    rewrite <- !pow2_Z in Rx, Ry by lia.
    pose proof (pow2_pos ex) as Pex. pose proof (pow2_pos ey) as Pey.
    pose proof (pow2_le (prec f + ex) (prec f - 1 + ey) ltac:(lia)) as Hc.
    rewrite !pow2_add in Hc.
    set (rx := inject_Z (rint (x / 2 ^ ex))) in *.
    set (ry := inject_Z (rint (y / 2 ^ ey))) in *.
    apply Qle_trans with (2 ^ prec f * 2 ^ ex).
    { apply Qmult_le_compat_r; [assumption | lra]. }
    apply Qle_trans with (2 ^ (prec f - 1) * 2 ^ ey); [assumption |].
    apply Qmult_le_compat_r; [assumption | lra].
Qed.

Lemma round_comp (f : format) (x y : Q) :
  (0 < prec f)%Z -> 0 <= x -> x == y -> round f x == round f y.
Proof.
  intros Hp Hx E. apply Qle_antisym; apply round_mono; solve [assumption | lra].
Qed.

(** ** The operations of Python and NumPy the program uses *)

(** [a / b] on two [int]s: the quotient, correctly rounded to a [float]. *)
Definition int_truediv (a b : Z) : Q :=
  round binary64 (inject_Z a / inject_Z b).

(** [x * k] for a [float] [x] and a small [int] [k]. *)
Definition float_mul_int (x : Q) (k : Z) : Q :=
  round binary64 (x * inject_Z k).

(** [int(x)] for a [float] [x]. *)
Definition int_of_float (x : Q) : Z := Qtrunc x.

(** [np.float32(s)] for an integer [s]. *)
Definition float32_of_int (s : Z) : Q := round binary32 (inject_Z s).

(** [x / d] for a [float32] [x] and a scalar [d] that a [float32] holds
    exactly: the quotient is a [float32]. *)
Definition float32_div (x : Q) (d : Z) : Q := round binary32 (x / inject_Z d).

(** ** Agreement with the Standard Library's IEEE 754 specification *)

Definition SF2Q (x : spec_float) : option Q :=
  match x with
  | S754_zero _ => Some 0
  | S754_finite s m e =>
      Some ((if s then - inject_Z (Zpos m) else inject_Z (Zpos m)) * 2 ^ e)
  | _ => None
  end.

Definition SF_of_Z (f : format) (z : Z) : spec_float :=
  binary_normalize (prec f) (emax f) z 0 false.

Definition SF_agrees (x : spec_float) (q : Q) : bool :=
  match SF2Q x with
  | Some q' => Qeq_bool q' q
  | None => false
  end.

Definition Zrange (lo n : nat) : list Z :=
  List.map Z.of_nat (List.seq lo n).

End IEEE.

(* ===================================================================== *)
(** * Python strings *)
(* ===================================================================== *)

Module Str.

Local Open Scope string_scope.

Definition sep : ascii := "/"%char.
Definition dot : ascii := "."%char.

(** [len(s)]. *)
Definition len (s : string) : Z := Z.of_nat (String.length s).

(** [s.rfind(c)] for a one-character [c]: the last index of [c], or [-1]. *)
Fixpoint rfind_from (c : ascii) (s : string) (i last : Z) : Z :=
  match s with
  | EmptyString => last
  | String a s' => rfind_from c s' (i + 1)%Z (if Ascii.eqb a c then i else last)
  end.

Definition rfind (c : ascii) (s : string) : Z := rfind_from c s 0%Z (-1)%Z.

Fixpoint take (n : nat) (s : string) : string :=
  match n, s with
  | S n', String a s' => String a (take n' s')
  | _, _ => EmptyString
  end.

Fixpoint drop (n : nat) (s : string) : string :=
  match n, s with
  | S n', String _ s' => drop n' s'
  | _, _ => s
  end.

(** A slice bound as Python reads it: negative bounds count from the end,
    and every bound is clipped to [0, len(s)]. *)
Definition bound (s : string) (i : Z) : nat :=
  Z.to_nat (Z.min (len s) (Z.max 0 (if (i <? 0)%Z then (len s + i)%Z else i))).

(** [s[:i]] and [s[i:]]. *)
Definition slice_to (s : string) (i : Z) : string := take (bound s i) s.
Definition slice_from (s : string) (i : Z) : string := drop (bound s i) s.

(** [s.split(c)]. *)
Fixpoint split (c : ascii) (s : string) : list string :=
  match s with
  | EmptyString => [EmptyString]
  | String a s' =>
      if Ascii.eqb a c then EmptyString :: split c s'
      else match split c s' with
           | h :: t => String a h :: t
           | [] => [String a EmptyString]
           end
  end.

(** [s.lstrip(c)] and [s.rstrip(c)]. *)
Fixpoint lstrip (c : ascii) (s : string) : string :=
  match s with
  | String a s' => if Ascii.eqb a c then lstrip c s' else s
  | EmptyString => EmptyString
  end.

Fixpoint rstrip (c : ascii) (s : string) : string :=
  match s with
  | EmptyString => EmptyString
  | String a s' =>
      match rstrip c s' with
      | EmptyString => if Ascii.eqb a c then EmptyString else String a EmptyString
      | r => String a r
      end
  end.

(** [s == c * len(s)]: every character of [s] is [c]. *)
Fixpoint all_char (c : ascii) (s : string) : bool :=
  match s with
  | EmptyString => true
  | String a s' => Ascii.eqb a c && all_char c s'
  end.

(** [c in s]. *)
Fixpoint contains (c : ascii) (s : string) : bool :=
  match s with
  | EmptyString => false
  | String a s' => Ascii.eqb a c || contains c s'
  end.

(** [sep.join(l)]. *)
Definition join (c : string) (l : list string) : string := String.concat c l.

(** [s.endswith(t)]. *)
Definition endswith (s t : string) : bool :=
  String.eqb (drop (String.length s - String.length t) s) t
  && (String.length t <=? String.length s)%nat.

(** [s.lower()] on ASCII text. *)
Definition lower_char (a : ascii) : ascii :=
  let n := nat_of_ascii a in
  if ((65 <=? n) && (n <=? 90))%nat then ascii_of_nat (n + 32) else a.

Fixpoint lower (s : string) : string :=
  match s with
  | EmptyString => EmptyString
  | String a s' => String (lower_char a) (lower s')
  end.

(** [str(n)] for an [int]. *)
Definition of_int (n : Z) : string := pretty n.

(** [bool(s)]: a string is true when it is not empty. *)
Definition truthy (s : string) : bool :=
  match s with EmptyString => false | _ => true end.

(** [repr(s)]: quoted with ['] unless [s] holds a ['] and no double quote;
    the backslash and the quote are escaped, the tab, the line feed and
    the carriage return are written [\t], [\n] and [\r], and the other
    control characters of ASCII [\xhh]. A byte from 128 on is taken as a
    part of a printable character and left as it is. *)
Definition quote1 : ascii := "'"%char.
Definition quote2 : ascii := "034"%char.
Definition backslash : ascii := "\"%char.

Definition hex_digit (n : nat) : ascii :=
  match String.get n "0123456789abcdef" with
  | Some c => c
  | None => "0"%char
  end.

Definition escape_char (q a : ascii) : string :=
  let n := nat_of_ascii a in
  if Ascii.eqb a q || Ascii.eqb a backslash then
    String backslash (String a EmptyString)
  else if (n =? 9)%nat then String backslash "t"
  else if (n =? 10)%nat then String backslash "n"
  else if (n =? 13)%nat then String backslash "r"
  else if (n <? 32)%nat || (n =? 127)%nat then
    String backslash
      (String "x"
         (String (hex_digit (n / 16))
            (String (hex_digit (n mod 16)) EmptyString)))
  else String a EmptyString.

Fixpoint escape (q : ascii) (s : string) : string :=
  match s with
  | EmptyString => EmptyString
  | String a s' => escape_char q a ++ escape q s'
  end.

Definition repr (s : string) : string :=
  let q := if contains quote1 s && negb (contains quote2 s)
           then quote2 else quote1 in
  String q (escape q s ++ String q EmptyString).

(** [fnmatch.fnmatchcase(s, pat)] for a pattern of literals, [*] and [?]
    (bracket expressions are not modelled). *)
Fixpoint fnmatch (pat : string) : string -> bool :=
  match pat with
  | EmptyString => fun s => negb (truthy s)
  | String p pat' =>
      if Ascii.eqb p "*"%char then
        fix star (s : string) : bool :=
          fnmatch pat' s
          || match s with
             | EmptyString => false
             | String _ s' => star s'
             end
      else
        fun s =>
          match s with
          | EmptyString => false
          | String a s' =>
              (Ascii.eqb p "?"%char || Ascii.eqb a p) && fnmatch pat' s'
          end
  end.

End Str.

(* ===================================================================== *)
(** * Exceptions *)
(* ===================================================================== *)

Inductive errno := ENOENT | EEXIST | ENOTDIR | EISDIR.

Definition errno_code (e : errno) : Z :=
  match e with ENOENT => 2 | EEXIST => 17 | ENOTDIR => 20 | EISDIR => 21 end.

Definition strerror (e : errno) : string :=
  match e with
  | ENOENT => "No such file or directory"
  | EEXIST => "File exists"
  | ENOTDIR => "Not a directory"
  | EISDIR => "Is a directory"
  end.

(** The exceptions the program meets, all subclasses of [Exception]:
    [OSError] stands for its subclass by [errno] ([FileNotFoundError],
    [FileExistsError], [NotADirectoryError], [IsADirectoryError]), and
    [LibraryError] for what [rawpy] or [OpenEXR] raise. *)
Inductive exn :=
| OSError (e : errno) (filename : string)
| ValueError (msg : string)
| Exception (msg : string)
| LibraryError (cls msg : string).

(** [str(e)]. *)
Definition str_exn (e : exn) : string :=
  match e with
  | OSError e f =>
      "[Errno " +:+ Str.of_int (errno_code e) +:+ "] " +:+ strerror e
      +:+ ": " +:+ Str.repr f
  | ValueError m | Exception m | LibraryError _ m => m
  end.

(** A computation that returns or raises. *)
Abbreviation result A := (sum exn A).
Abbreviation Ok := inr (only parsing).
Abbreviation Raise := inl (only parsing).

(* ===================================================================== *)
(** * [posixpath] and [pathlib] (pure paths) *)
(* ===================================================================== *)

Module posixpath.

Import Str.

(** [posixpath.split(p)]. *)
Definition split (p : string) : string * string :=
  let i := (rfind sep p + 1)%Z in
  let head := slice_to p i in
  let tail := slice_from p i in
  let head :=
    if truthy head && negb (all_char sep head) then rstrip sep head
    else head in
  (head, tail).

(** [posixpath.dirname(p)]. *)
Definition dirname (p : string) : string :=
  let i := (rfind sep p + 1)%Z in
  let head := slice_to p i in
  if truthy head && negb (all_char sep head) then rstrip sep head else head.

End posixpath.

Module pathlib.

Import Str.

(** A pure POSIX path: its root ([""], ["/"] or ["//"]) and its parts. *)
Record PurePath := { root : string; parts : list string }.

(** [_PosixFlavour.splitroot]. *)
Definition splitroot (part : string) : string * string :=
  match part with
  | String a _ =>
      if Ascii.eqb a sep then
        let stripped := lstrip sep part in
        if (len part - len stripped =? 2)%Z then ("//", stripped)
        else ("/", stripped)
      else (EmptyString, part)
  | EmptyString => (EmptyString, part)
  end.

(** The components a parse keeps: not empty and not [.]. *)
Definition kept (x : string) : bool := truthy x && negb (String.eqb x ".").

(** [Path(s)]. *)
Definition Path (s : string) : PurePath :=
  let '(r, rel) := splitroot s in
  {| root := r; parts := List.filter kept (split sep rel) |}.

(** [str(p)]. *)
Definition str (p : PurePath) : string :=
  let s := root p +:+ join "/" (parts p) in
  if truthy s then s else ".".

(** [repr(p)]. *)
Definition repr (p : PurePath) : string :=
  "PosixPath(" +:+ Str.repr (str p) +:+ ")".

(** [p.name], [p.suffix], [p.stem], [p.parent]. *)
Definition name (p : PurePath) : string := List.last (parts p) EmptyString.

Definition suffix (p : PurePath) : string :=
  let name := name p in
  let i := rfind dot name in
  if (0 <? i)%Z && (i <? len name - 1)%Z then slice_from name i
  else EmptyString.

Definition stem (p : PurePath) : string :=
  let name := name p in
  let i := rfind dot name in
  if (0 <? i)%Z && (i <? len name - 1)%Z then slice_to name i else name.

Definition parent (p : PurePath) : PurePath :=
  {| root := root p; parts := removelast (parts p) |}.

(** [p.with_suffix(suffix)]. *)
Definition with_suffix (p : PurePath) (suffix' : string) : result PurePath :=
  if contains sep suffix' then
    Raise (ValueError ("Invalid suffix " +:+ Str.repr suffix'))
  else if (truthy suffix' && negb (String.prefix "." suffix'))
          || String.eqb suffix' "." then
    Raise (ValueError ("Invalid suffix " +:+ Str.repr suffix'))
  else
    let name := name p in
    if negb (truthy name) then
      Raise (ValueError (repr p +:+ " has an empty name"))
    else
      let old_suffix := suffix p in
      let name :=
        if negb (truthy old_suffix) then name +:+ suffix'
        else slice_to name (- len old_suffix) +:+ suffix' in
      Ok {| root := root p; parts := removelast (parts p) ++ [name] |}.

(** [p / key] for a string [key]. *)
Definition truediv (p : PurePath) (key : string) : PurePath :=
  let q := Path key in
  if truthy (root q) then q
  else {| root := root p; parts := parts p ++ parts q |}.

(** [p._make_child_relpath(name)]: the child a directory scan yields. *)
Definition make_child_relpath (p : PurePath) (name : string) : PurePath :=
  {| root := root p; parts := parts p ++ [name] |}.

End pathlib.

Infix "/:" := pathlib.truediv (at level 40, left associativity).

(* ===================================================================== *)
(** * The file system *)
(* ===================================================================== *)

Module FS.

Import Str.

(** A node is a regular file or a directory with its entries, in the order
    in which they were made. *)
Inductive node :=
| File
| Dir (entries : list (string * node)).

(** The file system: the tree under [/], the working directory, and the
    key by which a scan of a directory orders the names of its entries
    (the hash of a name, say); names of equal key come in the order in
    which the entries were made. *)
Record t := { tree : node; cwd : list string; scan_key : string -> nat }.

Fixpoint lookup_entry (name : string) (es : list (string * node))
  : option node :=
  match es with
  | [] => None
  | (n, x) :: es' => if String.eqb n name then Some x else lookup_entry name es'
  end.

Fixpoint update_entry (name : string) (x : node) (es : list (string * node))
  : list (string * node) :=
  match es with
  | [] => []
  | (n, y) :: es' =>
      if String.eqb n name then (n, x) :: es'
      else (n, y) :: update_entry name x es'
  end.

(** Walk down the tree. *)
Fixpoint find (n : node) (comps : list string) : sum errno node :=
  match comps with
  | [] => inr n
  | c :: comps' =>
      match n with
      | File => inl ENOTDIR
      | Dir es =>
          match lookup_entry c es with
          | None => inl ENOENT
          | Some x => find x comps'
          end
      end
  end.

(** The walk of the kernel along the components of a path, from the
    components [acc] reached so far: [..] steps back from a directory that
    is there, and fails where there is a regular file or nothing. *)
Fixpoint walk (tree : node) (acc comps : list string)
  : sum errno (list string) :=
  match comps with
  | [] => inr acc
  | c :: comps' =>
      if String.eqb c ".." then
        match find tree acc with
        | inl e => inl e
        | inr File => inl ENOTDIR
        | inr (Dir _) => walk tree (removelast acc) comps'
        end
      else walk tree (acc ++ [c]) comps'
  end.

(** The components from [/] that a path string names. *)
Definition resolve (fs : t) (path : string) : sum errno (list string) :=
  let p := pathlib.Path path in
  walk (tree fs) (if truthy (pathlib.root p) then [] else cwd fs)
    (pathlib.parts p).

(** [stat(path)]: the node a path names. The empty path names nothing. *)
Definition stat (fs : t) (path : string) : sum errno node :=
  if truthy path then
    match resolve fs path with
    | inl e => inl e
    | inr comps => find (tree fs) comps
    end
  else inl ENOENT.

(** [mkdir(2)] under node [n]: the new tree, or the error. *)
Fixpoint mkdir_at (n : node) (comps : list string) : sum errno node :=
  match n with
  | File => match comps with [] => inl EEXIST | _ => inl ENOTDIR end
  | Dir es =>
      match comps with
      | [] => inl EEXIST
      | [c] =>
          match lookup_entry c es with
          | Some _ => inl EEXIST
          | None => inr (Dir (es ++ [(c, Dir [])]))
          end
      | c :: comps' =>
          match lookup_entry c es with
          | None => inl ENOENT
          | Some x =>
              match mkdir_at x comps' with
              | inl e => inl e
              | inr x' => inr (Dir (update_entry c x' es))
              end
          end
      end
  end.

(** [os.mkdir(path)]. *)
Definition mkdir (fs : t) (path : string) : sum errno t :=
  if truthy path then
    match resolve fs path with
    | inl e => inl e
    | inr comps =>
        match mkdir_at (tree fs) comps with
        | inl e => inl e
        | inr n =>
            inr {| tree := n; cwd := cwd fs; scan_key := scan_key fs |}
        end
    end
  else inl ENOENT.

(** The names [l] in the order of their keys. *)
Fixpoint insert_by (key : string -> nat) (x : string) (l : list string)
  : list string :=
  match l with
  | [] => [x]
  | y :: l' =>
      if (key x <=? key y)%nat then x :: l else y :: insert_by key x l'
  end.

Definition sort_by (key : string -> nat) (l : list string) : list string :=
  fold_right (insert_by key) [] l.

(** [os.scandir(path)]: the names of the entries of a directory. *)
Definition scandir (fs : t) (path : string) : sum errno (list string) :=
  match stat fs path with
  | inl e => inl e
  | inr File => inl ENOTDIR
  | inr (Dir es) => inr (sort_by (scan_key fs) (List.map fst es))
  end.

(** [open(path, O_WRONLY | O_CREAT | O_TRUNC)] under node [n]. *)
Fixpoint create_at (n : node) (comps : list string) : sum errno node :=
  match n with
  | File => match comps with [] => inr File | _ => inl ENOTDIR end
  | Dir es =>
      match comps with
      | [] => inl EISDIR
      | [c] =>
          match lookup_entry c es with
          | Some (Dir _) => inl EISDIR
          | Some File => inr (Dir es)
          | None => inr (Dir (es ++ [(c, File)]))
          end
      | c :: comps' =>
          match lookup_entry c es with
          | None => inl ENOENT
          | Some x =>
              match create_at x comps' with
              | inl e => inl e
              | inr x' => inr (Dir (update_entry c x' es))
              end
          end
      end
  end.

Definition create (fs : t) (path : string) : sum errno t :=
  if truthy path then
    match resolve fs path with
    | inl e => inl e
    | inr comps =>
        match create_at (tree fs) comps with
        | inl e => inl e
        | inr n =>
            inr {| tree := n; cwd := cwd fs; scan_key := scan_key fs |}
        end
    end
  else inl ENOENT.

(** [os.path.isdir(path)] and [os.path.exists(path)]. *)
Definition isdir (fs : t) (path : string) : bool :=
  match stat fs path with inr (Dir _) => true | _ => false end.

Definition exists_ (fs : t) (path : string) : bool :=
  match stat fs path with inr _ => true | inl _ => false end.

End FS.

(* ===================================================================== *)
(** * Computations on the file system *)
(* ===================================================================== *)

(** A call into [os] or [pathlib]: it reads and writes the file system, and
    returns or raises. *)
Definition IO (A : Type) : Type := FS.t -> FS.t * result A.

Module io.

Definition ret {A} (a : A) : IO A := fun f => (f, Ok a).

Definition raise {A} (e : exn) : IO A := fun f => (f, Raise e).

Definition bind {A B} (m : IO A) (k : A -> IO B) : IO B :=
  fun f =>
    match m f with
    | (f', inr a) => k a f'
    | (f', inl e) => (f', Raise e)
    end.

(** [try: m except Exception as e: h e]. *)
Definition try_except {A} (m : IO A) (h : exn -> IO A) : IO A :=
  fun f =>
    match m f with
    | (f', inl e) => h e f'
    | r => r
    end.

Definition get : IO FS.t := fun f => (f, Ok f).

Definition put (f' : FS.t) : IO unit := fun _ => (f', Ok tt).

End io.

Declare Scope io_scope.
Delimit Scope io_scope with io.
Notation "'let*' x ':=' m 'in' k" := (io.bind m (fun x => k))
  (at level 10, x name, m at level 100, k at level 200) : io_scope.
Notation "m ';;' k" := (io.bind m (fun _ => k))
  (at level 100, k at level 200, right associativity) : io_scope.

Module os.

Local Open Scope io_scope.

(** [os.mkdir(path)]. *)
Definition mkdir (path : string) : IO unit :=
  let* f := io.get in
  match FS.mkdir f path with
  | inl e => io.raise (OSError e path)
  | inr f' => io.put f'
  end.

Definition path_exists (path : string) : IO bool :=
  let* f := io.get in io.ret (FS.exists_ f path).

Definition path_isdir (path : string) : IO bool :=
  let* f := io.get in io.ret (FS.isdir f path).

(** The handler of [os.makedirs] and [Path.mkdir] for an [OSError] of
    [mkdir]: raise again unless [exist_ok] and the path is a directory. *)
Definition unless_isdir (path : string) (exist_ok : bool) (e : exn)
  : IO unit :=
  match e with
  | OSError _ _ =>
      let* d := path_isdir path in
      if negb exist_ok || negb d then io.raise e else io.ret tt
  | _ => io.raise e
  end.

(** [os.makedirs(name, exist_ok=exist_ok)]. The recursion is on the head
    of [name], which gets shorter: [fuel] bounds its depth. *)
Fixpoint makedirs_go (fuel : nat) (name : string) (exist_ok : bool)
  : IO unit :=
  let '(head, tail) := posixpath.split name in
  let '(head, tail) :=
    if negb (Str.truthy tail) then posixpath.split head else (head, tail) in
  let* ex := path_exists head in
  if Str.truthy head && Str.truthy tail && negb ex then
    match fuel with
    | O => io.raise (LibraryError "RecursionError"
                       "maximum recursion depth exceeded")
    | S fuel' =>
        io.try_except (makedirs_go fuel' head exist_ok)
          (fun e => match e with
                    | OSError EEXIST _ => io.ret tt
                    | _ => io.raise e
                    end);;
        if String.eqb tail "." then io.ret tt
        else io.try_except (mkdir name) (unless_isdir name exist_ok)
    end
  else io.try_except (mkdir name) (unless_isdir name exist_ok).

Definition makedirs (name : string) (exist_ok : bool) : IO unit :=
  makedirs_go (String.length name) name exist_ok.

End os.

Module Path.

Import pathlib.
Local Open Scope io_scope.

(** [p.is_dir()]. *)
Definition is_dir (p : PurePath) : IO bool := os.path_isdir (str p).

(** [p.mkdir(parents=False, exist_ok=exist_ok)]. *)
Definition mkdir_plain (p : PurePath) (exist_ok : bool) : IO unit :=
  io.try_except (os.mkdir (str p))
    (fun e => match e with
              | OSError ENOENT _ => io.raise e
              | _ => os.unless_isdir (str p) exist_ok e
              end).

(** [p.mkdir(parents=True, exist_ok=exist_ok)] for the path with root [r]
    and parts [rev rparts]: the recursion is on the parent. *)
Fixpoint mkdir_parents (r : string) (rparts : list string) (exist_ok : bool)
  : IO unit :=
  let p := {| root := r; parts := rev rparts |} in
  io.try_except (os.mkdir (str p))
    (fun e => match e with
              | OSError ENOENT _ =>
                  match rparts with
                  | [] => io.raise e
                  | _ :: rparents =>
                      mkdir_parents r rparents true;;
                      mkdir_plain p exist_ok
                  end
              | _ => os.unless_isdir (str p) exist_ok e
              end).

(** [p.mkdir(parents=parents, exist_ok=exist_ok)]. *)
Definition mkdir (p : PurePath) (parents exist_ok : bool) : IO unit :=
  if parents then mkdir_parents (root p) (rev (parts p)) exist_ok
  else mkdir_plain p exist_ok.

(** The entries of directory [p] whose names match [pattern], in the order
    of the scan; none when [p] is not a directory. *)
Definition matches (f : FS.t) (p : PurePath) (pattern : string)
  : list PurePath :=
  if FS.isdir f (str p) then
    match FS.scandir f (str p) with
    | inl _ => []
    | inr names =>
        List.map (make_child_relpath p)
          (List.filter (Str.fnmatch pattern) names)
    end
  else [].

(** [list(p.glob(pattern))] for a pattern of one component. *)
Definition glob (p : PurePath) (pattern : string) : IO (list PurePath) :=
  let* f := io.get in io.ret (matches f p pattern).

End Path.

(* ===================================================================== *)
(** * The signals and logs of a job *)
(* ===================================================================== *)

(** The two signals of [ConversionThread]. *)
Inductive event :=
| progress_updated (percent : Z) (message : string)
| conversion_finished (success : bool) (message : string).

(** The array [raw.postprocess] returns: shape [(height, width, 3)], 16-bit
    samples, one [(r, g, b)] triple per pixel in row-major order. *)
Record ndarray := { height : nat; width : nat; pixels : list (Z * Z * Z) }.

(** What the encoder is given: the path, the header's [(width, height)] and
    the planes by channel name, each a row-major list of [float32] values. *)
Record exr_image := {
  exr_path : string;
  exr_header : nat * nat;
  exr_channels : gmap string (list Q)
}.

(** What a method leaves behind besides the file system: the signals it
    emitted, its calls of [rw2_to_exr] and the images it handed to the
    encoder, each in the order they happened. *)
Record log := {
  emitted : list event;
  converted : list (string * string);
  encoded : list exr_image
}.

Definition no_log : log := {| emitted := []; converted := []; encoded := [] |}.

Definition log_app (a b : log) : log :=
  {| emitted := emitted a ++ emitted b;
     converted := converted a ++ converted b;
     encoded := encoded a ++ encoded b |}.

(** A method of [ConversionThread]: a computation on the file system that
    also writes to the log. *)
Definition M (A : Type) : Type := FS.t -> FS.t * log * result A.

Definition ret {A} (a : A) : M A := fun f => (f, no_log, Ok a).

Definition raise {A} (e : exn) : M A := fun f => (f, no_log, Raise e).

Definition bind {A B} (m : M A) (k : A -> M B) : M B :=
  fun f =>
    match m f with
    | (f1, l1, inr a) => let '(f2, l2, r) := k a f1 in (f2, log_app l1 l2, r)
    | (f1, l1, inl e) => (f1, l1, Raise e)
    end.

(** [try: m except Exception as e: h e]. *)
Definition try_except {A} (m : M A) (h : exn -> M A) : M A :=
  fun f =>
    match m f with
    | (f1, l1, inl e) => let '(f2, l2, r) := h e f1 in (f2, log_app l1 l2, r)
    | r => r
    end.

(** A call into [os] or [pathlib] from a method. *)
Definition lift {A} (m : IO A) : M A :=
  fun f => let '(f', r) := m f in (f', no_log, r).

(** [signal.emit(...)]. *)
Definition emit (ev : event) : M unit :=
  fun f => (f, {| emitted := [ev]; converted := []; encoded := [] |}, Ok tt).

Definition log_converted (input output : string) : M unit :=
  fun f =>
    (f, {| emitted := []; converted := [(input, output)]; encoded := [] |},
     Ok tt).

Definition log_encoded (img : exr_image) : M unit :=
  fun f => (f, {| emitted := []; converted := []; encoded := [img] |}, Ok tt).

Declare Scope py_scope.
Delimit Scope py_scope with py.
Notation "'let!' x ':=' m 'in' k" := (bind m (fun x => k))
  (at level 10, x name, m at level 100, k at level 200) : py_scope.
Notation "m ';;' k" := (bind m (fun _ => k))
  (at level 100, k at level 200, right associativity) : py_scope.

Local Open Scope py_scope.

(* ===================================================================== *)
(** * [ConversionThread] *)
(* ===================================================================== *)

(** The fields [__init__] sets. [cancel_requested] is written by the
    caller's thread while the job runs: it is a parameter of the section
    below. *)
Record ConversionThread := {
  input_path : string;
  output_path : string;
  is_batch : bool
}.

(** [int((i+1)/total_files*100)]. *)
Definition percent (i total_files : Z) : Z :=
  IEEE.int_of_float
    (IEEE.float_mul_int (IEEE.int_truediv (i + 1) total_files) 100).

(** [rgb.astype(np.float32) / 65535.0], one sample. *)
Definition normalize (s : Z) : Q :=
  IEEE.float32_div (IEEE.float32_of_int s) 65535.

(** [rgb_float[:,:,c]] for [c] in 0, 1, 2: one plane of the normalized
    array, row-major. *)
Definition channel (c : nat) (px : Z * Z * Z) : Z :=
  match c, px with
  | O, (r, _, _) => r
  | S O, (_, g, _) => g
  | _, (_, _, b) => b
  end.

Definition plane (rgb : ndarray) (c : nat) : list Q :=
  List.map (fun px => normalize (channel c px)) (pixels rgb).

Definition channels (rgb : ndarray) : gmap string (list Q) :=
  <["R" := plane rgb 0]> (<["G" := plane rgb 1]> (<["B" := plane rgb 2]> ∅)).

Module ConversionThread.

Section Methods.

(** [rawpy.imread(path)] followed by [raw.postprocess(gamma=(1,1),
    no_auto_bright=True, output_bps=16, output_color=ColorSpace.raw)]. *)
Variable rawpy_postprocess : FS.t -> string -> result ndarray.

(** [OpenEXR.OutputFile(path, header)], [writePixels(channels)] and
    [close()]: the file system they leave, and what they raise if they do. *)
Variable OpenEXR_write : FS.t -> exr_image -> FS.t * option exn.

(** [self.cancel_requested] as iteration [i] of the batch loop reads it. *)
Variable cancel_requested : nat -> bool.

Definition decode (path : string) : IO ndarray :=
  fun f => (f, rawpy_postprocess f path).

Definition encode (img : exr_image) : IO unit :=
  fun f =>
    match OpenEXR_write f img with
    | (f', Some e) => (f', Raise e)
    | (f', None) => (f', Ok tt)
    end.

Definition rw2_to_exr (input_path output_path : string) : M unit :=
  log_converted input_path output_path;;
  try_except
    (let! rgb := lift (decode input_path) in
     let header := (width rgb, height rgb) in
     let img := {| exr_path := output_path; exr_header := header;
                   exr_channels := channels rgb |} in
     lift (os.makedirs (posixpath.dirname output_path) true);;
     log_encoded img;;
     lift (encode img))
    (fun e =>
       raise (Exception ("Failed to convert "
                         +:+ pathlib.name (pathlib.Path input_path)
                         +:+ ": " +:+ str_exn e))).

(** The output path [convert_single] settles on. *)
Definition resolve_output (self : ConversionThread) : M pathlib.PurePath :=
  let input_file := pathlib.Path (input_path self) in
  if negb (Str.truthy (output_path self)) then
    match pathlib.with_suffix input_file ".exr" with
    | inl e => raise e
    | inr output_file => ret output_file
    end
  else
    let output_path := pathlib.Path (output_path self) in
    let! d := lift (Path.is_dir output_path) in
    if d then ret (output_path /: (pathlib.stem input_file +:+ ".exr"))
    else ret output_path.

Definition convert_single (self : ConversionThread) : M unit :=
  let input_file := pathlib.Path (input_path self) in
  let! output_file := resolve_output self in
  emit (progress_updated 0
          ("Converting " +:+ pathlib.name input_file +:+ "..."));;
  try_except
    (rw2_to_exr (pathlib.str input_file) (pathlib.str output_file);;
     emit (progress_updated 100
             ("Successfully converted to " +:+ pathlib.str output_file)))
    (fun e =>
       emit (progress_updated 0 ("Error: " +:+ str_exn e));;
       raise e).

(** The message of the progress signal of unit [i] of [total_files]. *)
Definition converting (i total_files : nat) (input_file : pathlib.PurePath)
  : string :=
  "Converting " +:+ Str.of_int (Z.of_nat i + 1) +:+ "/"
  +:+ Str.of_int (Z.of_nat total_files) +:+ ": " +:+ pathlib.name input_file.

(** The output file of a unit of a batch. *)
Definition output_file_of (output_dir input_file : pathlib.PurePath)
  : pathlib.PurePath :=
  output_dir /: (pathlib.stem input_file +:+ ".exr").

(** [for i, input_file in enumerate(rw2_files): ...], from index [i] on. *)
Fixpoint batch_loop (output_dir : pathlib.PurePath) (total_files : nat)
    (i : nat) (rw2_files : list pathlib.PurePath) : M unit :=
  match rw2_files with
  | [] => ret tt
  | input_file :: rest =>
      if cancel_requested i then ret tt
      else
        let output_file := output_file_of output_dir input_file in
        emit (progress_updated
                (percent (Z.of_nat i) (Z.of_nat total_files))
                (converting i total_files input_file));;
        rw2_to_exr (pathlib.str input_file) (pathlib.str output_file);;
        batch_loop output_dir total_files (S i) rest
  end.

Definition output_dir_of (self : ConversionThread) : pathlib.PurePath :=
  if Str.truthy (output_path self) then pathlib.Path (output_path self)
  else pathlib.Path (input_path self).

(** [list(input_dir.glob('*.RW2')) + list(input_dir.glob('*.rw2'))]. *)
Definition discover (input_dir : pathlib.PurePath)
  : IO (list pathlib.PurePath) :=
  (let* upper := Path.glob input_dir "*.RW2" in
   let* lower := Path.glob input_dir "*.rw2" in
   io.ret (upper ++ lower))%io.

Definition batch_convert (self : ConversionThread) : M unit :=
  let input_dir := pathlib.Path (input_path self) in
  let output_dir := output_dir_of self in
  lift (Path.mkdir output_dir true true);;
  let! rw2_files := lift (discover input_dir) in
  match rw2_files with
  | [] =>
      raise (ValueError ("No RW2 files found in " +:+ pathlib.str input_dir))
  | _ =>
      let total_files := length rw2_files in
      batch_loop output_dir total_files 0 rw2_files
  end.

Definition run (self : ConversionThread) : M unit :=
  try_except
    ((if is_batch self then batch_convert self else convert_single self);;
     emit (conversion_finished true "Conversion completed successfully!"))
    (fun e => emit (conversion_finished false ("Error: " +:+ str_exn e))).

End Methods.

End ConversionThread.

(* ===================================================================== *)
(** * Properties of the arithmetic *)
(* ===================================================================== *)

Module Arith.

Import IEEE.
Local Open Scope Q_scope.

Lemma prec32 : (0 < prec binary32)%Z.
Proof. reflexivity. Qed.

Lemma prec64 : (0 < prec binary64)%Z.
Proof. reflexivity. Qed.

Lemma Qtrunc_nonneg (x : Q) : 0 <= x -> Qtrunc x = Qfloor x.
Proof.
  intros H. unfold Qtrunc.
  destruct (Qle_bool 0 x) eqn:E; [reflexivity |].
  apply Qle_bool_iff in H. congruence.
Qed.

(** Integers below [2^prec] are values of the format. *)
Lemma round_int (f : format) (s : Z) :
  (0 < prec f)%Z -> (emin f <= 0)%Z -> (0 <= s < 2 ^ prec f)%Z ->
  round f (inject_Z s) == inject_Z s.
Proof.
  intros Hp He [Hs0 Hs].
  destruct (Z.eq_dec s 0%Z) as [-> | Hne]; [apply round_0; reflexivity |].
  assert (Hpos : 0 < inject_Z s).
  { change 0 with (inject_Z 0). rewrite <- Zlt_Qlt. lia. }
  destruct (mag_spec _ Hpos) as [Lm _].
  assert (Hm : (mag (inject_Z s) <= prec f)%Z).
  { destruct (Z_le_gt_dec (mag (inject_Z s)) (prec f)) as [H | H];
      [assumption | exfalso].
    pose proof (pow2_le (prec f) (mag (inject_Z s) - 1) ltac:(lia)) as Hc.
    rewrite Zlt_Qlt in Hs. rewrite <- pow2_Z in Hs by lia. lra. }
  unfold round.
  assert (Hexp : (fexp f (inject_Z s) <= 0)%Z) by (unfold fexp; lia).
  set (e := fexp f (inject_Z s)) in *.
  assert (Hsc : inject_Z s / 2 ^ e == inject_Z (s * 2 ^ (- e))).
  { rewrite inject_Z_mult. rewrite <- pow2_Z by lia.
    rewrite Qpower_opp. reflexivity. }
  rewrite (rint_comp _ _ Hsc), rint_Z.
  rewrite inject_Z_mult. rewrite <- pow2_Z by lia.
  rewrite <- Qmult_assoc, <- pow2_add.
  replace (- e + e)%Z with 0%Z by lia. change (2 ^ 0) with 1. ring.
Qed.

(** ** The normalization of a sample *)

Lemma float32_of_sample (s : Z) :
  (0 <= s <= 65535)%Z -> float32_of_int s == inject_Z s.
Proof.
  intros H. apply round_int; [reflexivity | discriminate |].
  change (2 ^ prec binary32)%Z with 16777216%Z. lia.
Qed.

Lemma round32_1 : round binary32 1 == 1.
Proof. vm_compute. reflexivity. Qed.

Lemma normalize_eq (s : Z) :
  (0 <= s <= 65535)%Z ->
  normalize s == round binary32 (inject_Z s / inject_Z 65535).
Proof.
  intros H. unfold normalize, float32_div.
  apply round_comp; [apply prec32 | |].
  - apply Qle_shift_div_l; [reflexivity |].
    rewrite Qmult_0_l. apply round_nonneg.
    change 0 with (inject_Z 0). rewrite <- Zle_Qle. lia.
  - rewrite (float32_of_sample s H). reflexivity.
Qed.

Lemma normalize_range (s : Z) :
  (0 <= s <= 65535)%Z -> 0 <= normalize s /\ normalize s <= 1.
Proof.
  intros H. rewrite (normalize_eq s H).
  assert (H0 : 0 <= inject_Z s / inject_Z 65535).
  { apply Qle_shift_div_l; [reflexivity |]. rewrite Qmult_0_l.
    change 0 with (inject_Z 0). rewrite <- Zle_Qle. lia. }
  split; [apply round_nonneg; assumption |].
  rewrite <- round32_1. apply round_mono; [apply prec32 | assumption |].
  apply Qle_shift_div_r; [reflexivity |]. rewrite Qmult_1_l.
  rewrite <- Zle_Qle. lia.
Qed.

(** ** The percentage of a progress signal *)

Lemma round64_1 : round binary64 1 == 1.
Proof. vm_compute. reflexivity. Qed.

Lemma round64_100 : round binary64 100 == 100.
Proof. vm_compute. reflexivity. Qed.

Lemma ratio_nonneg (k n : Z) :
  (0 <= k)%Z -> (0 < n)%Z -> 0 <= inject_Z k / inject_Z n.
Proof.
  intros Hk Hn. apply Qle_shift_div_l.
  - change 0 with (inject_Z 0). rewrite <- Zlt_Qlt. assumption.
  - rewrite Qmult_0_l. change 0 with (inject_Z 0). rewrite <- Zle_Qle.
    assumption.
Qed.

Lemma ratio_mono (j k n : Z) :
  (j <= k)%Z -> (0 < n)%Z -> inject_Z j / inject_Z n <= inject_Z k / inject_Z n.
Proof.
  intros Hjk Hn. apply Qmult_le_compat_r.
  - rewrite <- Zle_Qle. assumption.
  - apply Qlt_le_weak, Qinv_lt_0_compat.
    change 0 with (inject_Z 0). rewrite <- Zlt_Qlt. assumption.
Qed.

(** The float the percentage is truncated from. *)
Definition scaled (i n : Z) : Q := float_mul_int (int_truediv (i + 1) n) 100.

Lemma scaled_nonneg (i n : Z) : (0 <= i)%Z -> (0 < n)%Z -> 0 <= scaled i n.
Proof.
  intros Hi Hn. unfold scaled, float_mul_int, int_truediv.
  apply round_nonneg. apply Qmult_le_0_compat; [| discriminate].
  apply round_nonneg, ratio_nonneg; lia.
Qed.

Lemma scaled_mono (i j n : Z) :
  (0 <= i <= j)%Z -> (0 < n)%Z -> scaled i n <= scaled j n.
Proof.
  intros Hij Hn. unfold scaled, float_mul_int, int_truediv.
  apply round_mono; [apply prec64 | |].
  - apply Qmult_le_0_compat; [| discriminate].
    apply round_nonneg, ratio_nonneg; lia.
  - apply Qmult_le_compat_r; [| discriminate].
    apply round_mono; [apply prec64 | apply ratio_nonneg; lia |].
    apply ratio_mono; lia.
Qed.

Lemma scaled_last (n : Z) : (0 < n)%Z -> scaled (n - 1) n == 100.
Proof.
  intros Hn. unfold scaled, float_mul_int, int_truediv.
  replace (n - 1 + 1)%Z with n by lia.
  assert (E1 : inject_Z n / inject_Z n == 1).
  { apply Qmult_inv_r. intros C. unfold Qeq in C. simpl in C. lia. }
  assert (E2 : round binary64 (inject_Z n / inject_Z n) == 1).
  { rewrite (round_comp binary64 _ 1 prec64 (ratio_nonneg n n ltac:(lia) Hn) E1).
    apply round64_1. }
  assert (E3 : round binary64 (inject_Z n / inject_Z n) * inject_Z 100 == 100).
  { rewrite E2. reflexivity. }
  assert (N3 : 0 <= round binary64 (inject_Z n / inject_Z n) * inject_Z 100).
  { rewrite E3. discriminate. }
  rewrite (round_comp binary64 _ 100 prec64 N3 E3). apply round64_100.
Qed.

Lemma percent_floor (i n : Z) :
  (0 <= i)%Z -> (0 < n)%Z -> percent i n = Qfloor (scaled i n).
Proof.
  intros Hi Hn. unfold percent, int_of_float. fold (scaled i n).
  apply Qtrunc_nonneg, scaled_nonneg; assumption.
Qed.

Lemma percent_mono (i j n : Z) :
  (0 <= i <= j)%Z -> (0 < n)%Z -> (percent i n <= percent j n)%Z.
Proof.
  intros Hij Hn. rewrite !percent_floor by lia.
  apply Qfloor_resp_le, scaled_mono; assumption.
Qed.

Lemma percent_last (n : Z) : (0 < n)%Z -> percent (n - 1) n = 100%Z.
Proof.
  intros Hn. rewrite percent_floor by lia.
  rewrite (Qfloor_comp _ _ (scaled_last n Hn)). reflexivity.
Qed.

Lemma percent_range (i n : Z) :
  (0 <= i < n)%Z -> (0 <= percent i n <= 100)%Z.
Proof.
  intros Hi. split.
  - rewrite percent_floor by lia.
    change 0%Z with (Qfloor 0). apply Qfloor_resp_le, scaled_nonneg; lia.
  - rewrite <- (percent_last n) by lia. apply percent_mono; lia.
Qed.

End Arith.

(* ===================================================================== *)
(** * Properties of the file system *)
(* ===================================================================== *)

Module FSFacts.

Import FS.

Lemma lookup_entry_app (c : string) (es es' : list (string * node)) :
  lookup_entry c (es ++ es') =
  match lookup_entry c es with
  | Some x => Some x
  | None => lookup_entry c es'
  end.
Proof.
  induction es as [| [n x] es IH]; simpl; [reflexivity |].
  destruct (String.eqb n c); [reflexivity | exact IH].
Qed.

Lemma lookup_update_entry (c : string) (x y : node)
    (es : list (string * node)) :
  lookup_entry c es = Some y -> lookup_entry c (update_entry c x es) = Some x.
Proof.
  induction es as [| [n z] es IH]; simpl; [discriminate |].
  destruct (String.eqb n c) eqn:E; simpl; rewrite E; [reflexivity | exact IH].
Qed.

Lemma mkdir_at_step (es : list (string * node)) (c c2 : string)
    (rest : list string) :
  mkdir_at (Dir es) (c :: c2 :: rest) =
  match lookup_entry c es with
  | None => inl ENOENT
  | Some x =>
      match mkdir_at x (c2 :: rest) with
      | inl e => inl e
      | inr x' => inr (Dir (update_entry c x' es))
      end
  end.
Proof. reflexivity. Qed.

(** A directory that [mkdir] made is there, and empty. *)
Lemma mkdir_at_find (comps : list string) :
  forall n n', mkdir_at n comps = inr n' -> find n' comps = inr (Dir []).
Proof.
  induction comps as [| c comps IH]; intros n n' H.
  - destruct n; discriminate.
  - destruct n as [| es]; [discriminate |].
    destruct comps as [| c2 rest].
    + simpl in H. destruct (lookup_entry c es) eqn:L; [discriminate |].
      injection H as <-. simpl. rewrite lookup_entry_app, L. simpl.
      rewrite String.eqb_refl. reflexivity.
    + rewrite mkdir_at_step in H.
      destruct (lookup_entry c es) as [x |] eqn:L; [| discriminate].
      destruct (mkdir_at x (c2 :: rest)) as [e | x'] eqn:R; [discriminate |].
      injection H as <-. cbn [find].
      rewrite (lookup_update_entry c x' x es L). apply (IH x x' R).
Qed.

(** A scan lists the names of the entries of the directory, all of them
    and no other, in the order of the file system. *)
Lemma insert_by_In (key : string -> nat) (x y : string) (l : list string) :
  In x (insert_by key y l) <-> x = y \/ In x l.
Proof.
  induction l as [| z l IH]; simpl.
  - intuition.
  - destruct (key y <=? key z)%nat; simpl; [intuition |].
    rewrite IH. intuition.
Qed.

Lemma sort_by_In (key : string -> nat) (x : string) (l : list string) :
  In x (sort_by key l) <-> In x l.
Proof.
  induction l as [| y l IH]; simpl; [reflexivity |].
  rewrite insert_by_In, IH. intuition.
Qed.

Lemma scandir_entries (f : t) (path : string) (names : list string) :
  scandir f path = inr names ->
  exists es,
    stat f path = inr (Dir es)
    /\ length names = length es
    /\ forall x, In x names <-> In x (List.map fst es).
Proof.
  unfold scandir. destruct (stat f path) as [e | [| es]]; try discriminate.
  intros [= <-]. exists es. split; [reflexivity |]. split.
  - rewrite <- (length_map fst es).
    induction (List.map fst es) as [| y l IH]; [reflexivity |].
    simpl. fold (sort_by (scan_key f) l).
    assert (L : forall k, length (insert_by (scan_key f) y k) = S (length k)).
    { induction k as [| z k IHk]; simpl; [reflexivity |].
      destruct (_ <=? _)%nat; simpl; [reflexivity | rewrite IHk; reflexivity]. }
    rewrite L, IH. reflexivity.
  - intros x. apply sort_by_In.
Qed.

(** The kind of a node. *)
Definition is_dir_node (n : node) : bool :=
  match n with Dir _ => true | File => false end.

(** Every path that names a node under [n] names a node of the same kind
    under [n']. *)
Definition node_keeps (n n' : node) : Prop :=
  forall q x, find n q = inr x ->
    exists x', find n' q = inr x' /\ is_dir_node x' = is_dir_node x.

Lemma lookup_update_other (c c' : string) (x : node)
    (es : list (string * node)) :
  c' <> c -> lookup_entry c' (update_entry c x es) = lookup_entry c' es.
Proof.
  intros N. induction es as [| [n z] es IH]; simpl; [reflexivity |].
  destruct (String.eqb_spec n c) as [-> | Nc]; simpl.
  - destruct (String.eqb_spec c c'); [congruence | reflexivity].
  - destruct (String.eqb n c'); [reflexivity | exact IH].
Qed.

Lemma mkdir_at_keeps (comps : list string) :
  forall n n', mkdir_at n comps = inr n' -> node_keeps n n'.
Proof.
  induction comps as [| c comps IH]; intros n n' H.
  { destruct n; discriminate. }
  destruct n as [| es]; [discriminate |].
  destruct comps as [| c2 rest].
  - simpl in H. destruct (lookup_entry c es) eqn:L; [discriminate |].
    injection H as <-. intros [| c' q] x Hq.
    + injection Hq as <-. eexists. split; reflexivity.
    + cbn [find] in Hq |- *. rewrite lookup_entry_app.
      destruct (lookup_entry c' es) as [y |]; [| discriminate].
      exists x. auto.
  - rewrite mkdir_at_step in H.
    destruct (lookup_entry c es) as [z |] eqn:L; [| discriminate].
    destruct (mkdir_at z (c2 :: rest)) as [e | z'] eqn:R; [discriminate |].
    injection H as <-. intros [| c' q] x Hq.
    + injection Hq as <-. eexists. split; reflexivity.
    + cbn [find] in Hq |- *.
      destruct (String.eqb_spec c' c) as [-> | N].
      * rewrite (lookup_update_entry c z' z es L).
        rewrite L in Hq. apply (IH z z' R q x Hq).
      * rewrite (lookup_update_other c c' z' es N).
        destruct (lookup_entry c' es) as [y |]; [| discriminate].
        exists x. auto.
Qed.

(** A walk that succeeds succeeds the same way in a tree that keeps what
    was there. *)
Lemma walk_keeps (n n' : node) :
  node_keeps n n' ->
  forall comps acc cs, walk n acc comps = inr cs -> walk n' acc comps = inr cs.
Proof.
  intros K. induction comps as [| c comps IH]; intros acc cs H;
    [exact H |].
  cbn [walk] in H |- *. destruct (String.eqb c "..").
  - destruct (find n acc) as [e | [| es]] eqn:F; try discriminate.
    destruct (K acc (Dir es) F) as (x' & -> & Kind).
    destruct x'; [discriminate |]. apply IH. exact H.
  - apply IH. exact H.
Qed.

Lemma mkdir_isdir (f f' : t) (path : string) :
  mkdir f path = inr f' -> isdir f' path = true.
Proof.
  unfold mkdir, isdir, stat, resolve.
  destruct (Str.truthy path); [| discriminate].
  destruct (walk (tree f) _ _) as [e | cs] eqn:W; [discriminate |].
  destruct (mkdir_at _ _) as [e | n'] eqn:R; [discriminate |].
  intros H. injection H as <-. cbn [tree cwd].
  rewrite (walk_keeps _ _ (mkdir_at_keeps _ _ _ R) _ _ _ W).
  rewrite (mkdir_at_find _ _ _ R). reflexivity.
Qed.

End FSFacts.

(* ===================================================================== *)
(** * Properties of a job *)
(* ===================================================================== *)

Import ConversionThread.

(** What a method that ran left behind. *)
Definition signals {A} (r : FS.t * log * result A) : list event :=
  emitted (snd (fst r)).

Definition calls {A} (r : FS.t * log * result A) : list (string * string) :=
  converted (snd (fst r)).

Definition final_fs {A} (r : FS.t * log * result A) : FS.t := fst (fst r).

Definition is_progress (ev : event) : Prop :=
  match ev with
  | progress_updated _ _ => True
  | conversion_finished _ _ => False
  end.

(** The progress signals of the units [files], the first of which has
    index [i] among [total]. *)
Fixpoint progress_signals (total i : nat) (files : list pathlib.PurePath)
  : list event :=
  match files with
  | [] => []
  | x :: rest =>
      progress_updated (percent (Z.of_nat i) (Z.of_nat total))
        (converting i total x)
      :: progress_signals total (S i) rest
  end.

(** The call of [rw2_to_exr] for a unit of a batch. *)
Definition unit_call (output_dir x : pathlib.PurePath) : string * string :=
  (pathlib.str x, pathlib.str (output_file_of output_dir x)).

(** The files a batch finds in its input directory. *)
Definition rw2_files (f : FS.t) (input_dir : pathlib.PurePath)
  : list pathlib.PurePath :=
  Path.matches f input_dir "*.RW2" ++ Path.matches f input_dir "*.rw2".

(** The message of the exception [rw2_to_exr] raises. *)
Definition failed_to_convert (input_path reason : string) : string :=
  "Failed to convert " +:+ pathlib.name (pathlib.Path input_path)
  +:+ ": " +:+ reason.

Definition completed : event :=
  conversion_finished true "Conversion completed successfully!".

Definition failed (e : exn) : event :=
  conversion_finished false ("Error: " +:+ str_exn e).

Section Jobs.

Variable rawpy_postprocess : FS.t -> string -> result ndarray.
Variable OpenEXR_write : FS.t -> exr_image -> FS.t * option exn.
Variable cancel_requested : nat -> bool.

Local Abbreviation rw2_to_exr :=
  (ConversionThread.rw2_to_exr rawpy_postprocess OpenEXR_write).
Local Abbreviation convert_single :=
  (ConversionThread.convert_single rawpy_postprocess OpenEXR_write).
Local Abbreviation batch_loop :=
  (ConversionThread.batch_loop rawpy_postprocess OpenEXR_write
     cancel_requested).
Local Abbreviation batch_convert :=
  (ConversionThread.batch_convert rawpy_postprocess OpenEXR_write
     cancel_requested).
Local Abbreviation run :=
  (ConversionThread.run rawpy_postprocess OpenEXR_write cancel_requested).

Local Open Scope nat_scope.

(** What [rw2_to_exr] returns for each unit of a batch, when the units are
    converted one after the other from the file system [f]. *)
Fixpoint outcomes (f : FS.t) (output_dir : pathlib.PurePath)
    (files : list pathlib.PurePath) : list (result unit) :=
  match files with
  | [] => []
  | x :: rest =>
      let '(f', _, r) :=
        rw2_to_exr (pathlib.str x)
          (pathlib.str (output_file_of output_dir x)) f in
      r :: outcomes f' output_dir rest
  end.

(** [rw2_to_exr] emits no signal, logs its call, and raises nothing but
    its own exception, which names the input file. *)
Lemma rw2_to_exr_spec (input output : string) (f : FS.t) :
  exists f' enc r,
    rw2_to_exr input output f =
      (f', {| emitted := []; converted := [(input, output)];
              encoded := enc |}, r)
    /\ forall e, r = inl e ->
         exists cause, e = Exception (failed_to_convert input (str_exn cause)).
Proof.
  unfold ConversionThread.rw2_to_exr, bind, try_except, lift, log_converted,
    log_encoded, decode, encode, raise, ret, log_app. cbn.
  destruct (rawpy_postprocess f input) as [e | rgb]; cbn.
  { do 3 eexists. split; [reflexivity |].
    intros e' [= <-]. exists e. reflexivity. }
  destruct (os.makedirs _ true f) as [f1 [e | []]]; cbn.
  { do 3 eexists. split; [reflexivity |].
    intros e' [= <-]. exists e. reflexivity. }
  destruct (OpenEXR_write f1 _) as [f2 [e |]]; cbn.
  { do 3 eexists. split; [reflexivity |].
    intros e' [= <-]. exists e. reflexivity. }
  do 3 eexists. split; [reflexivity | discriminate].
Qed.

Lemma log_app_nil_l (l : log) : log_app no_log l = l.
Proof. destruct l. reflexivity. Qed.

Lemma log_app_nil_r (l : log) : log_app l no_log = l.
Proof. destruct l. unfold log_app. cbn. rewrite !app_nil_r. reflexivity. Qed.

(** The log of a progress signal. *)
Definition progress_log (total i : nat) (x : pathlib.PurePath) : log :=
  {| emitted := [progress_updated (percent (Z.of_nat i) (Z.of_nat total))
                   (converting i total x)];
     converted := []; encoded := [] |}.

(** One iteration of the loop. *)
Lemma batch_loop_cons (out : pathlib.PurePath) (n i : nat)
    (x : pathlib.PurePath) (rest : list pathlib.PurePath) (f : FS.t) :
  batch_loop out n i (x :: rest) f =
  if cancel_requested i then (f, no_log, inr tt)
  else
    let '(f1, l1, r) :=
      rw2_to_exr (pathlib.str x) (pathlib.str (output_file_of out x)) f in
    match r with
    | inl e => (f1, log_app (progress_log n i x) l1, inl e)
    | inr _ =>
        let '(f2, l2, r2) := batch_loop out n (S i) rest f1 in
        (f2, log_app (progress_log n i x) (log_app l1 l2), r2)
    end.
Proof.
  cbn [ConversionThread.batch_loop]. destruct (cancel_requested i); [reflexivity |].
  unfold bind, emit.
  destruct (rw2_to_exr _ _ f) as [[f1 l1] [e | u]]; [reflexivity |].
  destruct (batch_loop out n (S i) rest f1) as [[f2 l2] r2]. reflexivity.
Qed.

(** The loop until it stops by itself: the first [k] units convert, and
    then the files are over or a cancellation is seen. *)
Lemma batch_loop_ok (out : pathlib.PurePath) (n : nat) :
  forall files i f k,
    k <= length files ->
    (forall j, j < k -> cancel_requested (i + j) = false) ->
    (k < length files -> cancel_requested (i + k) = true) ->
    (forall j, j < k -> outcomes f out files !! j = Some (inr tt)) ->
    exists f' l,
      batch_loop out n i files f = (f', l, inr tt)
      /\ emitted l = progress_signals n i (take k files)
      /\ converted l = List.map (unit_call out) (take k files).
Proof.
  induction files as [| x rest IH]; intros i f k Hk Hc Hstop Hok.
  - assert (k = 0) as -> by (simpl in Hk; lia).
    exists f, no_log. repeat split; reflexivity.
  - rewrite batch_loop_cons. destruct k as [| k].
    + rewrite Nat.add_0_r in Hstop. rewrite Hstop by (simpl; lia).
      exists f, no_log. repeat split; reflexivity.
    + pose proof (Hc 0 ltac:(lia)) as C0. rewrite Nat.add_0_r in C0.
      rewrite C0.
      pose proof (Hok 0 ltac:(lia)) as O0. cbn [outcomes] in O0, Hok.
      destruct (rw2_to_exr_spec (pathlib.str x)
                  (pathlib.str (output_file_of out x)) f)
        as (f1 & enc & r & E & _).
      rewrite E in O0, Hok |- *. cbn in O0. injection O0 as ->.
      destruct (IH (S i) f1 k) as (f2 & l2 & E2 & Hem & Hconv).
      * simpl in Hk. lia.
      * intros j Hj. replace (S i + j) with (i + S j) by lia. apply Hc. lia.
      * intros Hlt. replace (S i + k) with (i + S k) by lia.
        apply Hstop. simpl. lia.
      * intros j Hj. apply (Hok (S j)). lia.
      * rewrite E2. eexists _, _. split; [reflexivity |].
        cbn. rewrite Hem, Hconv. split; reflexivity.
Qed.

(** The loop until a unit fails: the first [k] units convert, unit [k] is
    tried and raises. *)
Lemma batch_loop_raise (out : pathlib.PurePath) (n : nat) :
  forall files i f k e,
    (forall j, j <= k -> cancel_requested (i + j) = false) ->
    (forall j, j < k -> outcomes f out files !! j = Some (inr tt)) ->
    outcomes f out files !! k = Some (inl e) ->
    exists f' l,
      batch_loop out n i files f = (f', l, inl e)
      /\ emitted l = progress_signals n i (take (S k) files)
      /\ converted l = List.map (unit_call out) (take (S k) files).
Proof.
  induction files as [| x rest IH]; intros i f k e Hc Hok Hfail.
  - discriminate.
  - rewrite batch_loop_cons.
    pose proof (Hc 0 ltac:(lia)) as C0. rewrite Nat.add_0_r in C0.
    rewrite C0. cbn [outcomes] in Hok, Hfail.
    destruct (rw2_to_exr_spec (pathlib.str x)
                (pathlib.str (output_file_of out x)) f)
      as (f1 & enc & r & E & _).
    rewrite E in Hok, Hfail |- *. destruct k as [| k].
    + cbn in Hfail. injection Hfail as ->.
      eexists _, _. split; [reflexivity |]. split; reflexivity.
    + pose proof (Hok 0 ltac:(lia)) as O0. cbn in O0. injection O0 as ->.
      destruct (IH (S i) f1 k e) as (f2 & l2 & E2 & Hem & Hconv).
      * intros j Hj. replace (S i + j) with (i + S j) by lia. apply Hc. lia.
      * intros j Hj. apply (Hok (S j)). lia.
      * exact Hfail.
      * rewrite E2. eexists _, _. split; [reflexivity |].
        cbn. rewrite Hem, Hconv. split; reflexivity.
Qed.

(** The loop emits progress signals only. *)
Lemma batch_loop_progress (out : pathlib.PurePath) (n : nat) :
  forall files i f, Forall is_progress (signals (batch_loop out n i files f)).
Proof.
  induction files as [| x rest IH]; intros i f.
  - constructor.
  - rewrite batch_loop_cons. destruct (cancel_requested i); [constructor |].
    destruct (rw2_to_exr_spec (pathlib.str x)
                (pathlib.str (output_file_of out x)) f)
      as (f1 & enc & r & E & _).
    rewrite E. destruct r as [e | u].
    + repeat constructor.
    + specialize (IH (S i) f1).
      destruct (batch_loop out n (S i) rest f1) as [[f2 l2] r2].
      unfold signals in *. cbn in *. constructor; [exact I | exact IH].
Qed.

(** [batch_convert], step by step. *)
Lemma batch_convert_eq (self : ConversionThread) (f0 : FS.t) :
  batch_convert self f0 =
  let out := output_dir_of self in
  let input_dir := pathlib.Path (input_path self) in
  match Path.mkdir out true true f0 with
  | (f1, inl e) => (f1, no_log, inl e)
  | (f1, inr _) =>
      match rw2_files f1 input_dir with
      | [] =>
          (f1, no_log,
           inl (ValueError ("No RW2 files found in "
                            +:+ pathlib.str input_dir)))
      | files => batch_loop out (length files) 0 files f1
      end
  end.
Proof.
  unfold ConversionThread.batch_convert, bind, lift, discover, Path.glob,
    io.bind, io.get, io.ret, raise.
  cbn zeta.
  destruct (Path.mkdir _ true true f0) as [f1 [e | u]]; [reflexivity |].
  fold (rw2_files f1 (pathlib.Path (input_path self))).
  destruct (rw2_files f1 _) as [| x rest]; [reflexivity |].
  destruct (batch_loop _ _ 0 (x :: rest) f1) as [[f2 l2] r2].
  rewrite !log_app_nil_l. reflexivity.
Qed.

(** [run]: the signals of the job's body, then one completion signal. *)
Lemma run_eq (self : ConversionThread) (f : FS.t) :
  run self f =
  let '(f1, l1, r) :=
    (if is_batch self then batch_convert self else convert_single self) f in
  (f1,
   log_app l1
     {| emitted := [match r with inr _ => completed | inl e => failed e end];
        converted := []; encoded := [] |},
   inr tt).
Proof.
  unfold ConversionThread.run, try_except, bind, emit.
  destruct (is_batch self).
  - destruct (batch_convert self f) as [[f1 l1] [e | u]]; reflexivity.
  - destruct (convert_single self f) as [[f1 l1] [e | u]]; reflexivity.
Qed.

(** [resolve_output] leaves the file system and the log as they are. *)
Lemma resolve_output_quiet (self : ConversionThread) (f : FS.t) :
  exists r, resolve_output self f = (f, no_log, r).
Proof.
  unfold resolve_output, bind, lift, Path.is_dir, os.path_isdir, io.bind,
    io.get, io.ret, raise, ret.
  destruct (negb (Str.truthy (output_path self))).
  - destruct (pathlib.with_suffix _ _); eexists; reflexivity.
  - cbn. destruct (FS.isdir f _); eexists; reflexivity.
Qed.

(** [convert_single], step by step. *)
Lemma convert_single_eq (self : ConversionThread) (f : FS.t) :
  convert_single self f =
  let input_file := pathlib.Path (input_path self) in
  match resolve_output self f with
  | (f0, l0, inl e) => (f0, l0, inl e)
  | (f0, l0, inr output_file) =>
      let '(f1, l1, r) :=
        rw2_to_exr (pathlib.str input_file) (pathlib.str output_file) f0 in
      (f1,
       log_app l0
         (log_app
            {| emitted :=
                 [progress_updated 0
                    ("Converting " +:+ pathlib.name input_file +:+ "...")];
               converted := []; encoded := [] |}
            (log_app l1
               {| emitted :=
                    [match r with
                     | inr _ =>
                         progress_updated 100
                           ("Successfully converted to "
                            +:+ pathlib.str output_file)
                     | inl e => progress_updated 0 ("Error: " +:+ str_exn e)
                     end];
                  converted := []; encoded := [] |})),
       r)
  end.
Proof.
  unfold ConversionThread.convert_single, bind, try_except, emit, raise.
  cbn zeta.
  destruct (resolve_output self f) as [[f0 l0] [e | output_file]];
    [reflexivity |].
  destruct (rw2_to_exr _ _ f0) as [[f1 l1] [e | []]]; cbn.
  - rewrite log_app_nil_r. reflexivity.
  - reflexivity.
Qed.

Lemma convert_single_progress (self : ConversionThread) (f : FS.t) :
  Forall is_progress (signals (convert_single self f)).
Proof.
  rewrite convert_single_eq. cbn zeta.
  destruct (resolve_output_quiet self f) as [r ->].
  destruct r as [e | output_file]; [constructor |].
  destruct (rw2_to_exr_spec (pathlib.str (pathlib.Path (input_path self)))
              (pathlib.str output_file) f) as (f1 & enc & r & E & _).
  rewrite E. unfold signals. cbn.
  destruct r; repeat constructor.
Qed.

Lemma batch_convert_progress (self : ConversionThread) (f : FS.t) :
  Forall is_progress (signals (batch_convert self f)).
Proof.
  rewrite batch_convert_eq. cbn zeta.
  destruct (Path.mkdir _ true true f) as [f1 [e | u]]; [constructor |].
  destruct (rw2_files f1 _) as [| x rest]; [constructor |].
  apply batch_loop_progress.
Qed.

(** The signals of a job: those of its body, then the completion signal. *)
Lemma run_signals (self : ConversionThread) (f : FS.t) :
  exists body_signals outcome,
    signals (run self f) =
      body_signals
      ++ [match outcome with inr _ => completed | inl e => failed e end]
    /\ Forall is_progress body_signals
    /\ (is_batch self = true ->
        body_signals = signals (batch_convert self f)
        /\ outcome = snd (batch_convert self f)).
Proof.
  rewrite run_eq. destruct (is_batch self).
  - pose proof (batch_convert_progress self f) as P.
    destruct (batch_convert self f) as [[f1 l1] r].
    exists (emitted l1), r. repeat split; assumption.
  - pose proof (convert_single_progress self f) as P.
    destruct (convert_single self f) as [[f1 l1] r].
    exists (emitted l1), r. repeat split; [assumption | discriminate..].
Qed.

(** C3. Every job, single or batch, whatever its conversions do, emits
    exactly one [conversion_finished] signal, and emits it after all its
    [progress_updated] signals: the signals of a run are progress signals
    followed by one completion signal. *)
Theorem one_completion_signal_last (self : ConversionThread) (f : FS.t) :
  exists progress success message,
    signals (run self f) = progress ++ [conversion_finished success message]
    /\ Forall is_progress progress.
Proof.
  destruct (run_signals self f) as (body & r & E & P & _).
  destruct r as [e | u].
  - exists body, false, ("Error: " +:+ str_exn e). split; assumption.
  - exists body, true, "Conversion completed successfully!".
    split; assumption.
Qed.

End Jobs.

(* ===================================================================== *)
(** * Properties of strings and paths *)
(* ===================================================================== *)

Module PathFacts.

Import Str pathlib.

(** A file name as a directory holds it: not empty, not [.], no [/]. *)
Definition file_name (s : string) : Prop :=
  truthy s = true /\ s <> "." /\ contains sep s = false.

(** The text before the last component of a path: nothing, or text that
    ends with [/]. *)
Definition dir_prefix (t : string) : Prop :=
  t = EmptyString \/ exists t0, t = t0 +:+ "/".

Lemma app_nil (s : string) : EmptyString +:+ s = s.
Proof. reflexivity. Qed.

Lemma app_cons (a : ascii) (s t : string) :
  String a s +:+ t = String a (s +:+ t).
Proof. reflexivity. Qed.

Lemma append_assoc (a b c : string) : (a +:+ b) +:+ c = a +:+ (b +:+ c).
Proof.
  induction a as [| x a IH]; [reflexivity |].
  rewrite !app_cons. f_equal. exact IH.
Qed.

Lemma split_nonempty (c : ascii) (s : string) : split c s <> [].
Proof.
  induction s as [| a s IH]; simpl; [discriminate |].
  destruct (Ascii.eqb a c); [discriminate |].
  destruct (split c s); [contradiction | discriminate].
Qed.

Lemma split_app_sep (c : ascii) (t u : string) :
  split c (t +:+ String c u) = split c t ++ split c u.
Proof.
  induction t as [| a t IH].
  - rewrite app_nil. simpl. rewrite Ascii.eqb_refl. reflexivity.
  - rewrite app_cons. simpl. destruct (Ascii.eqb a c); [now rewrite IH |].
    rewrite IH. pose proof (split_nonempty c t) as N.
    destruct (split c t); [contradiction | reflexivity].
Qed.

Lemma split_no_sep (c : ascii) (u : string) :
  contains c u = false -> split c u = [u].
Proof.
  induction u as [| a u IH]; simpl; [reflexivity |].
  destruct (Ascii.eqb a c); [discriminate |]. simpl.
  intros H. rewrite (IH H). reflexivity.
Qed.

Lemma file_name_kept (e : string) : file_name e -> kept e = true.
Proof.
  intros (H1 & H2 & _). unfold kept. rewrite H1. simpl.
  destruct (String.eqb_spec e "."); [contradiction | reflexivity].
Qed.

Lemma last_snoc {A} (l : list A) (x d : A) : List.last (l ++ [x]) d = x.
Proof.
  induction l as [| y l IH]; [reflexivity |].
  simpl. destruct (l ++ [x]) eqn:E; [| exact IH].
  destruct l; discriminate.
Qed.

(** The last part of a parsed text is its last component. *)
Lemma last_part (t e : string) :
  dir_prefix t -> file_name e ->
  List.last (List.filter kept (split sep (t +:+ e))) EmptyString = e.
Proof.
  intros [-> | [t0 ->]] He.
  - rewrite app_nil, (split_no_sep sep e) by apply He.
    simpl. rewrite (file_name_kept e He). reflexivity.
  - rewrite append_assoc, app_cons, app_nil.
    change (String "/" e) with (String sep e).
    rewrite (split_app_sep sep t0 e), (split_no_sep sep e) by apply He.
    rewrite List.filter_app. simpl. rewrite (file_name_kept e He).
    apply last_snoc.
Qed.

Lemma lstrip_prefix (t e : string) :
  dir_prefix t -> file_name e ->
  exists t', dir_prefix t' /\ lstrip sep (t +:+ e) = t' +:+ e.
Proof.
  intros Ht He. induction t as [| a t IH].
  - exists EmptyString. split; [left; reflexivity |]. rewrite app_nil.
    destruct e as [| b e]; [reflexivity |].
    destruct He as (_ & _ & Hc). simpl in Hc |- *.
    destruct (Ascii.eqb b sep); [discriminate | reflexivity].
  - rewrite app_cons. simpl. destruct (Ascii.eqb a sep).
    + apply IH. destruct Ht as [Ht | [t0 Ht]]; [discriminate |].
      destruct t0 as [| b t0].
      * rewrite app_nil in Ht. injection Ht as _ ->. left. reflexivity.
      * rewrite app_cons in Ht. injection Ht as _ ->.
        right. exists t0. reflexivity.
    + exists (String a t). split; [exact Ht | reflexivity].
Qed.

(** Parsing a text that ends with a file name gives a path of that name. *)
Lemma name_Path (t e : string) :
  dir_prefix t -> file_name e -> name (Path (t +:+ e)) = e.
Proof.
  intros Ht He. unfold name, Path, splitroot.
  destruct (t +:+ e) as [| a s] eqn:E.
  - destruct t; [| discriminate]. rewrite app_nil in E. subst e.
    destruct He as (H & _). discriminate.
  - destruct (Ascii.eqb a sep).
    + rewrite <- E. destruct (lstrip_prefix t e Ht He) as (t' & Ht' & ->).
      destruct (_ =? 2)%Z; cbn [parts]; apply last_part; assumption.
    + cbn [parts]. rewrite <- E. apply last_part; assumption.
Qed.

Lemma concat_snoc (ps : list string) (e : string) :
  join "/" (ps ++ [e]) =
  match ps with
  | [] => e
  | _ => (join "/" ps +:+ "/") +:+ e
  end.
Proof.
  unfold join. induction ps as [| p ps IH]; [reflexivity |].
  destruct ps as [| q ps].
  - cbn [app String.concat]. rewrite append_assoc. reflexivity.
  - change (String.concat "/" ((p :: q :: ps) ++ [e]))
      with (p +:+ "/" +:+ String.concat "/" ((q :: ps) ++ [e])).
    rewrite IH.
    change (String.concat "/" (p :: q :: ps))
      with (p +:+ "/" +:+ String.concat "/" (q :: ps)).
    rewrite !append_assoc. reflexivity.
Qed.

Lemma root_Path (s : string) :
  root (Path s) = EmptyString \/ root (Path s) = "/" \/ root (Path s) = "//".
Proof.
  unfold Path, splitroot. destruct s as [| a s]; [left; reflexivity |].
  destruct (Ascii.eqb a sep); [| left; reflexivity].
  destruct (_ =? 2)%Z; cbn [root]; auto.
Qed.

Lemma truthy_append_r (a e : string) :
  truthy e = true -> truthy (a +:+ e) = true.
Proof. destruct a; [trivial | reflexivity]. Qed.

(** The text of a child of a parsed directory ends with the child's name. *)
Lemma str_child (s e : string) :
  file_name e ->
  exists t, dir_prefix t /\ str (make_child_relpath (Path s) e) = t +:+ e.
Proof.
  intros He. unfold str, make_child_relpath. cbn [root parts].
  rewrite concat_snoc.
  assert (T : forall t, truthy (t +:+ e) = true).
  { intros t. apply truthy_append_r, He. }
  destruct (parts (Path s)) as [| p ps].
  - rewrite T. exists (root (Path s)). split; [| reflexivity].
    destruct (root_Path s) as [-> | [-> | ->]].
    + left. reflexivity.
    + right. exists EmptyString. reflexivity.
    + right. exists "/". reflexivity.
  - rewrite <- append_assoc. rewrite T.
    exists (root (Path s) +:+ (join "/" (p :: ps) +:+ "/")).
    split; [| reflexivity].
    right. exists (root (Path s) +:+ join "/" (p :: ps)).
    rewrite append_assoc. reflexivity.
Qed.

Lemma name_child (p : PurePath) (e : string) :
  name (make_child_relpath p e) = e.
Proof. unfold name, make_child_relpath. cbn [parts]. apply last_snoc. Qed.

(** [rw2_to_exr] is given the text of a unit's input file and takes the
    name of the path of that text: it is the name of the unit's file. *)
Lemma name_of_str_child (s e : string) :
  file_name e ->
  name (Path (str (make_child_relpath (Path s) e))) = e.
Proof.
  intros He. destruct (str_child s e He) as (t & Ht & ->).
  apply name_Path; assumption.
Qed.

End PathFacts.

(* ===================================================================== *)
(** * Properties of [os] and [Path] on the file system *)
(* ===================================================================== *)

Module PathFSFacts.

Import pathlib.

Lemma os_mkdir_ok (path : string) (f f' : FS.t) :
  os.mkdir path f = (f', inr tt) -> FS.isdir f' path = true.
Proof.
  unfold os.mkdir, io.bind, io.get, io.raise, io.put.
  destruct (FS.mkdir f path) as [e | f1] eqn:E; [discriminate |].
  intros [= <-]. apply (FSFacts.mkdir_isdir f f1 path E).
Qed.

Lemma os_mkdir_raise (path : string) (f f' : FS.t) (e : exn) :
  os.mkdir path f = (f', inl e) -> f' = f.
Proof.
  unfold os.mkdir, io.bind, io.get, io.raise, io.put.
  destruct (FS.mkdir f path) as [en | f1]; [| discriminate].
  intros [= <- _]. reflexivity.
Qed.

Lemma unless_isdir_ok (path : string) (exist_ok : bool) (e : exn)
    (f f' : FS.t) :
  os.unless_isdir path exist_ok e f = (f', inr tt) ->
  FS.isdir f' path = true.
Proof.
  unfold os.unless_isdir, os.path_isdir, io.bind, io.get, io.ret, io.raise.
  destruct e; try discriminate.
  destruct (FS.isdir f path) eqn:D; destruct exist_ok; try discriminate.
  intros [= <-]. exact D.
Qed.

Lemma mkdir_plain_ok (p : PurePath) (exist_ok : bool) (f f' : FS.t) :
  Path.mkdir_plain p exist_ok f = (f', inr tt) ->
  FS.isdir f' (str p) = true.
Proof.
  unfold Path.mkdir_plain, io.try_except.
  destruct (os.mkdir (str p) f) as [f1 [e | []]] eqn:E.
  - pose proof (os_mkdir_raise _ _ _ _ E) as ->.
    destruct e as [[] ? | | |]; try discriminate;
      apply unless_isdir_ok.
  - intros [= <-]. apply (os_mkdir_ok _ _ _ E).
Qed.

Lemma mkdir_parents_ok (r : string) (rparts : list string)
    (exist_ok : bool) (f f' : FS.t) :
  Path.mkdir_parents r rparts exist_ok f = (f', inr tt) ->
  FS.isdir f' (str {| root := r; parts := rev rparts |}) = true.
Proof.
  destruct rparts as [| c rparents]; cbn [Path.mkdir_parents];
    unfold io.try_except;
    match goal with
    | |- context [os.mkdir ?s f] =>
        destruct (os.mkdir s f) as [f1 [e | []]] eqn:E
    end.
  - pose proof (os_mkdir_raise _ _ _ _ E) as ->.
    destruct e as [[] ? | | |]; try discriminate; apply unless_isdir_ok.
  - intros [= <-]. apply (os_mkdir_ok _ _ _ E).
  - pose proof (os_mkdir_raise _ _ _ _ E) as ->.
    destruct e as [[] ? | | |]; try discriminate;
      try apply unless_isdir_ok.
    unfold io.bind.
    destruct (Path.mkdir_parents r rparents true f) as [f2 [e | []]];
      [discriminate |].
    apply mkdir_plain_ok.
  - intros [= <-]. apply (os_mkdir_ok _ _ _ E).
Qed.

(** When [p.mkdir(parents=True, exist_ok=True)] returns, [p] is a
    directory. *)
Lemma Path_mkdir_isdir (p : PurePath) (f f' : FS.t) :
  Path.mkdir p true true f = (f', inr tt) -> FS.isdir f' (str p) = true.
Proof.
  unfold Path.mkdir. intros H. apply mkdir_parents_ok in H.
  rewrite rev_involutive in H. destruct p. exact H.
Qed.

(** What a search finds is a child of the directory, by the name of one of
    its entries that matches the pattern. *)
Lemma matches_child (f : FS.t) (d x : PurePath) (pattern : string) :
  In x (Path.matches f d pattern) ->
  exists names entry,
    FS.scandir f (str d) = inr names /\ In entry names
    /\ Str.fnmatch pattern entry = true /\ x = make_child_relpath d entry.
Proof.
  unfold Path.matches. destruct (FS.isdir f (str d)); [| contradiction].
  destruct (FS.scandir f (str d)) as [e | names]; [contradiction |].
  intros H. apply in_map_iff in H as (entry & <- & H).
  apply filter_In in H as [H1 H2]. exists names, entry. auto.
Qed.

End PathFSFacts.

(* ===================================================================== *)
(** * Concrete collaborators and file systems *)
(* ===================================================================== *)

Module Demo.

(** A decoder that reads every regular file as the same two pixels, and
    fails on anything else. *)
Definition rawpy_postprocess (f : FS.t) (path : string) : result ndarray :=
  match FS.stat f path with
  | inr FS.File =>
      Ok {| height := 1; width := 2;
            pixels := [(0, 32768, 65535); (1, 2, 3)] |}
  | _ => Raise (LibraryError "LibRawIOError" "Input/output error")
  end.

(** An encoder that creates the file and never rejects an image. *)
Definition OpenEXR_write (f : FS.t) (img : exr_image) : FS.t * option exn :=
  match FS.create f (exr_path img) with
  | inl e => (f, Some (OSError e (exr_path img)))
  | inr f' => (f', None)
  end.

(** The flag is never set, or is set from iteration [k] on. *)
Definition never (_ : nat) : bool := false.
Definition from (k i : nat) : bool := (k <=? i)%nat.

(** [/home] is the working directory; [/home/in] holds the given entries,
    and [/home/notes.txt] is a regular file. *)
Definition home (entries : list (string * FS.node)) : FS.t :=
  {| FS.tree :=
       FS.Dir [("home", FS.Dir [("in", FS.Dir entries);
                                ("notes.txt", FS.File)])];
     FS.cwd := ["home"];
     FS.scan_key := fun _ => O |}.

Definition raw (name : string) : string * FS.node := (name, FS.File).


Definition batch (input output : string) : ConversionThread :=
  {| input_path := input; output_path := output; is_batch := true |}.

Definition single (input output : string) : ConversionThread :=
  {| input_path := input; output_path := output; is_batch := false |}.

Definition run (cancel : nat -> bool) (self : ConversionThread) (f : FS.t)
  : FS.t * log * result unit :=
  ConversionThread.run rawpy_postprocess OpenEXR_write cancel self f.

End Demo.

(* ===================================================================== *)
(** * Batch jobs *)
(* ===================================================================== *)

Section Batch.

Variable rawpy_postprocess : FS.t -> string -> result ndarray.
Variable OpenEXR_write : FS.t -> exr_image -> FS.t * option exn.
Variable cancel_requested : nat -> bool.

Local Abbreviation run :=
  (ConversionThread.run rawpy_postprocess OpenEXR_write cancel_requested).
Local Abbreviation batch_convert :=
  (ConversionThread.batch_convert rawpy_postprocess OpenEXR_write
     cancel_requested).
Local Abbreviation outcomes := (outcomes rawpy_postprocess OpenEXR_write).

Local Open Scope nat_scope.

(** The units a batch works on: the file system once the output directory
    is made, and the files found in the input directory. [None] when the
    output directory cannot be made. *)
Definition units (self : ConversionThread) (f0 : FS.t)
  : option (FS.t * list pathlib.PurePath) :=
  match Path.mkdir (output_dir_of self) true true f0 with
  | (f1, inr _) => Some (f1, rw2_files f1 (pathlib.Path (input_path self)))
  | (_, inl _) => None
  end.

(** A unit converted: [rw2_to_exr] returned. *)
Definition converted_ok (r : result unit) : Prop := r = inr tt.

Lemma progress_signals_length (n : nat) (files : list pathlib.PurePath) :
  forall i, length (progress_signals n i files) = length files.
Proof.
  induction files as [| x rest IH]; intros i; simpl; [| rewrite IH];
    reflexivity.
Qed.

Lemma progress_signals_lookup (n : nat) (files : list pathlib.PurePath) :
  forall i j x,
    files !! j = Some x ->
    progress_signals n i files !! j =
      Some (progress_updated (percent (Z.of_nat (i + j)) (Z.of_nat n))
              (converting (i + j) n x)).
Proof.
  induction files as [| y rest IH]; intros i j x H; [discriminate |].
  destruct j as [| j]; simpl in *.
  - injection H as ->. rewrite Nat.add_0_r. reflexivity.
  - rewrite (IH (S i) j x H). replace (S i + j) with (i + S j) by lia.
    reflexivity.
Qed.

Lemma outcomes_length (out : pathlib.PurePath)
    (files : list pathlib.PurePath) :
  forall f, length (outcomes f out files) = length files.
Proof.
  induction files as [| x rest IH]; intros f; [reflexivity |].
  simpl.
  destruct (ConversionThread.rw2_to_exr _ _ _ _ f) as [[f1 l1] r].
  simpl. rewrite IH. reflexivity.
Qed.

Lemma converted_prefix (out : pathlib.PurePath)
    (files : list pathlib.PurePath) (f : FS.t) (k : nat) :
  k <= length files ->
  Forall converted_ok (take k (outcomes f out files)) ->
  forall j, j < k -> outcomes f out files !! j = Some (inr tt).
Proof.
  intros Hk Hall j Hj.
  destruct (lookup_lt_is_Some_2 (outcomes f out files) j) as [r Hr].
  { rewrite outcomes_length. lia. }
  rewrite Hr. f_equal.
  apply (Forall_lookup_1 _ _ j r Hall). rewrite lookup_take_lt by lia.
  exact Hr.
Qed.

(** What [rw2_to_exr] raised for a unit names the text of its input. *)
Lemma outcomes_raise (out : pathlib.PurePath)
    (files : list pathlib.PurePath) :
  forall f k e,
    outcomes f out files !! k = Some (inl e) ->
    exists x cause,
      files !! k = Some x
      /\ e = Exception (failed_to_convert (pathlib.str x) (str_exn cause)).
Proof.
  induction files as [| y rest IH]; intros f k e H; [discriminate |].
  simpl in H.
  destruct (rw2_to_exr_spec rawpy_postprocess OpenEXR_write (pathlib.str y)
              (pathlib.str (output_file_of out y)) f)
    as (f1 & enc & r & E & Hr).
  rewrite E in H. destruct k as [| k]; simpl in H.
  - injection H as ->. destruct (Hr e eq_refl) as [cause ->].
    exists y, cause. split; reflexivity.
  - destruct (IH f1 k e H) as (x & cause & Hx & He).
    exists x, cause. split; assumption.
Qed.

(** A batch that has units runs the loop over them. *)
Lemma run_batch (self : ConversionThread) (f0 f1 : FS.t)
    (files : list pathlib.PurePath) :
  is_batch self = true -> units self f0 = Some (f1, files) -> files <> [] ->
  run self f0 =
  let '(f2, l2, r) :=
    ConversionThread.batch_loop rawpy_postprocess OpenEXR_write
      cancel_requested (output_dir_of self) (length files) 0 files f1 in
  (f2,
   log_app l2
     {| emitted := [match r with inr _ => completed | inl e => failed e end];
        converted := []; encoded := [] |},
   inr tt).
Proof.
  intros Hb Hu Hne. rewrite run_eq, Hb, batch_convert_eq. cbn zeta.
  unfold units in Hu.
  destruct (Path.mkdir _ true true f0) as [f1' [e | u]]; [discriminate |].
  injection Hu as -> <-.
  destruct (rw2_files f1 _) as [| x rest]; [contradiction | reflexivity].
Qed.


(** C5. For every batch in which the cancellation is seen before unit [k]
    (from 0) begins and the units before it converted, exactly [k]
    progress signals are emitted, [rw2_to_exr] is called for the first [k]
    units only, and the completion signal reports success. *)
Theorem batch_cancelled (self : ConversionThread) (f0 f1 : FS.t)
    (files : list pathlib.PurePath) (k : nat) :
  is_batch self = true ->
  units self f0 = Some (f1, files) ->
  k < length files ->
  (forall j, j < k -> cancel_requested j = false) ->
  cancel_requested k = true ->
  Forall converted_ok (take k (outcomes f1 (output_dir_of self) files)) ->
  let progress := progress_signals (length files) 0 (take k files) in
  signals (run self f0) = progress ++ [completed]
  /\ length progress = k
  /\ calls (run self f0)
     = List.map (unit_call (output_dir_of self)) (take k files).
Proof.
  intros Hb Hu Hk Hc Hstop Hall progress.
  assert (Hne : files <> []) by (destruct files; [simpl in Hk; lia | easy]).
  destruct (batch_loop_ok rawpy_postprocess OpenEXR_write cancel_requested
              (output_dir_of self) (length files) files 0 f1 k)
    as (f2 & l2 & E & Hem & Hconv).
  - lia.
  - exact Hc.
  - intros _. exact Hstop.
  - apply converted_prefix; [lia | exact Hall].
  - rewrite (run_batch self f0 f1 files Hb Hu Hne), E.
    unfold signals, calls. cbn. rewrite Hem, Hconv, app_nil_r.
    split; [reflexivity |]. split; [| reflexivity].
    subst progress. rewrite progress_signals_length, length_take. lia.
Qed.

(** C4. For every batch in which unit [k] (from 0) is the first whose
    conversion fails, exactly [k+1] progress signals are emitted, the last
    of them for unit [k]; [rw2_to_exr] is called for no later unit; and the
    completion signal reports failure with a message that names the file
    of unit [k]. *)
Theorem batch_fails_fast (self : ConversionThread) (f0 f1 : FS.t)
    (files : list pathlib.PurePath) (k : nat) (x : pathlib.PurePath)
    (e : exn) :
  is_batch self = true ->
  units self f0 = Some (f1, files) ->
  files !! k = Some x ->
  PathFacts.file_name (pathlib.name x) ->
  (forall j, j <= k -> cancel_requested j = false) ->
  Forall converted_ok (take k (outcomes f1 (output_dir_of self) files)) ->
  outcomes f1 (output_dir_of self) files !! k = Some (inl e) ->
  let n := length files in
  let progress := progress_signals n 0 (take (S k) files) in
  exists cause,
    signals (run self f0) =
      progress
      ++ [conversion_finished false
            ("Error: Failed to convert " +:+ pathlib.name x +:+ ": "
             +:+ cause)]
    /\ length progress = S k
    /\ progress !! k =
         Some (progress_updated (percent (Z.of_nat k) (Z.of_nat n))
                 (converting k n x))
    /\ calls (run self f0)
       = List.map (unit_call (output_dir_of self)) (take (S k) files).
Proof.
  intros Hb Hu Hx Hname Hc Hall Hfail n progress.
  pose proof (lookup_lt_Some _ _ _ Hx) as Hk.
  assert (Hne : files <> []) by (destruct files; [simpl in Hk; lia | easy]).
  destruct (outcomes_raise _ _ _ _ _ Hfail) as (x' & cause & Hx' & He).
  rewrite Hx in Hx'. injection Hx' as <-.
  assert (Hin : In x (rw2_files f1 (pathlib.Path (input_path self)))).
  { unfold units in Hu.
    destruct (Path.mkdir _ true true f0) as [f1' [e' | u]]; [discriminate |].
    injection Hu as -> <-. apply list_elem_of_In.
    apply (list_elem_of_lookup_2 _ k). exact Hx. }
  assert (Hnm : pathlib.name (pathlib.Path (pathlib.str x)) = pathlib.name x).
  { unfold rw2_files in Hin. apply in_app_or in Hin.
    destruct Hin as [Hin | Hin];
      apply PathFSFacts.matches_child in Hin
        as (names & entry & _ & _ & _ & ->);
      rewrite PathFacts.name_child in Hname |- *;
      apply PathFacts.name_of_str_child; exact Hname. }
  destruct (batch_loop_raise rawpy_postprocess OpenEXR_write cancel_requested
              (output_dir_of self) n files 0 f1 k e)
    as (f2 & l2 & E & Hem & Hconv).
  - exact Hc.
  - apply converted_prefix; [lia | exact Hall].
  - exact Hfail.
  - exists (str_exn cause).
    rewrite (run_batch self f0 f1 files Hb Hu Hne). fold n. rewrite E.
    unfold signals, calls. cbn. rewrite Hem, Hconv, app_nil_r.
    subst progress.
    split.
    { f_equal. unfold failed. rewrite He. unfold failed_to_convert.
      cbn [str_exn]. rewrite Hnm. reflexivity. }
    split.
    { rewrite progress_signals_length, length_take. lia. }
    split; [| reflexivity].
    rewrite (progress_signals_lookup n (take (S k) files) 0 k x);
      [reflexivity |].
    rewrite lookup_take_lt by lia. exact Hx.
Qed.

(** A directory that is there cannot be made. *)
Lemma mkdir_at_exists (comps : list string) :
  forall n x, FS.find n comps = inr x -> FS.mkdir_at n comps = inl EEXIST.
Proof.
  induction comps as [| c comps IH]; intros n x H.
  - destruct n; reflexivity.
  - destruct n as [| es]; [discriminate |]. cbn [FS.find] in H.
    destruct (FS.lookup_entry c es) as [y |] eqn:L; [| discriminate].
    destruct comps as [| c2 rest].
    + simpl. rewrite L. reflexivity.
    + rewrite FSFacts.mkdir_at_step, L, (IH y x H). reflexivity.
Qed.

(** [Path.mkdir(parents=True, exist_ok=True)] on a directory that is there
    returns and leaves the file system as it is. *)
Lemma Path_mkdir_existing (p : pathlib.PurePath) (f : FS.t) :
  FS.isdir f (pathlib.str p) = true ->
  Path.mkdir p true true f = (f, inr tt).
Proof.
  intros Hd. unfold Path.mkdir.
  assert (E : forall rparts,
             rev rparts = pathlib.parts p ->
             Path.mkdir_parents (pathlib.root p) rparts true f = (f, inr tt)).
  { intros rparts Hr.
    assert (Ep : {| pathlib.root := pathlib.root p;
                    pathlib.parts := rev rparts |} = p)
      by (rewrite Hr; destruct p; reflexivity).
    assert (Em : os.mkdir (pathlib.str p) f =
                 (f, inl (OSError EEXIST (pathlib.str p)))).
    { unfold os.mkdir, io.bind, io.get, io.raise, FS.mkdir.
      unfold FS.isdir, FS.stat in Hd.
      destruct (Str.truthy (pathlib.str p)); [| discriminate].
      destruct (FS.resolve f (pathlib.str p)) as [e | cs]; [discriminate |].
      destruct (FS.find _ _) as [e | x] eqn:F; [discriminate |].
      rewrite (mkdir_at_exists _ _ _ F). reflexivity. }
    destruct rparts as [| c rparents]; cbn [Path.mkdir_parents];
      rewrite Ep; unfold io.try_except; rewrite Em;
      unfold os.unless_isdir, os.path_isdir, io.bind, io.get, io.ret;
      rewrite Hd; reflexivity. }
  apply E. apply rev_involutive.
Qed.

(** C6, as the code has it. The output directory is made first. If that
    fails, the job emits no progress signal, converts nothing and ends
    with that error. If it succeeds and the search of the input directory,
    which runs on the file system with the output directory in it, finds
    no entry, the job emits no progress signal, converts nothing and ends
    with the failure that no file was found. An output directory that is
    there already is left as it is, so that the search sees the input
    directory as it was. *)
Theorem no_input_files (self : ConversionThread) (f0 f1 : FS.t)
    (r : result unit) :
  is_batch self = true ->
  Path.mkdir (output_dir_of self) true true f0 = (f1, r) ->
  match r with
  | inr _ => rw2_files f1 (pathlib.Path (input_path self)) = []
  | inl _ => True
  end ->
  run self f0 =
    (f1,
     {| emitted :=
          [match r with
           | inr _ =>
               failed (ValueError
                         ("No RW2 files found in "
                          +:+ pathlib.str (pathlib.Path (input_path self))))
           | inl e => failed e
           end];
        converted := []; encoded := [] |},
     inr tt)
  /\ (FS.isdir f0 (pathlib.str (output_dir_of self)) = true ->
      f1 = f0 /\ r = inr tt).
Proof.
  intros Hb Hm Hnone. split.
  - rewrite run_eq, Hb, batch_convert_eq. cbn zeta.
    rewrite Hm. destruct r as [e | u]; [reflexivity |].
    rewrite Hnone. reflexivity.
  - intros Hd. rewrite (Path_mkdir_existing _ f0 Hd) in Hm.
    injection Hm as <- <-. split; reflexivity.
Qed.

(** C9, as the code has it. A batch whose output directory was absent
    and could be made, and which then finds no raw file, fails with the
    message that no file was found and leaves the new directory behind. *)
Theorem output_dir_made_before_search (self : ConversionThread)
    (f0 f1 : FS.t) :
  is_batch self = true ->
  FS.exists_ f0 (pathlib.str (output_dir_of self)) = false ->
  units self f0 = Some (f1, []) ->
  signals (run self f0) =
    [failed (ValueError ("No RW2 files found in "
                         +:+ pathlib.str (pathlib.Path (input_path self))))]
  /\ final_fs (run self f0) = f1
  /\ FS.isdir f0 (pathlib.str (output_dir_of self)) = false
  /\ FS.isdir f1 (pathlib.str (output_dir_of self)) = true.
Proof.
  intros Hb Habsent Hu. unfold units in Hu.
  destruct (Path.mkdir _ true true f0) as [f1' [e | []]] eqn:Hm;
    [discriminate |].
  injection Hu as -> Hnone.
  split.
  { rewrite run_eq, Hb, batch_convert_eq. cbn zeta. rewrite Hm, Hnone.
    reflexivity. }
  split.
  { rewrite run_eq, Hb, batch_convert_eq. cbn zeta. rewrite Hm, Hnone.
    reflexivity. }
  split.
  { unfold FS.exists_ in Habsent. unfold FS.isdir.
    destruct (FS.stat f0 _); [reflexivity | discriminate]. }
  apply (PathFSFacts.Path_mkdir_isdir _ f0 f1 Hm).
Qed.

End Batch.

(* ===================================================================== *)
(** * Batch jobs on concrete file systems *)
(* ===================================================================== *)

Module BatchExamples.

Import Demo.

Local Open Scope nat_scope.

Definition three : FS.t := home [raw "a.RW2"; raw "b.rw2"; raw "c.RW2"].

Definition broken : FS.t :=
  home [raw "a.RW2"; ("bad.RW2", FS.Dir []); raw "c.rw2"].

Definition mixed_case : FS.t := home [raw "c.Rw2"].

(** [f] on a file system that lists [first] before the other names. *)
Definition listing_first (first : string) (f : FS.t) : FS.t :=
  {| FS.tree := FS.tree f; FS.cwd := FS.cwd f;
     FS.scan_key := fun name => if String.eqb name first then 0 else 1 |}.

(** The search follows the order of the scan, pattern by pattern. *)
Lemma search_follows_scan :
  rw2_files three (pathlib.Path "in")
    = [pathlib.Path "in/a.RW2"; pathlib.Path "in/c.RW2";
       pathlib.Path "in/b.rw2"]
  /\ rw2_files (listing_first "c.RW2" three) (pathlib.Path "in")
     = [pathlib.Path "in/c.RW2"; pathlib.Path "in/a.RW2";
        pathlib.Path "in/b.rw2"].
Proof. vm_compute. split; reflexivity. Qed.

(** The file system once [out] is made. *)
Definition with_out (f : FS.t) : FS.t :=
  fst (Path.mkdir (pathlib.Path "out") true true f).


(** The flag is seen before the third unit: two progress signals, two
    calls of the converter, then success. *)
Lemma batch_cancelled_before_third :
  signals (run (from 2) (batch "in" "out") three)
  = [progress_updated 33 "Converting 1/3: a.RW2";
     progress_updated 66 "Converting 2/3: c.RW2"; completed]
  /\ calls (run (from 2) (batch "in" "out") three)
     = [("in/a.RW2", "out/a.exr"); ("in/c.RW2", "out/c.exr")].
Proof.
  destruct (batch_cancelled rawpy_postprocess OpenEXR_write (from 2)
              (batch "in" "out") three (with_out three)
              [pathlib.Path "in/a.RW2"; pathlib.Path "in/c.RW2";
               pathlib.Path "in/b.rw2"] 2)
    as (H1 & _ & H3).
  - reflexivity.
  - vm_compute. reflexivity.
  - simpl. lia.
  - intros j Hj. unfold from. apply Nat.leb_gt. exact Hj.
  - reflexivity.
  - vm_compute. repeat constructor.
  - split; [exact H1 | exact H3].
Defined.

(** The second unit is a directory, which the decoder cannot read. *)
Lemma batch_fails_on_second :
  exists cause,
    signals (run never (batch "in" "out") broken)
    = [progress_updated 33 "Converting 1/3: a.RW2";
       progress_updated 66 "Converting 2/3: bad.RW2";
       conversion_finished false
         ("Error: Failed to convert bad.RW2: " +:+ cause)]
    /\ calls (run never (batch "in" "out") broken)
       = [("in/a.RW2", "out/a.exr"); ("in/bad.RW2", "out/bad.exr")].
Proof.
  destruct (batch_fails_fast rawpy_postprocess OpenEXR_write never
              (batch "in" "out") broken (with_out broken)
              [pathlib.Path "in/a.RW2"; pathlib.Path "in/bad.RW2";
               pathlib.Path "in/c.rw2"] 1 (pathlib.Path "in/bad.RW2")
              (Exception "Failed to convert bad.RW2: Input/output error"))
    as (cause & H1 & _ & _ & H4).
  - reflexivity.
  - vm_compute. reflexivity.
  - reflexivity.
  - split; [reflexivity | split; [discriminate | reflexivity]].
  - intros j _. reflexivity.
  - vm_compute. repeat constructor.
  - vm_compute. reflexivity.
  - exists cause. split; [exact H1 | exact H4].
Defined.

(** No [.RW2] and no [.rw2] file in [in], and [out] is there: the job
    fails for want of files and changes nothing. *)
Lemma no_input_files_mixed_case :
  run never (batch "in" "out") (with_out mixed_case) =
    (with_out mixed_case,
     {| emitted :=
          [failed (ValueError
                     ("No RW2 files found in "
                      +:+ pathlib.str (pathlib.Path "in")))];
        converted := []; encoded := [] |},
     inr tt)
  /\ (FS.isdir (with_out mixed_case) "out" = true ->
      with_out mixed_case = with_out mixed_case
      /\ (inr tt : result unit) = inr tt).
Proof.
  apply (no_input_files rawpy_postprocess OpenEXR_write never
           (batch "in" "out") (with_out mixed_case) (with_out mixed_case)
           (inr tt)).
  - reflexivity.
  - vm_compute. reflexivity.
  - vm_compute. reflexivity.
Defined.

(** The signal of that job, and the job when [out] is not there yet. *)
Lemma no_input_files_signals :
  signals (run never (batch "in" "out") (with_out mixed_case))
    = [conversion_finished false "Error: No RW2 files found in in"]
  /\ FS.isdir (with_out mixed_case) "out" = true
  /\ signals (run never (batch "in" "out") mixed_case)
     = [conversion_finished false "Error: No RW2 files found in in"].
Proof. vm_compute. repeat split; reflexivity. Qed.

Lemma output_dir_left_behind :
  FS.isdir mixed_case "out" = false
  /\ FS.isdir (final_fs (run never (batch "in" "out") mixed_case)) "out"
     = true.
Proof.
  destruct (output_dir_made_before_search rawpy_postprocess OpenEXR_write
              never (batch "in" "out") mixed_case (with_out mixed_case))
    as (_ & H2 & H3 & H4).
  - reflexivity.
  - vm_compute. reflexivity.
  - vm_compute. reflexivity.
  - split; [exact H3 |]. unfold run. rewrite H2. exact H4.
Defined.


(** C6 fails as it is stated: the input directory holds no raw file, the
    output path is a regular file, and the job fails with the error of
    making the directory, not with the message that no file was found. *)
Lemma mkdir_error_hides_no_input_files :
  rw2_files (home []) (pathlib.Path "in") = []
  /\ signals (run never (batch "in" "notes.txt") (home []))
     = [conversion_finished false
          "Error: [Errno 17] File exists: 'notes.txt'"].
Proof. vm_compute. split; reflexivity. Qed.

(** C9 fails as it is stated: the input directory holds no raw file and
    the output directory [in/new.RW2] is absent; the job makes it, finds
    it as a raw file, and fails in its conversion after a progress
    signal. *)
Lemma new_output_dir_found_as_raw_file :
  let f := home [raw "readme.md"] in
  let r := run never (batch "in" "in/new.RW2") f in
  rw2_files f (pathlib.Path "in") = []
  /\ FS.exists_ f "in/new.RW2" = false
  /\ signals r
     = [progress_updated 100 "Converting 1/1: new.RW2";
        conversion_finished false
          "Error: Failed to convert new.RW2: Input/output error"]
  /\ FS.isdir (final_fs r) "in/new.RW2" = true.
Proof. vm_compute. repeat split; reflexivity. Qed.

End BatchExamples.

(* ===================================================================== *)
(** * One conversion *)
(* ===================================================================== *)

Section Conversion.

Variable rawpy_postprocess : FS.t -> string -> result ndarray.
Variable OpenEXR_write : FS.t -> exr_image -> FS.t * option exn.

Local Abbreviation rw2_to_exr :=
  (ConversionThread.rw2_to_exr rawpy_postprocess OpenEXR_write).
Local Abbreviation convert_single :=
  (ConversionThread.convert_single rawpy_postprocess OpenEXR_write).

(** A 16-bit sample. *)
Definition sample16 (s : Z) : Prop := (0 <= s <= 65535)%Z.

(** A pixel of 16-bit samples. *)
Definition pixel16 (px : Z * Z * Z) : Prop :=
  let '(r, g, b) := px in sample16 r /\ sample16 g /\ sample16 b.

(** The value of a sample in a plane: the quotient of the sample by 65535,
    rounded to [float32], which lies between 0 and 1. *)
Definition normalized (s : Z) (v : Q) : Prop :=
  (v == IEEE.round IEEE.binary32 (inject_Z s / inject_Z 65535))%Q
  /\ (0 <= v)%Q /\ (v <= 1)%Q.

Lemma normalize_normalized (s : Z) : sample16 s -> normalized s (normalize s).
Proof.
  intros H. split; [apply Arith.normalize_eq, H |].
  apply Arith.normalize_range, H.
Qed.

(** The three planes hold the red, the green and the blue samples of the
    pixels, normalized. *)
Lemma planes_normalized (rgb : ndarray) :
  Forall pixel16 (pixels rgb) ->
  Forall2 (fun '(r, _, _) v => normalized r v) (pixels rgb) (plane rgb 0)
  /\ Forall2 (fun '(_, g, _) v => normalized g v) (pixels rgb) (plane rgb 1)
  /\ Forall2 (fun '(_, _, b) v => normalized b v) (pixels rgb) (plane rgb 2).
Proof.
  unfold plane. induction (pixels rgb) as [| [[r g] b] pxs IH]; intros H.
  - repeat split; constructor.
  - inversion H as [| ? ? Hpx Hpxs]; subst.
    cbn in Hpx. destruct Hpx as (Hr & Hg & Hb).
    destruct (IH Hpxs) as (IR & IG & IB).
    repeat split; simpl; constructor;
      solve [apply normalize_normalized; assumption | assumption].
Qed.

Lemma channels_planes (rgb : ndarray) :
  channels rgb !! "R" = Some (plane rgb 0)
  /\ channels rgb !! "G" = Some (plane rgb 1)
  /\ channels rgb !! "B" = Some (plane rgb 2).
Proof. unfold channels. repeat split; simplify_map_eq; reflexivity. Qed.

(** When the array is decoded and the directory of the output is made,
    the encoder is given one image, with the channels of the array. *)
Lemma rw2_to_exr_encoded (input output : string) (f f1 : FS.t)
    (rgb : ndarray) :
  rawpy_postprocess f input = inr rgb ->
  os.makedirs (posixpath.dirname output) true f = (f1, inr tt) ->
  encoded (snd (fst (rw2_to_exr input output f))) =
    [{| exr_path := output; exr_header := (width rgb, height rgb);
        exr_channels := channels rgb |}].
Proof.
  intros Hd Hm.
  unfold ConversionThread.rw2_to_exr, bind, try_except, lift, log_converted,
    log_encoded, ConversionThread.decode, ConversionThread.encode, raise,
    ret, log_app. cbn. rewrite Hd. cbn. rewrite Hm. cbn.
  destruct (OpenEXR_write f1 _) as [f2 [e |]]; reflexivity.
Qed.

(** C8. For every successfully decoded buffer of 16-bit samples, the
    converter computes three planes: the value for a pixel [(r, g, b)] is
    [r / 65535] in the first, [g / 65535] in the second and [b / 65535] in
    the third, each rounded to [float32], a fixed linear rescale, and each
    in [0, 1]; and once the directory of the output is made, it hands the
    encoder one image whose channels R, G and B are these planes. *)
Theorem samples_normalized (input output : string) (f : FS.t)
    (rgb : ndarray) :
  rawpy_postprocess f input = inr rgb ->
  Forall pixel16 (pixels rgb) ->
  Forall2 (fun '(r, _, _) v => normalized r v) (pixels rgb) (plane rgb 0)
  /\ Forall2 (fun '(_, g, _) v => normalized g v) (pixels rgb) (plane rgb 1)
  /\ Forall2 (fun '(_, _, b) v => normalized b v) (pixels rgb) (plane rgb 2)
  /\ forall f1,
       os.makedirs (posixpath.dirname output) true f = (f1, inr tt) ->
       encoded (snd (fst (rw2_to_exr input output f))) =
         [{| exr_path := output; exr_header := (width rgb, height rgb);
             exr_channels :=
               <["R" := plane rgb 0]>
                 (<["G" := plane rgb 1]> (<["B" := plane rgb 2]> ∅)) |}].
Proof.
  intros Hd H16. destruct (planes_normalized rgb H16) as (HR & HG & HB).
  repeat (split; [assumption |]).
  intros f1 Hm. apply (rw2_to_exr_encoded input output f f1 rgb Hd Hm).
Qed.

(** [os.makedirs('', exist_ok=True)] raises [FileNotFoundError]. *)
Lemma makedirs_empty (f : FS.t) :
  os.makedirs EmptyString true f = (f, inl (OSError ENOENT EmptyString)).
Proof. reflexivity. Qed.

(** What makes a conversion to a bare file name fail: the decoder's error,
    or else the error of [os.makedirs('')]. *)
Definition bare_output_cause (input : string) (f : FS.t) : string :=
  match rawpy_postprocess f input with
  | inl e => str_exn e
  | inr _ => str_exn (OSError ENOENT EmptyString)
  end.

Lemma rw2_to_exr_bare_output (input output : string) (f : FS.t) :
  posixpath.dirname output = EmptyString ->
  rw2_to_exr input output f =
    (f, {| emitted := []; converted := [(input, output)]; encoded := [] |},
     inl (Exception ("Failed to convert "
                     +:+ pathlib.name (pathlib.Path input)
                     +:+ ": " +:+ bare_output_cause input f))).
Proof.
  intros Hdir.
  unfold ConversionThread.rw2_to_exr, bind, try_except, lift, log_converted,
    log_encoded, ConversionThread.decode, ConversionThread.encode, raise,
    ret, log_app, bare_output_cause. cbn.
  destruct (rawpy_postprocess f input) as [e | rgb]; cbn; [reflexivity |].
  rewrite Hdir, makedirs_empty. reflexivity.
Qed.

(** C10. For every conversion whose output path has no directory
    component, the converter passes the empty string to [os.makedirs],
    which raises [FileNotFoundError]; [rw2_to_exr] fails with its own
    exception, which names the input file, and leaves the file system as
    it was; when the decoder returns, the cause in the message is that
    [FileNotFoundError]. *)
Theorem bare_output_name_fails (input output : string) (f : FS.t) :
  posixpath.dirname output = EmptyString ->
  os.makedirs (posixpath.dirname output) true f
    = (f, inl (OSError ENOENT EmptyString))
  /\ exists cause,
       rw2_to_exr input output f =
         (f, {| emitted := []; converted := [(input, output)];
                encoded := [] |},
          inl (Exception ("Failed to convert "
                          +:+ pathlib.name (pathlib.Path input)
                          +:+ ": " +:+ cause)))
       /\ (forall rgb, rawpy_postprocess f input = inr rgb ->
           cause = "[Errno 2] No such file or directory: ''").
Proof.
  intros Hdir. split; [rewrite Hdir; apply makedirs_empty |].
  exists (bare_output_cause input f). split.
  - apply rw2_to_exr_bare_output. exact Hdir.
  - intros rgb Hd. unfold bare_output_cause. rewrite Hd. reflexivity.
Qed.

End Conversion.

(* ===================================================================== *)
(** * The search for raw files *)
(* ===================================================================== *)

Module Discovery.

Import Str pathlib.
Local Open Scope string_scope.

(** A pattern character that stands for itself. *)
Definition literal_char (a : ascii) : bool :=
  negb (Ascii.eqb a "*"%char) && negb (Ascii.eqb a "?"%char).

Fixpoint literal (pat : string) : bool :=
  match pat with
  | EmptyString => true
  | String a pat' => literal_char a && literal pat'
  end.

Lemma fnmatch_literal (pat : string) :
  literal pat = true -> forall s, fnmatch pat s = true <-> s = pat.
Proof.
  induction pat as [| p pat IH]; intros L s.
  - destruct s; simpl; split; congruence.
  - simpl in L. apply andb_prop in L as [Lp L].
    unfold literal_char in Lp. apply andb_prop in Lp as [L1 L2].
    apply negb_true_iff in L1, L2. simpl. rewrite L1, L2.
    destruct s as [| a s]; [split; discriminate |]. simpl.
    destruct (Ascii.eqb_spec a p) as [-> | N]; simpl.
    + rewrite (IH L s). split; congruence.
    + split; [discriminate | congruence].
Qed.

Lemma fnmatch_star_step (pat s : string) :
  fnmatch (String "*" pat) s =
  fnmatch pat s
  || match s with
     | EmptyString => false
     | String _ s' => fnmatch (String "*" pat) s'
     end.
Proof. destruct s; reflexivity. Qed.

(** [*] followed by literal text matches the names that end with it. *)
Lemma fnmatch_star_literal (pat : string) :
  literal pat = true ->
  forall s, fnmatch (String "*" pat) s = true <-> exists t, s = t +:+ pat.
Proof.
  intros L s. induction s as [| a s IH]; rewrite fnmatch_star_step.
  - rewrite orb_false_r, (fnmatch_literal pat L). split.
    + intros E. exists EmptyString. exact E.
    + intros [[| b t] E]; [exact E | discriminate].
  - rewrite orb_true_iff, (fnmatch_literal pat L), IH. split.
    + intros [E | [t E]].
      * exists EmptyString. exact E.
      * exists (String a t). rewrite PathFacts.app_cons, E. reflexivity.
    + intros [[| b t] E].
      * left. exact E.
      * right. rewrite PathFacts.app_cons in E. injection E as _ E.
        exists t. exact E.
Qed.

Lemma matches_iff (f : FS.t) (d x : PurePath) (pattern : string) :
  In x (Path.matches f d pattern) <->
  exists names entry,
    FS.scandir f (str d) = inr names /\ In entry names
    /\ fnmatch pattern entry = true /\ x = make_child_relpath d entry.
Proof.
  split; [apply PathFSFacts.matches_child |].
  intros (names & entry & Hs & Hin & Hm & ->).
  unfold Path.matches. rewrite Hs.
  replace (FS.isdir f (str d)) with true.
  - apply in_map, filter_In. split; assumption.
  - unfold FS.isdir. unfold FS.scandir in Hs.
    destruct (FS.stat f (str d)) as [e | [| es]]; try discriminate.
    reflexivity.
Qed.

(** C2 (amended). For every input directory of a batch job, the units
    discovered are exactly the direct entries of that directory whose
    names end with [.RW2] or with [.rw2], the extension in those two
    spellings only; the search does not change the file system. *)
Theorem discovery_matches_two_spellings (f : FS.t) (d : PurePath) :
  discover d f = (f, inr (rw2_files f d))
  /\ forall x,
       In x (rw2_files f d) <->
       exists names entry base,
         FS.scandir f (str d) = inr names /\ In entry names
         /\ (entry = base +:+ ".RW2" \/ entry = base +:+ ".rw2")
         /\ x = make_child_relpath d entry.
Proof.
  split; [reflexivity |]. intros x. unfold rw2_files.
  rewrite in_app_iff, !matches_iff. split.
  - intros [(names & entry & Hs & Hin & Hm & ->)
           | (names & entry & Hs & Hin & Hm & ->)];
      apply fnmatch_star_literal in Hm as [base E]; try reflexivity;
      exists names, entry, base; auto.
  - intros (names & entry & base & Hs & Hin & [E | E] & ->);
      [left | right]; exists names, entry;
      (repeat split; try assumption);
      apply fnmatch_star_literal; [reflexivity | | reflexivity |];
      exists base; exact E.
Qed.

End Discovery.

(* ===================================================================== *)
(** * The output path of a single conversion *)
(* ===================================================================== *)

Module Resolution.

Import Str pathlib.
Local Open Scope string_scope.

Lemma length_drop (n : nat) (s : string) :
  String.length (drop n s) = (String.length s - n)%nat.
Proof.
  revert s. induction n as [| n IH]; intros [| a s]; simpl; auto.
Qed.

Lemma length_append (s t : string) :
  String.length (s +:+ t) = (String.length s + String.length t)%nat.
Proof.
  induction s as [| a s IH]; [reflexivity |].
  rewrite PathFacts.app_cons. simpl. rewrite IH. reflexivity.
Qed.

Lemma truthy_length (s : string) :
  truthy s = true <-> (0 < String.length s)%nat.
Proof. destruct s; simpl; split; (discriminate || lia || auto). Qed.

Lemma contains_take (c : ascii) (n : nat) (s : string) :
  contains c s = false -> contains c (take n s) = false.
Proof.
  revert s. induction n as [| n IH]; intros [| a s]; simpl; auto.
  intros H. apply orb_false_iff in H as [-> H]. simpl. auto.
Qed.

Lemma contains_append (c : ascii) (s t : string) :
  contains c (s +:+ t) = contains c s || contains c t.
Proof.
  induction s as [| a s IH]; [reflexivity |].
  rewrite PathFacts.app_cons. simpl. rewrite IH. apply orb_assoc.
Qed.

Lemma split_parts (c : ascii) (s x : string) :
  In x (split c s) -> contains c x = false.
Proof.
  revert x. induction s as [| a s IH]; simpl; intros x.
  - intros [<- | []]. reflexivity.
  - destruct (Ascii.eqb a c) eqn:E.
    + intros [<- | H]; [reflexivity | auto].
    + destruct (split c s) as [| h t].
      * intros [<- | []]. simpl. rewrite E. reflexivity.
      * intros [<- | H]; [| apply IH; right; exact H].
        simpl. rewrite E. apply IH. left. reflexivity.
Qed.

Lemma last_prop {A} (P : A -> Prop) (l : list A) (d : A) :
  P d -> (forall x, In x l -> P x) -> P (List.last l d).
Proof.
  intros Hd. induction l as [| x l IH]; intros H; [exact Hd |].
  destruct l as [| y l]; [apply H; left; reflexivity |].
  apply IH. intros z Hz. apply H. right. exact Hz.
Qed.

(** A name of a parsed path holds no separator. *)
Lemma name_no_sep (s : string) : contains sep (name (Path s)) = false.
Proof.
  unfold name, Path. destruct (splitroot s) as [r rel]. cbn [parts].
  apply (last_prop (fun x => contains sep x = false)); [reflexivity |].
  intros x H. apply filter_In in H as [H _].
  apply (split_parts sep rel). exact H.
Qed.

Lemma stem_no_sep (s : string) : contains sep (stem (Path s)) = false.
Proof.
  unfold stem. destruct (_ && _); [| apply name_no_sep].
  apply contains_take, name_no_sep.
Qed.

(** The name the output takes from the input. *)
Definition exr_name (input_file : PurePath) : string :=
  stem input_file +:+ ".exr".

Lemma exr_name_file_name (s : string) :
  PathFacts.file_name (exr_name (Path s)).
Proof.
  unfold exr_name, PathFacts.file_name. repeat split.
  - apply PathFacts.truthy_append_r. reflexivity.
  - intros E. apply (f_equal String.length) in E.
    rewrite length_append in E. simpl in E. lia.
  - rewrite contains_append, stem_no_sep. reflexivity.
Qed.

(** The parse of a file name is the path of that one part. *)
Lemma Path_file_name (e : string) :
  PathFacts.file_name e ->
  Path e = {| root := EmptyString; parts := [e] |}.
Proof.
  intros He. pose proof (PathFacts.file_name_kept e He) as K.
  destruct He as (T & _ & C). unfold Path, splitroot.
  destruct e as [| a e]; [discriminate |].
  simpl in C. apply orb_false_iff in C as [Ca C]. rewrite Ca.
  rewrite (PathFacts.split_no_sep sep (String a e))
    by (simpl; rewrite Ca; exact C).
  simpl List.filter. rewrite K. reflexivity.
Qed.

Lemma truediv_file_name (p : PurePath) (e : string) :
  PathFacts.file_name e -> p /: e = make_child_relpath p e.
Proof.
  intros He. unfold truediv. rewrite (Path_file_name e He). reflexivity.
Qed.

(** [with_suffix('.exr')] puts the stem and [.exr] in place of the name. *)
Lemma with_suffix_exr (p : PurePath) :
  name p <> EmptyString ->
  with_suffix p ".exr" = inr (make_child_relpath (parent p) (exr_name p)).
Proof.
  intros N. unfold with_suffix. cbn [contains Ascii.eqb orb].
  change (contains sep ".exr") with false. cbv iota.
  change ((truthy ".exr" && negb (String.prefix "." ".exr"))
          || String.eqb ".exr" ".") with false. cbv iota.
  destruct (truthy (name p)) eqn:T;
    [| destruct (name p); [contradiction | discriminate]].
  cbn [negb]. unfold make_child_relpath, parent, exr_name. cbn [root parts].
  do 3 f_equal. unfold suffix, stem.
  set (nm := name p) in *. set (i := rfind dot nm).
  destruct ((0 <? i)%Z && (i <? len nm - 1)%Z) eqn:C; [| reflexivity].
  apply andb_prop in C as [C1 C2]. apply Z.ltb_lt in C1, C2.
  unfold len in C2.
  assert (B : bound nm i = Z.to_nat i).
  { unfold bound, len. destruct (Z.ltb_spec i 0); [lia |]. f_equal. lia. }
  assert (L : len (slice_from nm i) = (len nm - i)%Z).
  { unfold slice_from, len. rewrite B, length_drop. lia. }
  replace (truthy (slice_from nm i)) with true.
  - cbn [negb]. f_equal. unfold slice_to. f_equal. rewrite B, L.
    unfold bound, len. destruct (Z.ltb_spec (- (Z.of_nat (String.length nm) - i)) 0);
      [| lia]. f_equal. lia.
  - symmetry. apply truthy_length. unfold len in L. lia.
Qed.

End Resolution.

Section Single.

Import Resolution.

Variable rawpy_postprocess : FS.t -> string -> result ndarray.
Variable OpenEXR_write : FS.t -> exr_image -> FS.t * option exn.
Variable cancel_requested : nat -> bool.

Local Abbreviation rw2_to_exr :=
  (ConversionThread.rw2_to_exr rawpy_postprocess OpenEXR_write).
Local Abbreviation convert_single :=
  (ConversionThread.convert_single rawpy_postprocess OpenEXR_write).
Local Abbreviation run :=
  (ConversionThread.run rawpy_postprocess OpenEXR_write cancel_requested).

(** C7. For every single-mode job, the output path is settled without
    a signal or a change of the file system, and it is: when no output is
    given and the input has a name, the child of the input's directory
    named by the input's stem and [.exr]; when the given output is an
    existing directory, the child of that directory named by the input's
    stem and [.exr]; and otherwise the path of the given output itself,
    whatever its extension. *)
Theorem output_path_resolved (self : ConversionThread) (f : FS.t) :
  (output_path self = EmptyString ->
   pathlib.name (pathlib.Path (input_path self)) <> EmptyString ->
   resolve_output self f =
     (f, no_log,
      inr (pathlib.make_child_relpath
             (pathlib.parent (pathlib.Path (input_path self)))
             (exr_name (pathlib.Path (input_path self))))))
  /\ (output_path self <> EmptyString ->
      FS.isdir f (pathlib.str (pathlib.Path (output_path self))) = true ->
      resolve_output self f =
        (f, no_log,
         inr (pathlib.make_child_relpath
                (pathlib.Path (output_path self))
                (exr_name (pathlib.Path (input_path self))))))
  /\ (output_path self <> EmptyString ->
      FS.isdir f (pathlib.str (pathlib.Path (output_path self))) = false ->
      resolve_output self f =
        (f, no_log, inr (pathlib.Path (output_path self)))).
Proof.
  unfold resolve_output, bind, lift, Path.is_dir, os.path_isdir, io.bind,
    io.get, io.ret, raise, ret.
  repeat split.
  - intros -> N. cbn [Str.truthy negb].
    rewrite (with_suffix_exr _ N). reflexivity.
  - intros N D. destruct (output_path self) as [| a s]; [contradiction |].
    cbn [Str.truthy negb]. cbn. rewrite D. cbn.
    rewrite truediv_file_name by apply exr_name_file_name. reflexivity.
  - intros N D. destruct (output_path self) as [| a s]; [contradiction |].
    cbn [Str.truthy negb]. cbn. rewrite D. reflexivity.
Qed.

(** The converter is called once, with the text of the input path and the
    text of the output path settled on. *)
Lemma convert_single_calls (self : ConversionThread) (f : FS.t)
    (output_file : pathlib.PurePath) :
  resolve_output self f = (f, no_log, inr output_file) ->
  calls (convert_single self f) =
    [(pathlib.str (pathlib.Path (input_path self)),
      pathlib.str output_file)].
Proof.
  intros H.
  rewrite (convert_single_eq rawpy_postprocess OpenEXR_write), H. cbn zeta.
  destruct (rw2_to_exr_spec rawpy_postprocess OpenEXR_write
              (pathlib.str (pathlib.Path (input_path self)))
              (pathlib.str output_file) f) as (f' & enc & r & -> & _).
  unfold calls. cbn. reflexivity.
Qed.

(** A single-mode job whose output path is a bare file name emits the
    signal of its start, then the error as a progress signal and as the
    completion signal, and leaves the file system as it was. *)
Theorem single_job_bare_output (self : ConversionThread) (f : FS.t)
    (output_file : pathlib.PurePath) :
  is_batch self = false ->
  resolve_output self f = (f, no_log, inr output_file) ->
  posixpath.dirname (pathlib.str output_file) = EmptyString ->
  exists cause,
    let input_file := pathlib.Path (input_path self) in
    let msg :=
      "Error: " +:+ failed_to_convert (pathlib.str input_file) cause in
    signals (run self f) =
      [progress_updated 0
         ("Converting " +:+ pathlib.name input_file +:+ "...");
       progress_updated 0 msg;
       conversion_finished false msg]
    /\ final_fs (run self f) = f.
Proof.
  intros Hb Hr Hd.
  pose proof (rw2_to_exr_bare_output rawpy_postprocess OpenEXR_write
                (pathlib.str (pathlib.Path (input_path self)))
                (pathlib.str output_file) f Hd) as E.
  eexists.
  unfold ConversionThread.run, bind, try_except, emit. rewrite Hb.
  rewrite (convert_single_eq rawpy_postprocess OpenEXR_write), Hr.
  cbn zeta. rewrite E. cbn. split; reflexivity.
Qed.

End Single.

(* ===================================================================== *)
(** * Conversions on a small file system *)
(* ===================================================================== *)

Module ConversionExamples.

Import Demo.

(** The working directory holds the raw file [a.RW2] and the directory
    [out]. *)
Definition desk : FS.t :=
  {| FS.tree := FS.Dir [("home", FS.Dir [raw "a.RW2"; ("out", FS.Dir [])])];
     FS.cwd := ["home"];
     FS.scan_key := fun _ => O |}.

Definition image : ndarray :=
  {| height := 1; width := 2; pixels := [(0, 32768, 65535); (1, 2, 3)] |}%Z.

(** The three ways of a single-mode job to its output path. *)
Lemma output_path_resolved_on_desk :
  resolve_output (single "in/a.RW2" EmptyString) BatchExamples.three
    = (BatchExamples.three, no_log, inr (pathlib.Path "in/a.exr"))
  /\ resolve_output (single "a.RW2" "out") desk
     = (desk, no_log, inr (pathlib.Path "out/a.exr"))
  /\ resolve_output (single "a.RW2" "out/b.exr") desk
     = (desk, no_log, inr (pathlib.Path "out/b.exr")).
Proof.
  split; [| split].
  - destruct (output_path_resolved (single "in/a.RW2" EmptyString)
                BatchExamples.three) as (H & _ & _).
    rewrite H; [reflexivity | reflexivity | discriminate].
  - destruct (output_path_resolved (single "a.RW2" "out") desk)
      as (_ & H & _).
    rewrite H; [reflexivity | discriminate | reflexivity].
  - destruct (output_path_resolved (single "a.RW2" "out/b.exr") desk)
      as (_ & _ & H).
    rewrite H; [reflexivity | discriminate | reflexivity].
Defined.

(** The image of [a.RW2] converted into [out]: the planes of its two
    pixels, and what the encoder is given. *)
Lemma samples_normalized_on_desk :
  (Forall2 (fun '(r, _, _) v => normalized r v)
     [(0, 32768, 65535); (1, 2, 3)]%Z (plane image 0)
   /\ Forall2 (fun '(_, g, _) v => normalized g v)
        [(0, 32768, 65535); (1, 2, 3)]%Z (plane image 1)
   /\ Forall2 (fun '(_, _, b) v => normalized b v)
        [(0, 32768, 65535); (1, 2, 3)]%Z (plane image 2)
   /\ forall f1,
        os.makedirs (posixpath.dirname "out/a.exr") true desk
          = (f1, inr tt) ->
        encoded (snd (fst (ConversionThread.rw2_to_exr rawpy_postprocess
                             OpenEXR_write "a.RW2" "out/a.exr" desk)))
        = [{| exr_path := "out/a.exr"; exr_header := (2, 1)%nat;
              exr_channels :=
                <["R" := plane image 0]>
                  (<["G" := plane image 1]> (<["B" := plane image 2]> ∅)) |}])
  /\ List.map Qred (plane image 0) = [0; 65537 # 4294967296]%Q
  /\ List.map Qred (plane image 1) = [65537 # 131072; 65537 # 2147483648]%Q
  /\ List.map Qred (plane image 2) = [1; 196611 # 4294967296]%Q
  /\ List.map exr_path
       (encoded (snd (fst (ConversionThread.rw2_to_exr rawpy_postprocess
                             OpenEXR_write "a.RW2" "out/a.exr" desk))))
     = ["out/a.exr"].
Proof.
  pose proof (samples_normalized rawpy_postprocess OpenEXR_write
                "a.RW2" "out/a.exr" desk image) as H.
  assert (Hd : rawpy_postprocess desk "a.RW2" = inr image) by reflexivity.
  assert (H16 : Forall pixel16 (pixels image)).
  { constructor; [| constructor; [| constructor]];
      unfold pixel16, sample16; lia. }
  specialize (H Hd H16).
  split; [exact H |].
  destruct H as (_ & _ & _ & He).
  split; [vm_compute; reflexivity |].
  split; [vm_compute; reflexivity |].
  split; [vm_compute; reflexivity |].
  rewrite (He desk); reflexivity.
Defined.

(** [a.RW2] converted to the bare name [a.exr]. *)
Lemma bare_output_name_on_desk :
  os.makedirs (posixpath.dirname "a.exr") true desk
    = (desk, inl (OSError ENOENT EmptyString))
  /\ exists cause,
       ConversionThread.rw2_to_exr rawpy_postprocess OpenEXR_write
         "a.RW2" "a.exr" desk =
         (desk,
          {| emitted := []; converted := [("a.RW2", "a.exr")];
             encoded := [] |},
          inl (Exception ("Failed to convert "
                          +:+ pathlib.name (pathlib.Path "a.RW2")
                          +:+ ": " +:+ cause)))
       /\ (forall rgb, rawpy_postprocess desk "a.RW2" = inr rgb ->
           cause = "[Errno 2] No such file or directory: ''").
Proof.
  apply (bare_output_name_fails rawpy_postprocess OpenEXR_write
           "a.RW2" "a.exr" desk).
  reflexivity.
Defined.

(** A single-mode job for [a.RW2] with no output given: the output is the
    bare name [a.exr], and the job fails although it runs in the
    directory of the file. *)
Lemma single_job_in_working_directory :
  exists cause,
    let input_file := pathlib.Path "a.RW2" in
    let msg :=
      "Error: " +:+ failed_to_convert (pathlib.str input_file) cause in
    signals (run never (single "a.RW2" EmptyString) desk) =
      [progress_updated 0
         ("Converting " +:+ pathlib.name input_file +:+ "...");
       progress_updated 0 msg;
       conversion_finished false msg]
    /\ final_fs (run never (single "a.RW2" EmptyString) desk) = desk.
Proof.
  apply (single_job_bare_output rawpy_postprocess OpenEXR_write never
           (single "a.RW2" EmptyString) desk (pathlib.Path "a.exr"));
    reflexivity.
Defined.

(** The signals of that job, and of the job that is given the output
    [out]. *)
Lemma single_job_signals_on_desk :
  signals (run never (single "a.RW2" EmptyString) desk) =
    [progress_updated 0 "Converting a.RW2...";
     progress_updated 0
       "Error: Failed to convert a.RW2: [Errno 2] No such file or directory: ''";
     conversion_finished false
       "Error: Failed to convert a.RW2: [Errno 2] No such file or directory: ''"]
  /\ signals (run never (single "a.RW2" "out") desk) =
       [progress_updated 0 "Converting a.RW2...";
        progress_updated 100 "Successfully converted to out/a.exr";
        completed].
Proof. vm_compute. split; reflexivity. Qed.

(** C2 fails as it is stated: the input directory holds [c.Rw2], whose
    extension is [.RW2] in another casing; the search finds nothing and
    the job fails for want of raw files. *)
Lemma mixed_case_extension_not_found :
  FS.scandir BatchExamples.mixed_case "in" = inr ["c.Rw2"]
  /\ Str.lower (pathlib.suffix (pathlib.Path "in/c.Rw2")) = Str.lower ".RW2"
  /\ rw2_files BatchExamples.mixed_case (pathlib.Path "in") = []
  /\ signals (run never (batch "in" "out") BatchExamples.mixed_case)
     = [conversion_finished false "Error: No RW2 files found in in"].
Proof. vm_compute. repeat split; reflexivity. Qed.

End ConversionExamples.

(* ===================================================================== *)
(** * The error of rounding *)
(* ===================================================================== *)

Module Rounding.

Import IEEE.
Local Open Scope Q_scope.

Lemma rint_error (x : Q) :
  x - (1 # 2) <= inject_Z (rint x) /\ inject_Z (rint x) <= x + (1 # 2).
Proof.
  unfold rint.
  pose proof (Qfloor_le x) as H1. pose proof (Qlt_floor x) as H2.
  rewrite inject_Z_plus in H2. change (inject_Z 1) with 1 in H2.
  destruct (Qcompare_spec (x - inject_Z (Qfloor x)) (1 # 2)) as [C | C | C].
  - destruct (Z.even (Qfloor x));
      rewrite ?inject_Z_plus; change (inject_Z 1) with 1; lra.
  - lra.
  - rewrite inject_Z_plus. change (inject_Z 1) with 1. lra.
Qed.

(** A rounded value is within half a unit in the last place. *)
Lemma round_error (f : format) (x : Q) :
  x - (1 # 2) * 2 ^ fexp f x <= round f x
  /\ round f x <= x + (1 # 2) * 2 ^ fexp f x.
Proof.
  unfold round. pose proof (pow2_pos (fexp f x)) as Hc.
  set (c := 2 ^ fexp f x) in *.
  destruct (rint_error (x / c)) as [H1 H2].
  set (r := inject_Z (rint (x / c))) in *.
  assert (E : x / c * c == x) by (field; lra).
  split; nra.
Qed.

Lemma mag_lower (x : Q) (m : Z) : 0 < x -> 2 ^ m <= x -> (m < mag x)%Z.
Proof.
  intros Hx Hm. destruct (mag_spec x Hx) as [_ U].
  destruct (Z_lt_le_dec m (mag x)) as [H | H]; [assumption | exfalso].
  pose proof (pow2_le _ _ H). lra.
Qed.

(** The relative error of rounding a number in the normal range. *)
Lemma round_relative (f : format) (x : Q) :
  0 < x -> (emin f <= mag x - prec f)%Z ->
  x * (1 - 2 ^ (- prec f)) <= round f x
  /\ round f x <= x * (1 + 2 ^ (- prec f)).
Proof.
  intros Hx Hn. destruct (round_error f x) as [H1 H2].
  destruct (mag_spec x Hx) as [L _].
  assert (Ee : fexp f x = (mag x - prec f)%Z) by (unfold fexp; lia).
  rewrite Ee in H1, H2.
  assert (Ep : 2 ^ (mag x - prec f) == 2 ^ (mag x - 1) * (2 * 2 ^ (- prec f))).
  { rewrite <- pow2_succ, <- pow2_add. f_equiv. lia. }
  pose proof (pow2_pos (- prec f)) as Hp.
  pose proof (pow2_pos (mag x - 1)) as Hq.
  set (u := 2 ^ (mag x - prec f)) in *. set (e := 2 ^ (- prec f)) in *.
  set (m := 2 ^ (mag x - 1)) in *.
  split; nra.
Qed.


(** The quotient of a positive ratio of integers below [2^32] is a normal
    number, and so is a hundred times its rounding. *)
Lemma ratio_bounds (a n : Z) :
  (1 <= a <= n)%Z -> (n <= 2 ^ 32)%Z ->
  let q := inject_Z a / inject_Z n in
  (1 # 4294967296) <= q /\ q <= 1.
Proof.
  intros Ha Hn q.
  assert (HA : 1 <= inject_Z a).
  { change 1 with (inject_Z 1). rewrite <- Zle_Qle. lia. }
  assert (HN : inject_Z a <= inject_Z n) by (rewrite <- Zle_Qle; lia).
  assert (HM : inject_Z n <= 4294967296).
  { change 4294967296 with (inject_Z (2 ^ 32)). rewrite <- Zle_Qle. lia. }
  assert (E : q * inject_Z n == inject_Z a) by (unfold q; field; lra).
  set (N := inject_Z n) in *. set (A := inject_Z a) in *.
  split.
  - apply Qnot_lt_le. intros C.
    assert (q * N < (1 # 4294967296) * N) by (apply Qmult_lt_compat_r; lra).
    lra.
  - apply Qnot_lt_le. intros C.
    assert (1 * N < q * N) by (apply Qmult_lt_compat_r; lra).
    lra.
Qed.

Definition eps64 : Q := 2 ^ (- prec binary64).
Definition eps32 : Q := 2 ^ (- prec binary32).

Lemma round64_relative (x : Q) :
  (1 # 8589934592) <= x ->
  x * (1 - eps64) <= round binary64 x /\ round binary64 x <= x * (1 + eps64).
Proof.
  intros Hx. assert (H0 : 0 < x) by lra.
  apply round_relative; [assumption |].
  assert (M : (-33 < mag x)%Z).
  { apply mag_lower; [assumption |].
    change (2 ^ (-33)) with (1 # 8589934592). assumption. }
  change (emin binary64) with (-1074)%Z. change (prec binary64) with 53%Z.
  lia.
Qed.

(** The product [(i+1)/n*100] of double-precision arithmetic is within
    [300 * 2^-53] of the quotient [(i+1)*100/n]. *)
Lemma scaled_near (i n : Z) :
  (0 <= i < n)%Z -> (n <= 2 ^ 32)%Z ->
  let X := inject_Z ((i + 1) * 100) / inject_Z n in
  X - 300 * eps64 <= Arith.scaled i n /\ Arith.scaled i n <= X + 300 * eps64.
Proof.
  intros Hi Hn X.
  destruct (ratio_bounds (i + 1) n ltac:(lia) Hn) as [Q1 Q2].
  unfold Arith.scaled, float_mul_int, int_truediv.
  set (q := inject_Z (i + 1) / inject_Z n) in *.
  assert (EX : X == q * 100).
  { unfold X, q. rewrite inject_Z_mult. change (inject_Z 100) with 100.
    field. assert (0 < inject_Z n); [| lra].
    change 0 with (inject_Z 0). rewrite <- Zlt_Qlt. lia. }
  destruct (round64_relative q ltac:(lra)) as [R1 R2].
  set (r1 := round binary64 q) in *.
  assert (E : 0 < eps64 /\ eps64 <= 1 # 1000).
  { split; [apply pow2_pos | vm_compute; discriminate]. }
  destruct E as [E0 E1]. set (e := eps64) in *.
  assert (P1 : (1 # 8589934592) <= r1 * inject_Z 100).
  { change (inject_Z 100) with 100. nra. }
  destruct (round64_relative (r1 * inject_Z 100) P1) as [S1 S2].
  set (r2 := round binary64 (r1 * inject_Z 100)) in *.
  change (inject_Z 100) with 100 in S1, S2. fold e in S1, S2.
  rewrite EX.
  assert (B1 : q * (1 - e) * (1 - e) <= r1 * (1 - e)).
  { apply Qmult_le_compat_r; lra. }
  assert (B2 : r1 * (1 + e) <= q * (1 + e) * (1 + e)).
  { apply Qmult_le_compat_r; lra. }
  assert (C1 : q * e <= 1 * e) by (apply Qmult_le_compat_r; lra).
  assert (C2 : 0 <= q * e) by (apply Qmult_le_0_compat; lra).
  assert (C3 : q * e * e <= 1 * e * e).
  { apply Qmult_le_compat_r; lra. }
  assert (C4 : 0 <= q * e * e) by (apply Qmult_le_0_compat; lra).
  assert (C5 : e * e <= 1 * e) by (apply Qmult_le_compat_r; lra).
  assert (F1 : q * (1 - e) * (1 - e) == q - 2 * (q * e) + q * e * e) by ring.
  assert (F2 : q * (1 + e) * (1 + e) == q + 2 * (q * e) + q * e * e) by ring.
  assert (G1 : r1 * 100 * (1 - e) == 100 * (r1 * (1 - e))) by ring.
  assert (G2 : r1 * 100 * (1 + e) == 100 * (r1 * (1 + e))) by ring.
  rewrite G1 in S1. rewrite G2 in S2. rewrite F1 in B1. rewrite F2 in B2.
  rewrite Qmult_1_l in C1, C3, C5.
  clear - S1 S2 B1 B2 C1 C2 C3 C4 C5 E0.
  generalize dependent (r1 * (1 - e)). generalize dependent (r1 * (1 + e)).
  generalize dependent (q * e * e). generalize dependent (q * e).
  generalize dependent (e * e). clearbody r2 e q.
  intros ee C5 qe C1 C2 qee C3 C4 b B2 S2 a B1 S1.
  split; lra.
Qed.

(** [int((i+1)/n*100)] is the floor of the quotient [(i+1)*100/n], or one
    less; it is the floor whenever the quotient is not an integer. *)
Lemma percent_floor_or_below (i n : Z) :
  (0 <= i < n)%Z -> (n <= 2 ^ 32)%Z ->
  let fl := ((i + 1) * 100 / n)%Z in
  (fl - 1 <= percent i n <= fl)%Z
  /\ ((((i + 1) * 100) mod n <> 0)%Z -> percent i n = fl).
Proof.
  intros Hi Hn fl.
  rewrite Arith.percent_floor by lia.
  destruct (scaled_near i n Hi Hn) as [S1 S2]. cbv zeta in S1, S2.
  set (S := Arith.scaled i n) in *.
  set (A := ((i + 1) * 100)%Z) in *.
  pose proof (Z.div_mod A n ltac:(lia)) as D.
  pose proof (Z.mod_pos_bound A n ltac:(lia)) as [T0 T1].
  fold fl in D. set (t := (A mod n)%Z) in *.
  assert (HN1 : 1 <= inject_Z n).
  { change 1 with (inject_Z 1). rewrite <- Zle_Qle. lia. }
  assert (HN2 : inject_Z n <= 4294967296).
  { change 4294967296 with (inject_Z (2 ^ 32)). rewrite <- Zle_Qle. lia. }
  assert (HT0 : 0 <= inject_Z t).
  { change 0 with (inject_Z 0). rewrite <- Zle_Qle. lia. }
  assert (HT1 : inject_Z t <= inject_Z n - 1).
  { change 1 with (inject_Z 1). unfold Qminus.
    rewrite <- inject_Z_opp, <- inject_Z_plus, <- Zle_Qle. lia. }
  assert (EX : inject_Z A / inject_Z n * inject_Z n
               == inject_Z fl * inject_Z n + inject_Z t).
  { rewrite D at 1. rewrite inject_Z_plus, inject_Z_mult. field. lra. }
  set (X := inject_Z A / inject_Z n) in *.
  set (N := inject_Z n) in *. set (K := inject_Z fl) in *.
  set (T := inject_Z t) in *.
  assert (E : 0 < eps64 /\ 300 * eps64 * 4294967296 < 1).
  { split; [apply pow2_pos | vm_compute; reflexivity]. }
  destruct E as [E0 E1]. set (e := eps64) in *.
  assert (DN : 300 * e * N < 1) by nra.
  assert (L0 : K - 1 <= S) by nra.
  assert (U0 : S < K + 1).
  { apply Qnot_le_lt. intros C.
    assert ((K + 1) * N <= S * N) by (apply Qmult_le_compat_r; lra).
    assert (S * N <= (X + 300 * e) * N) by (apply Qmult_le_compat_r; lra).
    lra. }
  assert (LO : (fl - 1 <= Qfloor S)%Z).
  { rewrite <- (Qfloor_Z (fl - 1)). apply Qfloor_resp_le.
    unfold Z.sub. rewrite inject_Z_plus. exact L0. }
  assert (UP : (Qfloor S <= fl)%Z).
  { pose proof (Qfloor_le S) as F.
    assert (G : inject_Z (Qfloor S) < inject_Z (fl + 1)).
    { rewrite inject_Z_plus. change (inject_Z 1) with 1. fold K. lra. }
    rewrite <- Zlt_Qlt in G. lia. }
  split; [split; assumption |].
  intros Ht. apply Z.le_antisymm; [assumption |].
  rewrite <- (Qfloor_Z fl). apply Qfloor_resp_le. fold K.
  assert (HT : 1 <= T).
  { change 1 with (inject_Z 1). unfold T. rewrite <- Zle_Qle. lia. }
  apply Qnot_lt_le. intros C.
  assert (S * N < K * N) by (apply Qmult_lt_compat_r; lra).
  assert ((X - 300 * e) * N <= S * N) by (apply Qmult_le_compat_r; lra).
  lra.
Qed.

(** The normalization keeps the order of the 16-bit samples strict: two
    levels never fall on the same [float32]. *)
Lemma normalize_lt (s t : Z) :
  (0 <= s < t)%Z -> (t <= 65535)%Z -> normalize s < normalize t.
Proof.
  intros Hs Ht.
  rewrite (Arith.normalize_eq s), (Arith.normalize_eq t) by lia.
  assert (HS : 0 <= inject_Z s).
  { change 0 with (inject_Z 0). rewrite <- Zle_Qle. lia. }
  assert (HST : inject_Z s + 1 <= inject_Z t).
  { change 1 with (inject_Z 1). rewrite <- inject_Z_plus, <- Zle_Qle. lia. }
  assert (HT : inject_Z t <= 65535).
  { change 65535 with (inject_Z 65535). rewrite <- Zle_Qle. lia. }
  change (inject_Z 65535) with 65535.
  set (S := inject_Z s) in *. set (T := inject_Z t) in *.
  assert (ET : T / 65535 * 65535 == T) by (field; lra).
  assert (ES : S / 65535 * 65535 == S) by (field; lra).
  assert (NT : forall x, (1 # 65536) <= x ->
               x * (1 - eps32) <= round binary32 x
               /\ round binary32 x <= x * (1 + eps32)).
  { intros x Hx. apply round_relative; [lra |].
    assert (M : (-16 < mag x)%Z).
    { apply mag_lower; [lra |]. change (2 ^ (-16)) with (1 # 65536).
      assumption. }
    change (emin binary32) with (-149)%Z. change (prec binary32) with 24%Z.
    lia. }
  assert (E : 0 < eps32 /\ eps32 * 131070 < 1).
  { split; [apply pow2_pos | vm_compute; reflexivity]. }
  destruct E as [E0 E1]. set (e := eps32) in *.
  destruct (NT (T / 65535) ltac:(lra)) as [T1 _].
  destruct (Qlt_le_dec 0 S) as [S0 | S0].
  - assert (S1 : 1 <= S).
    { change 1 with (inject_Z 1). unfold S. rewrite <- Zle_Qle.
      unfold S in S0. change 0 with (inject_Z 0) in S0.
      rewrite <- Zlt_Qlt in S0. lia. }
    destruct (NT (S / 65535) ltac:(lra)) as [_ S2].
    set (x := S / 65535) in *. set (y := T / 65535) in *.
    assert (x * (1 + e) < y * (1 - e)); [| lra].
    assert (65535 * (x * (1 + e)) < 65535 * (y * (1 - e))); [nra | lra].
  - rewrite (round_0 binary32 (S / 65535)).
    + set (y := T / 65535) in *. assert (0 < y * (1 - e)); [nra | lra].
    + assert (S == 0) by lra. set (c := 65535) in *.
      unfold Qdiv. rewrite H. ring.
Qed.

End Rounding.

(* ===================================================================== *)
(** * Single-mode jobs *)
(* ===================================================================== *)

Module PosixFacts.

Import Str.

Lemma rfind_from_absent (c : ascii) (s : string) :
  contains c s = false -> forall i last, rfind_from c s i last = last.
Proof.
  induction s as [| a s IH]; intros H i last; [reflexivity |].
  simpl in H. apply orb_false_iff in H as [Ha H].
  simpl. rewrite Ha. apply IH. exact H.
Qed.

Lemma slice_to_0 (s : string) : slice_to s (-1 + 1) = EmptyString.
Proof.
  unfold slice_to, bound, len. change (-1 + 1)%Z with 0%Z. cbn [Z.ltb Z.compare].
  rewrite Z.max_id, Z.min_r by lia. destruct s; reflexivity.
Qed.

(** A text without a separator has no directory part. *)
Lemma dirname_bare (s : string) :
  contains sep s = false -> posixpath.dirname s = EmptyString.
Proof.
  intros H. unfold posixpath.dirname, rfind.
  rewrite (rfind_from_absent sep s H). rewrite slice_to_0. reflexivity.
Qed.

End PosixFacts.

Section SingleJobs.

Import Resolution.

Variable rawpy_postprocess : FS.t -> string -> result ndarray.
Variable OpenEXR_write : FS.t -> exr_image -> FS.t * option exn.
Variable cancel_requested : nat -> bool.

Local Abbreviation rw2_to_exr :=
  (ConversionThread.rw2_to_exr rawpy_postprocess OpenEXR_write).
Local Abbreviation run :=
  (ConversionThread.run rawpy_postprocess OpenEXR_write cancel_requested).

(** The signals of a single-mode job whose output path is settled: the
    start at 0 percent; then the success at 100 percent and the successful
    completion when [rw2_to_exr] returns, or the error at 0 percent and
    the failed completion with the same text when it raises. The
    converter is called once, and the job leaves the file system as the
    converter left it. *)
Theorem single_job_signals (self : ConversionThread) (f : FS.t)
    (output_file : pathlib.PurePath) :
  is_batch self = false ->
  resolve_output self f = (f, no_log, inr output_file) ->
  let input_file := pathlib.Path (input_path self) in
  let r := rw2_to_exr (pathlib.str input_file) (pathlib.str output_file) f in
  signals (run self f) =
    progress_updated 0 ("Converting " +:+ pathlib.name input_file +:+ "...")
    :: match snd r with
       | inr _ =>
           [progress_updated 100
              ("Successfully converted to " +:+ pathlib.str output_file);
            completed]
       | inl e => [progress_updated 0 ("Error: " +:+ str_exn e); failed e]
       end
  /\ calls (run self f)
     = [(pathlib.str input_file, pathlib.str output_file)]
  /\ final_fs (run self f) = final_fs r.
Proof.
  intros Hb Hr input_file r.
  rewrite (run_eq rawpy_postprocess OpenEXR_write), Hb.
  rewrite (convert_single_eq rawpy_postprocess OpenEXR_write), Hr.
  cbn zeta. fold input_file. subst r.
  destruct (rw2_to_exr_spec rawpy_postprocess OpenEXR_write
              (pathlib.str input_file) (pathlib.str output_file) f)
    as (f' & enc & r & -> & _).
  destruct r as [e | []]; repeat split; reflexivity.
Qed.

(** With no output given, the output is the input with [.exr] for its
    suffix. *)
Lemma resolve_output_default (self : ConversionThread) (f : FS.t) :
  output_path self = EmptyString ->
  resolve_output self f =
    (f, no_log,
     match pathlib.with_suffix (pathlib.Path (input_path self)) ".exr" with
     | inl e => inl e
     | inr p => inr p
     end).
Proof.
  intros H. unfold resolve_output. rewrite H. cbn [Str.truthy negb].
  destruct (pathlib.with_suffix _ _); reflexivity.
Qed.

(** A single-mode job that is given a bare file name and no output
    resolves the output to a bare file name too, and fails: it emits the
    start, the error and the failed completion, and the file system is as
    it was; when the decoder returns, the error is that of making the
    directory of the empty path. *)
Theorem single_job_bare_input (self : ConversionThread) (f : FS.t) :
  is_batch self = false ->
  output_path self = EmptyString ->
  PathFacts.file_name (input_path self) ->
  exists cause,
    let msg :=
      "Error: Failed to convert " +:+ input_path self +:+ ": " +:+ cause in
    run self f =
      (f,
       {| emitted :=
            [progress_updated 0 ("Converting " +:+ input_path self +:+ "...");
             progress_updated 0 msg;
             conversion_finished false msg];
          converted :=
            [(input_path self,
              pathlib.stem (pathlib.Path (input_path self)) +:+ ".exr")];
          encoded := [] |},
       inr tt)
    /\ (forall rgb, rawpy_postprocess f (input_path self) = inr rgb ->
        cause = "[Errno 2] No such file or directory: ''").
Proof.
  intros Hb Ho Hn.
  pose proof (Path_file_name _ Hn) as EP.
  assert (Nm : pathlib.name (pathlib.Path (input_path self)) = input_path self)
    by (rewrite EP; reflexivity).
  assert (St : pathlib.str (pathlib.Path (input_path self)) = input_path self).
  { rewrite EP. unfold pathlib.str. cbn.
    destruct Hn as (T & _). destruct (input_path self); [discriminate |].
    reflexivity. }
  pose proof (exr_name_file_name (input_path self)) as He.
  set (out := exr_name (pathlib.Path (input_path self))) in *.
  assert (Hr : resolve_output self f =
               (f, no_log,
                inr {| pathlib.root := EmptyString; pathlib.parts := [out] |})).
  { rewrite (resolve_output_default self f Ho), with_suffix_exr.
    - unfold out. rewrite EP. reflexivity.
    - rewrite Nm. destruct Hn as (T & _).
      destruct (input_path self); discriminate. }
  assert (So : pathlib.str {| pathlib.root := EmptyString;
                              pathlib.parts := [out] |} = out).
  { unfold pathlib.str. cbn. destruct He as (T & _).
    destruct out; [discriminate | reflexivity]. }
  assert (Hd : posixpath.dirname out = EmptyString).
  { apply PosixFacts.dirname_bare, He. }
  exists (bare_output_cause rawpy_postprocess (input_path self) f).
  split.
  - rewrite (run_eq rawpy_postprocess OpenEXR_write), Hb.
    rewrite (convert_single_eq rawpy_postprocess OpenEXR_write), Hr.
    cbn zeta. rewrite So, St, Nm.
    rewrite (rw2_to_exr_bare_output rawpy_postprocess OpenEXR_write _ _ f Hd).
    rewrite Nm. reflexivity.
  - intros rgb Hdec. unfold bare_output_cause. rewrite Hdec. reflexivity.
Qed.

(** A single-mode job whose input path has no name ([.], [/] or the empty
    text) and which is given no output emits no progress signal and calls
    no converter: it fails with the [ValueError] of [with_suffix]. *)
Theorem single_job_nameless_input (self : ConversionThread) (f : FS.t) :
  is_batch self = false ->
  output_path self = EmptyString ->
  pathlib.name (pathlib.Path (input_path self)) = EmptyString ->
  run self f =
    (f,
     {| emitted :=
          [conversion_finished false
             ("Error: " +:+ pathlib.repr (pathlib.Path (input_path self))
              +:+ " has an empty name")];
        converted := []; encoded := [] |},
     inr tt).
Proof.
  intros Hb Ho Hn.
  rewrite (run_eq rawpy_postprocess OpenEXR_write), Hb.
  rewrite (convert_single_eq rawpy_postprocess OpenEXR_write).
  rewrite (resolve_output_default self f Ho).
  unfold pathlib.with_suffix. rewrite Hn. reflexivity.
Qed.

End SingleJobs.

(* ===================================================================== *)
(** * The names of the output files of a batch *)
(* ===================================================================== *)

Module Outputs.

Import Str pathlib Resolution.
Local Open Scope string_scope.

Lemma rfind_from_append (c : ascii) (s t : string) :
  forall i last,
    rfind_from c (s +:+ t) i last =
    rfind_from c t (i + len s)%Z (rfind_from c s i last).
Proof.
  induction s as [| a s IH]; intros i last.
  - rewrite PathFacts.app_nil. unfold len. simpl. f_equal. lia.
  - rewrite PathFacts.app_cons. simpl. rewrite IH. f_equal.
    unfold len. simpl String.length. lia.
Qed.

(** The last dot of [base.ext] is the one before [ext]. *)
Lemma rfind_dot_ext (base ext : string) :
  contains dot ext = false ->
  rfind dot (base +:+ String dot ext) = len base.
Proof.
  intros H. unfold rfind. rewrite rfind_from_append. simpl.
  rewrite (PosixFacts.rfind_from_absent dot ext H). lia.
Qed.

Lemma take_append (s t : string) : take (String.length s) (s +:+ t) = s.
Proof.
  induction s as [| a s IH]; [destruct t; reflexivity |].
  rewrite PathFacts.app_cons. simpl. rewrite IH. reflexivity.
Qed.

(** The stem of a name [base.ext], where [base] is not empty and [ext] is
    not empty and holds no dot, is [base]. *)
Lemma stem_ext (p : PurePath) (base ext : string) :
  base <> EmptyString -> ext <> EmptyString -> contains dot ext = false ->
  stem (make_child_relpath p (base +:+ String dot ext)) = base.
Proof.
  intros Hb He Hd. unfold stem. rewrite PathFacts.name_child.
  rewrite (rfind_dot_ext base ext Hd).
  assert (L : len (base +:+ String dot ext) = (len base + 1 + len ext)%Z).
  { unfold len. rewrite length_append. simpl String.length. lia. }
  assert (B : (0 < len base)%Z).
  { unfold len. destruct base; [contradiction | simpl; lia]. }
  assert (E : (0 < len ext)%Z).
  { unfold len. destruct ext; [contradiction | simpl; lia]. }
  replace ((0 <? len base)%Z) with true by (symmetry; apply Z.ltb_lt; lia).
  replace ((len base <? len (base +:+ String dot ext) - 1)%Z) with true
    by (symmetry; apply Z.ltb_lt; lia).
  cbn [andb]. unfold slice_to, bound.
  replace (len base <? 0)%Z with false by (symmetry; apply Z.ltb_ge; lia).
  rewrite L. replace (Z.to_nat _) with (String.length base)
    by (unfold len; lia).
  apply take_append.
Qed.

(** The raw files [base.RW2] and [base.rw2] of a batch are written to the
    same output file, [base.exr] in the output directory: the later
    conversion replaces what the earlier one wrote. *)
Theorem same_stem_same_output (output_dir input_dir : PurePath)
    (base : string) :
  base <> EmptyString -> contains sep base = false ->
  output_file_of output_dir (make_child_relpath input_dir (base +:+ ".RW2"))
    = make_child_relpath output_dir (base +:+ ".exr")
  /\ output_file_of output_dir
       (make_child_relpath input_dir (base +:+ ".rw2"))
     = make_child_relpath output_dir (base +:+ ".exr").
Proof.
  intros Hb Hs.
  assert (F : PathFacts.file_name (base +:+ ".exr")).
  { repeat split.
    - apply PathFacts.truthy_append_r. reflexivity.
    - intros E. apply (f_equal String.length) in E.
      rewrite length_append in E. simpl in E. lia.
    - rewrite contains_append, Hs. reflexivity. }
  unfold output_file_of.
  change (base +:+ ".RW2") with (base +:+ String dot "RW2").
  change (base +:+ ".rw2") with (base +:+ String dot "rw2").
  rewrite (stem_ext input_dir base "RW2"), (stem_ext input_dir base "rw2")
    by (assumption || discriminate || reflexivity).
  rewrite (truediv_file_name _ _ F). split; reflexivity.
Qed.

(** The two patterns of the search match different names. *)
Lemma patterns_disjoint (s : string) :
  fnmatch "*.RW2" s = true -> fnmatch "*.rw2" s = true -> False.
Proof.
  intros H1 H2.
  apply Discovery.fnmatch_star_literal in H1 as [t1 E1]; [| reflexivity].
  apply Discovery.fnmatch_star_literal in H2 as [t2 E2]; [| reflexivity].
  subst s. revert t2 E2. induction t1 as [| a t1 IH]; intros t2 E.
  - destruct t2 as [| b [| b1 [| b2 [| b3 t2]]]]; cbn in E; try discriminate.
    all: repeat (rewrite PathFacts.app_cons in E); try discriminate.
    injection E as _ _ _ _ E'. destruct t2; discriminate.
  - destruct t2 as [| b t2].
    + rewrite PathFacts.app_nil, PathFacts.app_cons in E.
      destruct t1 as [| a1 [| a2 [| a3 t1]]]; cbn in E; try discriminate.
      all: repeat (rewrite PathFacts.app_cons in E); try discriminate.
      injection E as _ _ _ _ E'. destruct t1; discriminate.
    + rewrite !PathFacts.app_cons in E. injection E as _ E.
      apply (IH t2 E).
Qed.

End Outputs.

Module Once.

Import Str pathlib.

Lemma child_inj (d : PurePath) (a b : string) :
  make_child_relpath d a = make_child_relpath d b -> a = b.
Proof.
  unfold make_child_relpath. intros [= E].
  apply app_inv_head in E. congruence.
Qed.

Lemma NoDup_children (d : PurePath) (p : string -> bool)
    (names : list string) :
  List.NoDup names ->
  List.NoDup (List.map (make_child_relpath d) (List.filter p names)).
Proof.
  induction names as [| a names IH]; intros H; [constructor |].
  inversion H as [| ? ? Ha Hn]; subst. simpl.
  destruct (p a); [| apply IH; exact Hn].
  simpl. constructor; [| apply IH; exact Hn].
  intros C. apply in_map_iff in C as (b & E & Hb).
  apply child_inj in E. subst b. apply filter_In in Hb as [Hb _].
  contradiction.
Qed.

Lemma NoDup_append {A} (l k : list A) :
  List.NoDup l -> List.NoDup k -> (forall x, In x l -> In x k -> False) ->
  List.NoDup (l ++ k).
Proof.
  induction l as [| a l IH]; intros Hl Hk D; [exact Hk |].
  inversion Hl as [| ? ? Ha Hl']; subst. simpl. constructor.
  - intros C. apply in_app_iff in C as [C | C]; [contradiction |].
    apply (D a); [left; reflexivity | exact C].
  - apply IH; [assumption | assumption |].
    intros x H1 H2. apply (D x); [right; exact H1 | exact H2].
Qed.

(** A batch finds no file twice: when the names of the entries of the
    input directory are distinct, so are the files of the search, although
    it runs two patterns over the same directory. *)
Theorem discovered_once (f : FS.t) (d : PurePath) :
  (forall names, FS.scandir f (str d) = inr names -> List.NoDup names) ->
  List.NoDup (rw2_files f d).
Proof.
  intros H. unfold rw2_files. apply NoDup_append.
  - unfold Path.matches. destruct (FS.isdir f (str d)); [| constructor].
    destruct (FS.scandir f (str d)) as [e | names]; [constructor |].
    apply NoDup_children, H. reflexivity.
  - unfold Path.matches. destruct (FS.isdir f (str d)); [| constructor].
    destruct (FS.scandir f (str d)) as [e | names]; [constructor |].
    apply NoDup_children, H. reflexivity.
  - intros x H1 H2.
    apply PathFSFacts.matches_child in H1 as (n1 & e1 & _ & _ & M1 & ->).
    apply PathFSFacts.matches_child in H2 as (n2 & e2 & _ & _ & M2 & E).
    apply child_inj in E. subst e2.
    exact (Outputs.patterns_disjoint e1 M1 M2).
Qed.

End Once.

(* ===================================================================== *)
(** * The window *)
(* ===================================================================== *)

(** [RW2ToEXRApp]: the state of the widgets that its slots read and
    write. The two radio buttons are exclusive, so that one flag stands
    for both; a message box is recorded when it is shown. *)

Inductive icon := Information | Warning | Critical.

Record message_box := { box_icon : icon; box_title : string; box_text : string }.

(** The [ConversionThread] of the window and its [cancel_requested]. *)
Record worker := { job : ConversionThread; cancel_flag : bool }.

Record RW2ToEXRApp := {
  batch_checked : bool;
  input_text : string;
  output_text : string;
  progress_visible : bool;
  progress_value : Z;
  status_text : string;
  convert_enabled : bool;
  cancel_enabled : bool;
  conversion_thread : option worker;
  boxes : list message_box
}.

Module RW2ToEXRApp.

Local Open Scope string_scope.

(** [__init__]. *)
Definition init : RW2ToEXRApp :=
  {| batch_checked := false; input_text := ""; output_text := "";
     progress_visible := false; progress_value := -1;
     status_text := "Ready";
     convert_enabled := true; cancel_enabled := false;
     conversion_thread := None; boxes := [] |}.

(** [QProgressBar.setValue] with the range 0 to 100 of a new bar: a value
    out of the range is ignored. *)
Definition setValue (value : Z) (w : RW2ToEXRApp) : RW2ToEXRApp :=
  if ((0 <=? value) && (value <=? 100))%Z then
    {| batch_checked := batch_checked w; input_text := input_text w;
       output_text := output_text w; progress_visible := progress_visible w;
       progress_value := value; status_text := status_text w;
       convert_enabled := convert_enabled w;
       cancel_enabled := cancel_enabled w;
       conversion_thread := conversion_thread w; boxes := boxes w |}
  else w.

Definition show_box (b : message_box) (w : RW2ToEXRApp) : RW2ToEXRApp :=
  {| batch_checked := batch_checked w; input_text := input_text w;
     output_text := output_text w; progress_visible := progress_visible w;
     progress_value := progress_value w; status_text := status_text w;
     convert_enabled := convert_enabled w;
     cancel_enabled := cancel_enabled w;
     conversion_thread := conversion_thread w; boxes := boxes w ++ [b] |}.

(** [select_input] and [select_output], for the path the dialog returns
    (empty when it is dismissed). *)
Definition select_input (path : string) (w : RW2ToEXRApp) : RW2ToEXRApp :=
  if Str.truthy path then
    {| batch_checked := batch_checked w; input_text := path;
       output_text := output_text w; progress_visible := progress_visible w;
       progress_value := progress_value w; status_text := status_text w;
       convert_enabled := convert_enabled w;
       cancel_enabled := cancel_enabled w;
       conversion_thread := conversion_thread w; boxes := boxes w |}
  else w.

Definition select_output (path : string) (w : RW2ToEXRApp) : RW2ToEXRApp :=
  if Str.truthy path then
    {| batch_checked := batch_checked w; input_text := input_text w;
       output_text := path; progress_visible := progress_visible w;
       progress_value := progress_value w; status_text := status_text w;
       convert_enabled := convert_enabled w;
       cancel_enabled := cancel_enabled w;
       conversion_thread := conversion_thread w; boxes := boxes w |}
  else w.

(** [start_conversion], up to the start of the thread. *)
Definition start_conversion (w : RW2ToEXRApp) : RW2ToEXRApp :=
  if negb (Str.truthy (input_text w)) then
    show_box {| box_icon := Warning; box_title := "Warning";
            box_text := "Please select an input file/directory" |} w
  else
    let w :=
      {| batch_checked := batch_checked w; input_text := input_text w;
         output_text := output_text w; progress_visible := true;
         progress_value := progress_value w; status_text := status_text w;
         convert_enabled := false; cancel_enabled := true;
         conversion_thread := conversion_thread w; boxes := boxes w |} in
    let w := setValue 0 w in
    {| batch_checked := batch_checked w; input_text := input_text w;
       output_text := output_text w; progress_visible := progress_visible w;
       progress_value := progress_value w; status_text := status_text w;
       convert_enabled := convert_enabled w;
       cancel_enabled := cancel_enabled w;
       conversion_thread :=
         Some {| job := {| input_path := input_text w;
                           output_path := output_text w;
                           is_batch := batch_checked w |};
                 cancel_flag := false |};
       boxes := boxes w |}.

Definition update_progress (value : Z) (message : string) (w : RW2ToEXRApp)
  : RW2ToEXRApp :=
  let w := setValue value w in
  {| batch_checked := batch_checked w; input_text := input_text w;
     output_text := output_text w; progress_visible := progress_visible w;
     progress_value := progress_value w; status_text := message;
     convert_enabled := convert_enabled w;
     cancel_enabled := cancel_enabled w;
     conversion_thread := conversion_thread w; boxes := boxes w |}.

Definition conversion_done (success : bool) (message : string)
    (w : RW2ToEXRApp) : RW2ToEXRApp :=
  let w :=
    {| batch_checked := batch_checked w; input_text := input_text w;
       output_text := output_text w; progress_visible := progress_visible w;
       progress_value := progress_value w; status_text := status_text w;
       convert_enabled := true; cancel_enabled := false;
       conversion_thread := conversion_thread w; boxes := boxes w |} in
  if success then
    show_box {| box_icon := Information; box_title := "Success";
            box_text := message |} w
  else
    show_box {| box_icon := Critical; box_title := "Error";
            box_text := message |} w.

(** [cancel_conversion], where [is_running] is what
    [self.conversion_thread.isRunning()] returns. *)
Definition cancel_conversion (is_running : bool) (w : RW2ToEXRApp)
  : RW2ToEXRApp :=
  match conversion_thread w with
  | Some t =>
      if is_running then
        {| batch_checked := batch_checked w; input_text := input_text w;
           output_text := output_text w;
           progress_visible := progress_visible w;
           progress_value := progress_value w;
           status_text := "Cancelling...";
           convert_enabled := convert_enabled w;
           cancel_enabled := false;
           conversion_thread :=
             Some {| job := job t; cancel_flag := true |};
           boxes := boxes w |}
      else w
  | None => w
  end.

(** What happens in the window: a signal of the thread reaches its slot,
    or the user acts. *)
Inductive action :=
| Deliver (ev : event)
| ClickCancel (is_running : bool)
| ClickConvert
| ChooseInput (path : string)
| ChooseOutput (path : string)
| CheckBatch (checked : bool).

Definition deliver (ev : event) (w : RW2ToEXRApp) : RW2ToEXRApp :=
  match ev with
  | progress_updated value message => update_progress value message w
  | conversion_finished success message => conversion_done success message w
  end.

Definition set_batch (checked : bool) (w : RW2ToEXRApp) : RW2ToEXRApp :=
  {| batch_checked := checked; input_text := input_text w;
     output_text := output_text w; progress_visible := progress_visible w;
     progress_value := progress_value w; status_text := status_text w;
     convert_enabled := convert_enabled w;
     cancel_enabled := cancel_enabled w;
     conversion_thread := conversion_thread w; boxes := boxes w |}.

Definition step (w : RW2ToEXRApp) (a : action) : RW2ToEXRApp :=
  match a with
  | Deliver ev => deliver ev w
  | ClickCancel is_running => cancel_conversion is_running w
  | ClickConvert => start_conversion w
  | ChooseInput path => select_input path w
  | ChooseOutput path => select_output path w
  | CheckBatch checked => set_batch checked w
  end.

Definition steps (w : RW2ToEXRApp) (acts : list action) : RW2ToEXRApp :=
  fold_left step acts w.

(** The signals among the actions, in their order. *)
Fixpoint delivered (acts : list action) : list event :=
  match acts with
  | [] => []
  | Deliver ev :: rest => ev :: delivered rest
  | _ :: rest => delivered rest
  end.

(** The actions that start no job: deliveries and clicks on Cancel. *)
Definition during_job (a : action) : Prop :=
  match a with
  | Deliver _ | ClickCancel _ => True
  | _ => False
  end.

End RW2ToEXRApp.

Section Window.

Import RW2ToEXRApp.

Variable rawpy_postprocess : FS.t -> string -> result ndarray.
Variable OpenEXR_write : FS.t -> exr_image -> FS.t * option exn.
Variable cancel_requested : nat -> bool.

Local Abbreviation run :=
  (ConversionThread.run rawpy_postprocess OpenEXR_write cancel_requested).

(** The job that [start_conversion] makes of the window. *)
Definition job_of (w : RW2ToEXRApp) : ConversionThread :=
  {| input_path := input_text w; output_path := output_text w;
     is_batch := batch_checked w |}.

(** The message box of [conversion_done]. *)
Definition result_box (success : bool) (message : string) : message_box :=
  if success then
    {| box_icon := Information; box_title := "Success"; box_text := message |}
  else
    {| box_icon := Critical; box_title := "Error"; box_text := message |}.

(** What a signal of progress or a click on Cancel leaves as it is. *)
Definition same_job (w w' : RW2ToEXRApp) : Prop :=
  boxes w' = boxes w
  /\ convert_enabled w' = convert_enabled w
  /\ progress_visible w' = progress_visible w
  /\ option_map job (conversion_thread w') = option_map job (conversion_thread w)
  /\ (cancel_enabled w = false -> cancel_enabled w' = false).

Lemma same_job_refl (w : RW2ToEXRApp) : same_job w w.
Proof. repeat split; auto. Qed.

Lemma same_job_trans (a b c : RW2ToEXRApp) :
  same_job a b -> same_job b c -> same_job a c.
Proof.
  intros (A1 & A2 & A3 & A4 & A5) (B1 & B2 & B3 & B4 & B5).
  repeat split; try congruence. auto.
Qed.

Lemma update_progress_same (value : Z) (message : string)
    (w : RW2ToEXRApp) :
  same_job w (update_progress value message w).
Proof.
  unfold update_progress, setValue.
  destruct (_ && _); repeat split; auto.
Qed.

Lemma cancel_conversion_same (is_running : bool) (w : RW2ToEXRApp) :
  same_job w (cancel_conversion is_running w).
Proof.
  unfold cancel_conversion.
  destruct (conversion_thread w) as [t |] eqn:E; [| apply same_job_refl].
  destruct is_running; [| apply same_job_refl].
  repeat split; cbn; auto. rewrite E. reflexivity.
Qed.

(** Clicks on Cancel after the last signal. *)
Lemma clicks_same (acts : list action) :
  forall w,
    Forall during_job acts -> delivered acts = [] ->
    same_job w (steps w acts).
Proof.
  induction acts as [| a acts IH]; intros w Ha Hd; [apply same_job_refl |].
  inversion Ha as [| ? ? Ha1 Ha2]; subst.
  destruct a; try contradiction; cbn in Hd; [discriminate |].
  cbn [steps fold_left step].
  eapply same_job_trans; [apply cancel_conversion_same |].
  apply IH; assumption.
Qed.

Lemma job_delivered (acts : list action) :
  forall w progress success message,
    Forall during_job acts ->
    delivered acts = progress ++ [conversion_finished success message] ->
    Forall is_progress progress ->
    let w' := steps w acts in
    boxes w' = boxes w ++ [result_box success message]
    /\ convert_enabled w' = true
    /\ cancel_enabled w' = false
    /\ progress_visible w' = progress_visible w
    /\ option_map job (conversion_thread w')
       = option_map job (conversion_thread w).
Proof.
  induction acts as [| a acts IH]; intros w progress success message Ha Hd Hp.
  { destruct progress; discriminate. }
  inversion Ha as [| ? ? Ha1 Ha2]; subst.
  destruct a as [ev | r | | | |]; try contradiction; cbn in Hd.
  - destruct progress as [| p ps].
    + injection Hd as -> Hd.
      destruct (clicks_same acts
                  (conversion_done success message w) Ha2 Hd)
        as (B1 & B2 & B3 & B4 & B5).
      cbn [steps fold_left step deliver]. fold (steps (conversion_done success message w) acts).
      rewrite B1, B2, B3, B4, B5;
        unfold conversion_done, result_box; destruct success;
        repeat split; reflexivity.
    + injection Hd as -> Hd. inversion Hp as [| ? ? Hp1 Hp2]; subst.
      destruct p as [value msg | ? ?]; [| contradiction].
      destruct (update_progress_same value msg w) as (B1 & B2 & B3 & B4 & _).
      destruct (IH (update_progress value msg w) ps success message
                  Ha2 Hd Hp2) as (C1 & C2 & C3 & C4 & C5).
      cbn [steps fold_left step deliver].
      fold (steps (update_progress value msg w) acts).
      repeat split; congruence.
  - destruct (cancel_conversion_same r w) as (B1 & B2 & B3 & B4 & _).
    destruct (IH (cancel_conversion r w) progress success message
                Ha2 Hd Hp) as (C1 & C2 & C3 & C4 & C5).
    cbn [steps fold_left step].
    fold (steps (cancel_conversion r w) acts).
    repeat split; congruence.
Qed.

(** [start_conversion] on a window with an input. *)
Lemma start_conversion_started (w : RW2ToEXRApp) :
  input_text w <> EmptyString ->
  let w' := start_conversion w in
  boxes w' = boxes w
  /\ progress_visible w' = true
  /\ option_map job (conversion_thread w') = Some (job_of w)
  /\ convert_enabled w' = false
  /\ cancel_enabled w' = true
  /\ progress_value w' = 0%Z
  /\ option_map cancel_flag (conversion_thread w') = Some false.
Proof.
  intros Hi. unfold start_conversion.
  destruct (Str.truthy (input_text w)) eqn:T.
  - cbn. repeat split; reflexivity.
  - destruct (input_text w); [contradiction | discriminate].
Qed.

(** After Convert is clicked on a window with an input, once the signals
    of the job have reached their slots, with clicks on Cancel anywhere
    among them or after them, the window is ready for the next job:
    Convert is enabled, Cancel is disabled, the progress bar is shown,
    and one message box has been shown, of success or of error with the
    text of the completion signal. *)
Theorem job_leaves_window_ready (w : RW2ToEXRApp) (f : FS.t)
    (acts : list action) :
  input_text w <> EmptyString ->
  Forall during_job acts ->
  delivered acts = signals (run (job_of w) f) ->
  exists progress success message,
    signals (run (job_of w) f)
      = progress ++ [conversion_finished success message]
    /\ let w' := steps (start_conversion w) acts in
       boxes w' = boxes w ++ [result_box success message]
       /\ convert_enabled w' = true
       /\ cancel_enabled w' = false
       /\ progress_visible w' = true
       /\ option_map job (conversion_thread w') = Some (job_of w).
Proof.
  intros Hi Ha Hd.
  destruct (run_signals rawpy_postprocess OpenEXR_write cancel_requested
              (job_of w) f) as (body & r & E & P & _).
  exists body,
    (match r with inr _ => true | inl _ => false end),
    (match r with
     | inr _ => "Conversion completed successfully!"
     | inl e => "Error: " +:+ str_exn e
     end)%string.
  assert (E' : signals (run (job_of w) f) =
               body ++ [conversion_finished
                          (match r with inr _ => true | inl _ => false end)
                          (match r with
                           | inr _ => "Conversion completed successfully!"
                           | inl e => "Error: " +:+ str_exn e
                           end)%string]).
  { rewrite E. destruct r; reflexivity. }
  split; [exact E' |].
  rewrite E' in Hd.
  destruct (job_delivered acts (start_conversion w) body _ _ Ha Hd P)
    as (C1 & C2 & C3 & C4 & C5).
  destruct (start_conversion_started w Hi) as (S1 & S2 & S3 & _).
  cbv zeta. rewrite C1, C2, C3, C4, C5, S1, S2, S3.
  repeat split; reflexivity.
Qed.

(** Convert and Cancel are never enabled together, whatever happens in
    the window from its creation on, in whatever order. *)
Theorem buttons_never_both_enabled (acts : list action) :
  convert_enabled (steps init acts) && cancel_enabled (steps init acts)
  = false.
Proof.
  assert (G : forall acts w,
             convert_enabled w && cancel_enabled w = false ->
             convert_enabled (steps w acts) && cancel_enabled (steps w acts)
             = false).
  { clear acts. induction acts as [| a acts IH]; intros w H; [exact H |].
    cbn [steps fold_left]. apply IH.
    destruct a as [[v m | s m] | r | | p | p | c]; cbn.
    - unfold update_progress, setValue.
      destruct ((0 <=? v)%Z && (v <=? 100)%Z); exact H.
    - unfold conversion_done. destruct s; reflexivity.
    - unfold cancel_conversion. destruct (conversion_thread w); [| exact H].
      destruct r; [| exact H]. cbn. apply andb_false_r.
    - unfold start_conversion, setValue.
      destruct (negb _); [exact H | reflexivity].
    - unfold select_input. destruct (Str.truthy p); exact H.
    - unfold select_output. destruct (Str.truthy p); exact H.
    - exact H. }
  apply G. reflexivity.
Qed.

End Window.

Section ProgressBar.

Variable rawpy_postprocess : FS.t -> string -> result ndarray.
Variable OpenEXR_write : FS.t -> exr_image -> FS.t * option exn.
Variable cancel_requested : nat -> bool.

Local Abbreviation batch_loop :=
  (ConversionThread.batch_loop rawpy_postprocess OpenEXR_write
     cancel_requested).
Local Abbreviation run :=
  (ConversionThread.run rawpy_postprocess OpenEXR_write cancel_requested).

(** A signal whose percentage, if it has one, is between 0 and 100. *)
Definition in_range (ev : event) : Prop :=
  match ev with
  | progress_updated value _ => (0 <= value <= 100)%Z
  | conversion_finished _ _ => True
  end.

Lemma batch_loop_in_range (out : pathlib.PurePath) (n : nat) :
  forall files i f,
    (i + length files = n)%nat ->
    Forall in_range (signals (batch_loop out n i files f)).
Proof.
  induction files as [| x rest IH]; intros i f Hn; [constructor |].
  rewrite (batch_loop_cons rawpy_postprocess OpenEXR_write).
  destruct (cancel_requested i); [constructor |].
  destruct (rw2_to_exr_spec rawpy_postprocess OpenEXR_write (pathlib.str x)
              (pathlib.str (output_file_of out x)) f)
    as (f1 & enc & r & E & _).
  rewrite E.
  assert (R : in_range (progress_updated
                          (percent (Z.of_nat i) (Z.of_nat n))
                          (converting i n x))).
  { apply Arith.percent_range. simpl in Hn. lia. }
  destruct r as [e | u].
  - unfold signals. cbn. constructor; [exact R | constructor].
  - specialize (IH (S i) f1 ltac:(simpl in Hn; lia)).
    destruct (batch_loop out n (S i) rest f1) as [[f2 l2] r2].
    unfold signals in *. cbn in *. constructor; [exact R | exact IH].
Qed.

Lemma run_in_range (self : ConversionThread) (f : FS.t) :
  Forall in_range (signals (run self f)).
Proof.
  rewrite (run_eq rawpy_postprocess OpenEXR_write).
  destruct (is_batch self).
  - rewrite (batch_convert_eq rawpy_postprocess OpenEXR_write). cbn zeta.
    destruct (Path.mkdir (output_dir_of self) true true f) as [f1 [e | u]].
    { unfold signals. cbn. repeat constructor. }
    destruct (rw2_files f1 (pathlib.Path (input_path self))) as [| x rest].
    { unfold signals. cbn. repeat constructor. }
    pose proof (batch_loop_in_range (output_dir_of self)
                  (length (x :: rest)) (x :: rest) 0 f1 eq_refl) as K.
    destruct (batch_loop _ _ 0 (x :: rest) f1) as [[f2 l2] r2].
    unfold signals in *. cbn in *. apply Forall_app. split; [exact K |].
    destruct r2; repeat constructor.
  - rewrite (convert_single_eq rawpy_postprocess OpenEXR_write). cbn zeta.
    destruct (resolve_output_quiet self f) as [r ->].
    destruct r as [e | out].
    { unfold signals. cbn. repeat constructor. }
    destruct (rw2_to_exr_spec rawpy_postprocess OpenEXR_write
                (pathlib.str (pathlib.Path (input_path self)))
                (pathlib.str out) f) as (f1 & enc & r1 & -> & _).
    unfold signals. cbn.
    destruct r1; repeat constructor; unfold in_range; lia.
Qed.

(** Every percentage a job reports, in single or in batch mode, lies
    between 0 and 100, so that the progress bar of the window, whose range
    that is, takes it: after [update_progress] the bar shows the value of
    the signal and the label its message. *)
Theorem progress_fits_bar (self : ConversionThread) (f : FS.t)
    (value : Z) (message : string) :
  In (progress_updated value message) (signals (run self f)) ->
  (0 <= value <= 100)%Z
  /\ forall w,
       progress_value (RW2ToEXRApp.update_progress value message w) = value
       /\ status_text (RW2ToEXRApp.update_progress value message w)
          = message.
Proof.
  intros H. pose proof (run_in_range self f) as R.
  rewrite List.Forall_forall in R. specialize (R _ H). cbn in R.
  split; [exact R |]. intros w.
  unfold RW2ToEXRApp.update_progress, RW2ToEXRApp.setValue.
  replace ((0 <=? value)%Z && (value <=? 100)%Z) with true.
  - split; reflexivity.
  - symmetry. apply andb_true_intro. split; apply Z.leb_le; lia.
Qed.

End ProgressBar.

(* ===================================================================== *)
(** * Making directories removes nothing *)
(* ===================================================================== *)

Module Keeps.

Import FS FSFacts.

(** Every path that names a file or a directory in [f] names one of the
    same kind in [f'], and the working directory is the same. *)
Definition keeps (f f' : t) : Prop :=
  cwd f' = cwd f
  /\ forall path x, stat f path = inr x ->
       exists x', stat f' path = inr x' /\ is_dir_node x' = is_dir_node x.

Lemma keeps_refl (f : t) : keeps f f.
Proof. split; [reflexivity |]. intros path x H. exists x. auto. Qed.

Lemma keeps_trans (a b c : t) : keeps a b -> keeps b c -> keeps a c.
Proof.
  intros [C1 K1] [C2 K2]. split; [congruence |].
  intros path x H. destruct (K1 path x H) as (x1 & H1 & E1).
  destruct (K2 path x1 H1) as (x2 & H2 & E2).
  exists x2. split; [exact H2 | congruence].
Qed.

(** A tree that keeps what was there makes a file system that does. *)
Lemma node_keeps_keeps (f : t) (n' : node) :
  node_keeps (tree f) n' ->
  keeps f {| tree := n'; cwd := cwd f; scan_key := scan_key f |}.
Proof.
  intros K. split; [reflexivity |].
  intros p x. unfold stat, resolve. cbn [tree cwd].
  destruct (Str.truthy p); [| discriminate].
  destruct (walk (tree f) _ _) as [e | cs] eqn:W; [discriminate |].
  rewrite (walk_keeps _ _ K _ _ _ W). apply K.
Qed.

Lemma mkdir_keeps (f f' : t) (path : string) :
  mkdir f path = inr f' -> keeps f f'.
Proof.
  unfold mkdir. destruct (Str.truthy path); [| discriminate].
  destruct (resolve f path) as [e | cs]; [discriminate |].
  destruct (mkdir_at _ _) as [e | n'] eqn:R; [discriminate |].
  intros [= <-]. apply (node_keeps_keeps _ _ (mkdir_at_keeps _ _ _ R)).
Qed.

Lemma os_mkdir_keeps (path : string) (f f' : t) (r : result unit) :
  os.mkdir path f = (f', r) -> keeps f f'.
Proof.
  unfold os.mkdir, io.bind, io.get, io.raise, io.put.
  destruct (mkdir f path) as [e | f1] eqn:E.
  - intros [= <- _]. apply keeps_refl.
  - intros [= <- _]. apply (mkdir_keeps _ _ _ E).
Qed.

Lemma unless_isdir_keeps (path : string) (exist_ok : bool) (e : exn)
    (f f' : t) (r : result unit) :
  os.unless_isdir path exist_ok e f = (f', r) -> f' = f.
Proof.
  unfold os.unless_isdir, os.path_isdir, io.bind, io.get, io.ret, io.raise.
  destruct e; try (intros [= <- _]; reflexivity).
  destruct (negb exist_ok || negb _); intros [= <- _]; reflexivity.
Qed.

Lemma mkdir_plain_keeps (p : pathlib.PurePath) (exist_ok : bool)
    (f f' : t) (r : result unit) :
  Path.mkdir_plain p exist_ok f = (f', r) -> keeps f f'.
Proof.
  unfold Path.mkdir_plain, io.try_except.
  destruct (os.mkdir (pathlib.str p) f) as [f1 [e | u]] eqn:E.
  - pose proof (os_mkdir_keeps _ _ _ _ E) as K.
    destruct e as [[] fn | m | m | c m];
      try (unfold io.raise; intros [= <- _]; exact K);
      intros H; apply unless_isdir_keeps in H; subst f'; exact K.
  - intros [= <- _]. apply (os_mkdir_keeps _ _ _ _ E).
Qed.

Lemma mkdir_parents_keeps (r : string) (rparts : list string) :
  forall exist_ok f f' res,
    Path.mkdir_parents r rparts exist_ok f = (f', res) -> keeps f f'.
Proof.
  induction rparts as [| c rparents IH]; intros exist_ok f f' res;
    cbn [Path.mkdir_parents]; unfold io.try_except;
    destruct (os.mkdir _ f) as [f1 [e | u]] eqn:E;
    pose proof (os_mkdir_keeps _ _ _ _ E) as K;
    try (intros [= <- _]; exact K).
  - destruct e as [[] fn | m | m | cl m];
      try (unfold io.raise; intros [= <- _]; exact K);
      intros H; apply unless_isdir_keeps in H; subst f'; exact K.
  - destruct e as [[] fn | m | m | cl m];
      try (unfold io.raise; intros [= <- _]; exact K);
      try (intros H; apply unless_isdir_keeps in H; subst f'; exact K).
    unfold io.bind.
    destruct (Path.mkdir_parents r rparents true f1) as [f2 [e2 | u2]] eqn:E2;
      pose proof (IH _ _ _ _ E2) as K2.
    + intros [= <- _]. apply (keeps_trans _ _ _ K K2).
    + intros H. apply mkdir_plain_keeps in H.
      apply (keeps_trans _ _ _ K (keeps_trans _ _ _ K2 H)).
Qed.

Lemma try_mkdir_keeps (name : string) (exist_ok : bool) (f f' : t)
    (r : result unit) :
  io.try_except (os.mkdir name) (os.unless_isdir name exist_ok) f = (f', r) ->
  keeps f f'.
Proof.
  unfold io.try_except.
  destruct (os.mkdir name f) as [f1 [e | u]] eqn:E;
    pose proof (os_mkdir_keeps _ _ _ _ E) as K.
  - intros H. apply unless_isdir_keeps in H. subst f'. exact K.
  - intros [= <- _]. exact K.
Qed.

Lemma makedirs_go_keeps (fuel : nat) :
  forall name exist_ok f f' r,
    os.makedirs_go fuel name exist_ok f = (f', r) -> keeps f f'.
Proof.
  induction fuel as [| fuel IH]; intros name exist_ok f f' r;
    cbn [os.makedirs_go];
    destruct (posixpath.split name) as [head0 tail0];
    destruct (if negb (Str.truthy tail0) then posixpath.split head0
              else (head0, tail0)) as [head tail];
    unfold io.bind at 1, os.path_exists, io.bind at 1, io.get, io.ret;
    destruct (Str.truthy head && Str.truthy tail
              && negb (exists_ f head));
    try apply try_mkdir_keeps.
  - unfold io.raise. intros [= <- _]. apply keeps_refl.
  - unfold io.bind, io.try_except.
    destruct (os.makedirs_go fuel head exist_ok f) as [f1 [e | u]] eqn:E;
      pose proof (IH _ _ _ _ _ E) as K.
    + destruct e as [[] fn | m | m | cl m];
        try (unfold io.raise; intros [= <- _]; exact K).
      unfold io.ret. destruct (String.eqb tail ".").
      * intros [= <- _]. exact K.
      * intros H. fold (io.try_except (os.mkdir name)
                          (os.unless_isdir name exist_ok) f1) in H.
        apply try_mkdir_keeps in H. apply (keeps_trans _ _ _ K H).
    + destruct (String.eqb tail ".").
      * unfold io.ret. intros [= <- _]. exact K.
      * intros H. fold (io.try_except (os.mkdir name)
                          (os.unless_isdir name exist_ok) f1) in H.
        apply try_mkdir_keeps in H. apply (keeps_trans _ _ _ K H).
Qed.

(** [Path.mkdir] and [os.makedirs], with any flags and whether they
    return or raise, remove nothing and replace nothing: every path that
    named a file or a directory names one of the same kind afterwards. *)
Theorem making_directories_keeps (f : t) :
  (forall p parents exist_ok,
     keeps f (fst (Path.mkdir p parents exist_ok f)))
  /\ (forall name exist_ok, keeps f (fst (os.makedirs name exist_ok f))).
Proof.
  split.
  - intros p parents exist_ok. unfold Path.mkdir.
    destruct parents.
    + destruct (Path.mkdir_parents _ _ _ f) as [f' r] eqn:E.
      apply (mkdir_parents_keeps _ _ _ _ _ _ E).
    + destruct (Path.mkdir_plain p exist_ok f) as [f' r] eqn:E.
      apply (mkdir_plain_keeps _ _ _ _ _ E).
  - intros name exist_ok. unfold os.makedirs.
    destruct (os.makedirs_go _ name exist_ok f) as [f' r] eqn:E.
    apply (makedirs_go_keeps _ _ _ _ _ _ E).
Qed.

End Keeps.

Section JobKeeps.

Import Keeps.

Variable rawpy_postprocess : FS.t -> string -> result ndarray.
Variable OpenEXR_write : FS.t -> exr_image -> FS.t * option exn.
Variable cancel_requested : nat -> bool.

(** The encoder removes nothing and replaces no directory by a file. *)
Hypothesis encoder_keeps :
  forall f img, keeps f (fst (OpenEXR_write f img)).

Local Abbreviation rw2_to_exr :=
  (ConversionThread.rw2_to_exr rawpy_postprocess OpenEXR_write).
Local Abbreviation batch_loop :=
  (ConversionThread.batch_loop rawpy_postprocess OpenEXR_write
     cancel_requested).
Local Abbreviation run :=
  (ConversionThread.run rawpy_postprocess OpenEXR_write cancel_requested).

Lemma rw2_to_exr_keeps (input output : string) (f : FS.t) :
  keeps f (final_fs (rw2_to_exr input output f)).
Proof.
  unfold ConversionThread.rw2_to_exr, bind, try_except, lift, log_converted,
    log_encoded, ConversionThread.decode, ConversionThread.encode, raise,
    ret, log_app, final_fs. cbn.
  destruct (rawpy_postprocess f input) as [e | rgb]; cbn;
    [apply keeps_refl |].
  destruct (making_directories_keeps f) as [_ K].
  specialize (K (posixpath.dirname output) true).
  destruct (os.makedirs _ true f) as [f1 [e | []]]; cbn in K |- *;
    [exact K |].
  pose proof (encoder_keeps f1
                {| exr_path := output;
                   exr_header := (width rgb, height rgb);
                   exr_channels := channels rgb |}) as K2.
  destruct (OpenEXR_write f1 _) as [f2 [e |]]; cbn in K2 |- *;
    apply (keeps_trans _ _ _ K K2).
Qed.

Lemma batch_loop_keeps (out : pathlib.PurePath) (n : nat) :
  forall files i f, keeps f (final_fs (batch_loop out n i files f)).
Proof.
  induction files as [| x rest IH]; intros i f; [apply keeps_refl |].
  rewrite (batch_loop_cons rawpy_postprocess OpenEXR_write).
  destruct (cancel_requested i); [apply keeps_refl |].
  pose proof (rw2_to_exr_keeps (pathlib.str x)
                (pathlib.str (output_file_of out x)) f) as K.
  destruct (rw2_to_exr _ _ f) as [[f1 l1] [e | u]]; [exact K |].
  pose proof (IH (S i) f1) as K2.
  destruct (batch_loop out n (S i) rest f1) as [[f2 l2] r2].
  apply (keeps_trans _ _ _ K K2).
Qed.

(** A job removes nothing: if the encoder removes no file or directory and
    replaces no directory by a file, then every path that named a file or
    a directory before the job names one of the same kind after it,
    however the job ends. *)
Theorem job_keeps (self : ConversionThread) (f : FS.t) :
  keeps f (final_fs (run self f)).
Proof.
  rewrite (run_eq rawpy_postprocess OpenEXR_write).
  destruct (is_batch self).
  - rewrite (batch_convert_eq rawpy_postprocess OpenEXR_write). cbn zeta.
    destruct (making_directories_keeps f) as [K _].
    specialize (K (output_dir_of self) true true).
    destruct (Path.mkdir (output_dir_of self) true true f) as [f1 [e | u]];
      [exact K |].
    cbn in K.
    destruct (rw2_files f1 (pathlib.Path (input_path self))) as [| x rest];
      [exact K |].
    pose proof (batch_loop_keeps (output_dir_of self)
                  (length (x :: rest)) (x :: rest) 0 f1) as K2.
    destruct (batch_loop _ _ 0 (x :: rest) f1) as [[f2 l2] r2].
    apply (keeps_trans _ _ _ K K2).
  - rewrite (convert_single_eq rawpy_postprocess OpenEXR_write). cbn zeta.
    destruct (resolve_output_quiet self f) as [r ->].
    destruct r as [e | out]; [apply keeps_refl |].
    pose proof (rw2_to_exr_keeps
                  (pathlib.str (pathlib.Path (input_path self)))
                  (pathlib.str out) f) as K.
    destruct (rw2_to_exr _ _ f) as [[f1 l1] r1]. exact K.
Qed.

End JobKeeps.

Module KeepsDemo.

Import FS FSFacts Keeps.

Lemma create_at_keeps (comps : list string) :
  forall n n', create_at n comps = inr n' -> node_keeps n n'.
Proof.
  induction comps as [| c comps IH]; intros n n' H.
  { destruct n; [| discriminate]. injection H as <-.
    intros q x Hq. exists x. auto. }
  destruct n as [| es]; [discriminate |].
  destruct comps as [| c2 rest].
  - cbn in H. destruct (lookup_entry c es) as [[| es'] |] eqn:L;
      try discriminate; injection H as <-.
    + intros q x Hq. exists x. auto.
    + intros [| c' q] x Hq.
      * injection Hq as <-. eexists. split; reflexivity.
      * cbn [find] in Hq |- *. rewrite FSFacts.lookup_entry_app.
        destruct (lookup_entry c' es) as [y |]; [| discriminate].
        exists x. auto.
  - change (create_at (Dir es) (c :: c2 :: rest))
      with (match lookup_entry c es with
            | None => inl ENOENT
            | Some x =>
                match create_at x (c2 :: rest) with
                | inl e => inl e
                | inr x' => inr (Dir (update_entry c x' es))
                end
            end) in H.
    destruct (lookup_entry c es) as [z |] eqn:L; [| discriminate].
    destruct (create_at z (c2 :: rest)) as [e | z'] eqn:R; [discriminate |].
    injection H as <-. intros [| c' q] x Hq.
    + injection Hq as <-. eexists. split; reflexivity.
    + cbn [find] in Hq |- *.
      destruct (String.eqb_spec c' c) as [-> | N].
      * rewrite (FSFacts.lookup_update_entry c z' z es L).
        rewrite L in Hq. apply (IH z z' R q x Hq).
      * rewrite (lookup_update_other c c' z' es N).
        destruct (lookup_entry c' es) as [y |]; [| discriminate].
        exists x. auto.
Qed.

(** The encoder of the examples writes one file and removes nothing. *)
Lemma demo_encoder_keeps (f : t) (img : exr_image) :
  keeps f (fst (Demo.OpenEXR_write f img)).
Proof.
  unfold Demo.OpenEXR_write.
  destruct (create f (exr_path img)) as [e | f'] eqn:E; [apply keeps_refl |].
  cbn. unfold create in E. destruct (Str.truthy (exr_path img));
    [| discriminate].
  destruct (resolve f (exr_path img)) as [e | cs]; [discriminate |].
  destruct (create_at _ _) as [e | n'] eqn:R; [discriminate |].
  injection E as <-. apply (node_keeps_keeps _ _ (create_at_keeps _ _ _ R)).
Qed.

(** The batch over the three files of the examples keeps [notes.txt]. *)
Lemma job_keeps_three :
  keeps BatchExamples.three
    (final_fs (Demo.run Demo.never (Demo.batch "in" "out")
                 BatchExamples.three)).
Proof.
  apply (job_keeps Demo.rawpy_postprocess Demo.OpenEXR_write Demo.never
           demo_encoder_keeps).
Defined.

End KeepsDemo.

(* ===================================================================== *)
(** * More jobs on the small file system *)
(* ===================================================================== *)

Module JobExamples.

Import Demo ConversionExamples.

(** The 58th of 200 files: the quotient 5800/200 is the integer 29, and
    the percentage is 29 or 28. *)
Lemma percent_58_of_200 :
  (29 - 1 <= percent 57 200 <= 29)%Z
  /\ ((((57 + 1) * 100) mod 200 <> 0)%Z -> percent 57 200 = 29%Z).
Proof.
  apply (Rounding.percent_floor_or_below 57 200); [lia | vm_compute; discriminate].
Defined.

(** Two neighbouring levels in the middle of the range. *)
Lemma normalize_32767_32768 : (normalize 32767 < normalize 32768)%Q.
Proof. apply (Rounding.normalize_lt 32767 32768); lia. Defined.

(** [a.RW2] converted into the directory [out]. *)
Lemma single_job_into_out :
  let self := single "a.RW2" "out" in
  let r := ConversionThread.rw2_to_exr rawpy_postprocess OpenEXR_write
             "a.RW2" "out/a.exr" desk in
  signals (run never self desk) =
    progress_updated 0 "Converting a.RW2..."
    :: match snd r with
       | inr _ =>
           [progress_updated 100 "Successfully converted to out/a.exr";
            completed]
       | inl e => [progress_updated 0 ("Error: " +:+ str_exn e); failed e]
       end
  /\ calls (run never self desk) = [("a.RW2", "out/a.exr")]
  /\ final_fs (run never self desk) = final_fs r.
Proof.
  apply (single_job_signals rawpy_postprocess OpenEXR_write never
           (single "a.RW2" "out") desk (pathlib.Path "out/a.exr"));
    reflexivity.
Defined.

(** [a.RW2] given as a bare name, with no output. *)
Lemma single_job_bare_a :
  exists cause,
    let msg := "Error: Failed to convert a.RW2: " +:+ cause in
    run never (single "a.RW2" EmptyString) desk =
      (desk,
       {| emitted :=
            [progress_updated 0 "Converting a.RW2...";
             progress_updated 0 msg;
             conversion_finished false msg];
          converted := [("a.RW2", "a.exr")];
          encoded := [] |},
       inr tt)
    /\ (forall rgb, rawpy_postprocess desk "a.RW2" = inr rgb ->
        cause = "[Errno 2] No such file or directory: ''").
Proof.
  apply (single_job_bare_input rawpy_postprocess OpenEXR_write never
           (single "a.RW2" EmptyString) desk);
    [reflexivity | reflexivity |].
  split; [reflexivity | split; [discriminate | reflexivity]].
Defined.

(** The root directory given as the input of a single-mode job. *)
Lemma single_job_on_root :
  run never (single "/" EmptyString) desk =
    (desk,
     {| emitted :=
          [conversion_finished false
             "Error: PosixPath('/') has an empty name"];
        converted := []; encoded := [] |},
     inr tt).
Proof.
  apply (single_job_nameless_input rawpy_postprocess OpenEXR_write never
           (single "/" EmptyString) desk); reflexivity.
Defined.

(** [a.RW2] and [a.rw2] both go to [out/a.exr]. *)
Lemma a_RW2_and_a_rw2 :
  output_file_of (pathlib.Path "out")
    (pathlib.make_child_relpath (pathlib.Path "in") "a.RW2")
    = pathlib.make_child_relpath (pathlib.Path "out") "a.exr"
  /\ output_file_of (pathlib.Path "out")
       (pathlib.make_child_relpath (pathlib.Path "in") "a.rw2")
     = pathlib.make_child_relpath (pathlib.Path "out") "a.exr".
Proof.
  apply (Outputs.same_stem_same_output (pathlib.Path "out")
           (pathlib.Path "in") "a"); [discriminate | reflexivity].
Defined.

(** A batch over [a.RW2] and [a.rw2] converts both into the one file. *)
Lemma batch_overwrites_same_stem :
  calls (run never (batch "in" "out") (home [raw "a.rw2"; raw "a.RW2"]))
  = [("in/a.RW2", "out/a.exr"); ("in/a.rw2", "out/a.exr")].
Proof. vm_compute. reflexivity. Qed.

(** The three files of the examples are found once each. *)
Lemma three_found_once :
  List.NoDup (rw2_files BatchExamples.three (pathlib.Path "in")).
Proof.
  apply (Once.discovered_once BatchExamples.three (pathlib.Path "in")).
  intros names H.
  assert (E : FS.scandir BatchExamples.three (pathlib.str (pathlib.Path "in"))
              = inr ["a.RW2"; "b.rw2"; "c.RW2"]) by reflexivity.
  rewrite E in H. injection H as <-.
  repeat constructor; cbn; intuition discriminate.
Defined.

(** Convert clicked for [a.RW2]; Cancel clicked while the job runs and
    once more after it. *)
Definition session : list RW2ToEXRApp.action :=
  [RW2ToEXRApp.Deliver (progress_updated 0 "Converting a.RW2...");
   RW2ToEXRApp.ClickCancel true;
   RW2ToEXRApp.Deliver
     (progress_updated 0
        "Error: Failed to convert a.RW2: [Errno 2] No such file or directory: ''");
   RW2ToEXRApp.Deliver
     (conversion_finished false
        "Error: Failed to convert a.RW2: [Errno 2] No such file or directory: ''");
   RW2ToEXRApp.ClickCancel false].

Definition chosen : RW2ToEXRApp :=
  RW2ToEXRApp.select_input "a.RW2" RW2ToEXRApp.init.

Lemma window_ready_after_session :
  exists progress success message,
    signals (run never (job_of chosen) desk)
      = progress ++ [conversion_finished success message]
    /\ let w' :=
         RW2ToEXRApp.steps (RW2ToEXRApp.start_conversion chosen) session in
       boxes w' = boxes chosen ++ [result_box success message]
       /\ convert_enabled w' = true
       /\ cancel_enabled w' = false
       /\ progress_visible w' = true
       /\ option_map job (conversion_thread w') = Some (job_of chosen).
Proof.
  apply (job_leaves_window_ready rawpy_postprocess OpenEXR_write never
           chosen desk session).
  - discriminate.
  - repeat constructor.
  - reflexivity.
Defined.

(** The window after that session. *)
Lemma window_after_session :
  let w' := RW2ToEXRApp.steps (RW2ToEXRApp.start_conversion chosen) session in
  boxes w' =
    [{| box_icon := Critical; box_title := "Error";
        box_text :=
          "Error: Failed to convert a.RW2: [Errno 2] No such file or directory: ''" |}]
  /\ status_text w' =
       "Error: Failed to convert a.RW2: [Errno 2] No such file or directory: ''"
  /\ option_map cancel_flag (conversion_thread w') = Some true.
Proof. vm_compute. repeat split; reflexivity. Qed.

(** The last signal of progress of the batch of three fills the bar. *)
Lemma bar_full_on_third :
  (0 <= 100 <= 100)%Z
  /\ forall w,
       progress_value
         (RW2ToEXRApp.update_progress 100 "Converting 3/3: b.rw2" w) = 100%Z
       /\ status_text
            (RW2ToEXRApp.update_progress 100 "Converting 3/3: b.rw2" w)
          = "Converting 3/3: b.rw2".
Proof.
  apply (progress_fits_bar rawpy_postprocess OpenEXR_write never
           (batch "in" "out") BatchExamples.three).
  vm_compute. right. right. left. reflexivity.
Defined.

End JobExamples.

(* ===================================================================== *)
(** * A conversion that returns *)
(* ===================================================================== *)

Section Returns.

Variable rawpy_postprocess : FS.t -> string -> result ndarray.
Variable OpenEXR_write : FS.t -> exr_image -> FS.t * option exn.

Local Abbreviation rw2_to_exr :=
  (ConversionThread.rw2_to_exr rawpy_postprocess OpenEXR_write).

(** The image [rw2_to_exr] makes of a decoded array. *)
Definition image_of (output : string) (rgb : ndarray) : exr_image :=
  {| exr_path := output; exr_header := (width rgb, height rgb);
     exr_channels := channels rgb |}.

Lemma channels_dom (rgb : ndarray) :
  dom (channels rgb) = ({["R"; "G"; "B"]} : gset string).
Proof. unfold channels. rewrite !dom_insert_L, dom_empty_L. set_solver. Qed.

(** The channels of an image are R, G and B, and each holds one value for
    each pixel of the array. *)
Lemma channels_lengths (rgb : ndarray) (name : string) (values : list Q) :
  channels rgb !! name = Some values ->
  (name = "R" \/ name = "G" \/ name = "B")
  /\ length values = length (pixels rgb).
Proof.
  unfold channels. intros H.
  apply lookup_insert_Some in H as [[<- <-] | [_ H]];
    [split; [auto | apply length_map] |].
  apply lookup_insert_Some in H as [[<- <-] | [_ H]];
    [split; [auto | apply length_map] |].
  apply lookup_insert_Some in H as [[<- <-] | [_ H]];
    [split; [auto | apply length_map] |].
  rewrite lookup_empty in H. discriminate.
Qed.

(** When [rw2_to_exr] returns, it has decoded the input, then made the
    directory of the output, then called the encoder once, in that order
    on the file system; the image handed over has the width and the
    height of the array in its header and the three channels R, G and B,
    and each of its channels holds one value for each pixel; and the file
    system is as the encoder left it. *)
Theorem conversion_returns (input output : string) (f f' : FS.t) (l : log) :
  rw2_to_exr input output f = (f', l, inr tt) ->
  exists rgb f1 img,
    rawpy_postprocess f input = inr rgb
    /\ os.makedirs (posixpath.dirname output) true f = (f1, inr tt)
    /\ OpenEXR_write f1 img = (f', None)
    /\ l = {| emitted := []; converted := [(input, output)];
              encoded := [img] |}
    /\ exr_path img = output
    /\ exr_header img = (width rgb, height rgb)
    /\ dom (exr_channels img) = ({["R"; "G"; "B"]} : gset string)
    /\ forall name values,
         exr_channels img !! name = Some values ->
         length values = length (pixels rgb).
Proof.
  unfold ConversionThread.rw2_to_exr, bind, try_except, lift, log_converted,
    log_encoded, ConversionThread.decode, ConversionThread.encode, raise,
    ret, log_app. cbn.
  destruct (rawpy_postprocess f input) as [e | rgb]; cbn; [discriminate |].
  destruct (os.makedirs _ true f) as [f1 [e | []]] eqn:Em; cbn;
    [discriminate |].
  fold (image_of output rgb).
  destruct (OpenEXR_write f1 (image_of output rgb)) as [f2 [e |]] eqn:Ew;
    cbn; [discriminate |].
  intros [= <- <-]. exists rgb, f1, (image_of output rgb).
  split; [reflexivity |]. split; [reflexivity |]. split; [exact Ew |].
  split; [reflexivity |]. split; [reflexivity |]. split; [reflexivity |].
  split; [apply channels_dom |].
  intros name values H. apply (channels_lengths rgb name values H).
Qed.

End Returns.

Module ReturnsExample.

Import Demo ConversionExamples.

(** [a.RW2] converted to [out/a.exr]: the encoder creates the file. *)
Lemma conversion_of_a_returns :
  let r := ConversionThread.rw2_to_exr rawpy_postprocess OpenEXR_write
             "a.RW2" "out/a.exr" desk in
  exists rgb f1 img,
    rawpy_postprocess desk "a.RW2" = inr rgb
    /\ os.makedirs (posixpath.dirname "out/a.exr") true desk = (f1, inr tt)
    /\ OpenEXR_write f1 img = (final_fs r, None)
    /\ snd (fst r) =
         {| emitted := []; converted := [("a.RW2", "out/a.exr")];
            encoded := [img] |}
    /\ exr_path img = "out/a.exr"
    /\ exr_header img = (width rgb, height rgb)
    /\ dom (exr_channels img) = ({["R"; "G"; "B"]} : gset string)
    /\ forall name values,
         exr_channels img !! name = Some values ->
         length values = length (pixels rgb).
Proof.
  apply (conversion_returns rawpy_postprocess OpenEXR_write
           "a.RW2" "out/a.exr" desk).
  reflexivity.
Defined.

(** The channels of that image hold two values each. *)
Lemma channels_of_a :
  List.map (fun name => option_map (@length Q) (channels image !! name))
    ["R"; "G"; "B"; "A"]
  = [Some 2; Some 2; Some 2; None]%nat
  /\ length (pixels image) = 2%nat.
Proof. vm_compute. split; reflexivity. Qed.

(** The file is there afterwards. *)
Lemma output_of_a_exists :
  FS.stat
    (final_fs (ConversionThread.rw2_to_exr rawpy_postprocess OpenEXR_write
                 "a.RW2" "out/a.exr" desk)) "out/a.exr"
  = inr FS.File.
Proof. reflexivity. Qed.

End ReturnsExample.

(* ===================================================================== *)
(** * The rounding against the Standard Library's IEEE 754 *)
(* ===================================================================== *)

Module SpecFloatAgreement.

Import IEEE.

(** [np.float32(s) / np.float32(65535)] in [SpecFloat]. *)
Definition normalize_SF (s : Z) : spec_float :=
  SFdiv (prec binary32) (emax binary32)
    (SF_of_Z binary32 s) (SF_of_Z binary32 65535).

(** [(i + 1) / n * 100] in [SpecFloat]. *)
Definition scaled_SF (i n : Z) : spec_float :=
  SFmul (prec binary64) (emax binary64)
    (SFdiv (prec binary64) (emax binary64)
       (SF_of_Z binary64 (i + 1)) (SF_of_Z binary64 n))
    (SF_of_Z binary64 100).

(** The 256 samples [257 * k], the 8-bit levels among the 16-bit ones:
    the normalization is the quotient of [SpecFloat]. *)
Lemma normalize_agrees_on_8bit_levels :
  forallb (fun k => SF_agrees (normalize_SF (257 * k)) (normalize (257 * k)))
    (Zrange 0 256) = true.
Proof. vm_compute. reflexivity. Qed.

(** The percentages of a batch of 200 files and of the batches of up to
    24 files: the product is that of [SpecFloat]. *)
Lemma scaled_agrees_on_batches :
  forallb (fun i => SF_agrees (scaled_SF i 200) (Arith.scaled i 200))
    (Zrange 0 200) = true
  /\ forallb (fun n =>
                forallb (fun i => SF_agrees (scaled_SF i n) (Arith.scaled i n))
                  (Zrange 0 (Z.to_nat n)))
       (Zrange 1 24) = true.
Proof. vm_compute. split; reflexivity. Qed.

End SpecFloatAgreement.
